(** * Suivi des marchés : cache de synchronisation et agrégats financiers

    A shallow embedding of [marches_sync.py] (class [MarchesSync]),
    of the aggregation methods of [marches_module.py] (class
    [MarchesAnalyzer]) and of [Database.get_montant_total_marche], followed
    by the properties established about them.

    Modelling conventions.
    - Python [str] values are [string]s read as sequences of code points
      below 256; [str.isspace] and [str.isdigit] are the Unicode predicates
      restricted to that range.
    - Python [float] amounts are exact rationals ([Q]); equality of amounts
      is [Qeq].  The missing value (NaN / None) of a pandas cell is a
      constructor of its own.
    - What belongs to the Python runtime and not to the repository (the
      text of a float, [float(text)], [pandas.to_numeric] on a text cell,
      [hashlib.md5]) is gathered in the record [Runtime], over which the
      development is parametric. *)

From Stdlib Require Import List ZArith QArith Qround Qabs Bool Lia.
From Stdlib Require Import Ascii String DecimalString.
From Stdlib Require Import Sorted Permutation SetoidList SetoidPermutation ListSet.
Import ListNotations.

Local Open Scope string_scope.
Local Open Scope list_scope.
Local Open Scope Z_scope.

(** ** Python text primitives *)

Module PyStr.

(** [str.isspace] on one character. *)
Definition isspace_char (c : ascii) : bool :=
  let n := N_of_ascii c in
  (((9 <=? n) && (n <=? 13)) || ((28 <=? n) && (n <=? 32))
   || (n =? 133) || (n =? 160))%N.

(** [str.isdigit] on one character: the decimal digits and the three
    superscript digits of the range. *)
Definition isdigit_char (c : ascii) : bool :=
  let n := N_of_ascii c in
  (((48 <=? n) && (n <=? 57)) || (n =? 178) || (n =? 179) || (n =? 185))%N.

Fixpoint all_chars (p : ascii -> bool) (s : string) : bool :=
  match s with
  | EmptyString => true
  | String c r => p c && all_chars p r
  end.

(** [s.isdigit()]: non-empty and made of digits only. *)
Definition isdigit (s : string) : bool :=
  match s with
  | EmptyString => false
  | _ => all_chars isdigit_char s
  end.

Definition len (s : string) : Z := Z.of_nat (String.length s).

(** [s.count(c)] for a one-character needle. *)
Fixpoint count (c : ascii) (s : string) : Z :=
  match s with
  | EmptyString => 0
  | String a r => (if Ascii.eqb a c then 1 else 0) + count c r
  end.

(** [s.rfind(c)]: the greatest index holding [c], or [-1]. *)
Fixpoint rfind_from (c : ascii) (s : string) (i last : Z) : Z :=
  match s with
  | EmptyString => last
  | String a r => rfind_from c r (i + 1) (if Ascii.eqb a c then i else last)
  end.

Definition rfind (c : ascii) (s : string) : Z := rfind_from c s 0 (-1).

Fixpoint lstrip (s : string) : string :=
  match s with
  | EmptyString => EmptyString
  | String c r => if isspace_char c then lstrip r else s
  end.

Fixpoint rstrip (s : string) : string :=
  match s with
  | EmptyString => EmptyString
  | String c r =>
      match rstrip r with
      | EmptyString => if isspace_char c then EmptyString else String c EmptyString
      | r' => String c r'
      end
  end.

(** [s.strip()] *)
Definition strip (s : string) : string := rstrip (lstrip s).

Fixpoint take (n : nat) (s : string) : string :=
  match n, s with
  | S k, String c r => String c (take k r)
  | _, _ => EmptyString
  end.

Fixpoint drop (n : nat) (s : string) : string :=
  match n, s with
  | S k, String _ r => drop k r
  | _, _ => s
  end.

(** A slice bound as Python resolves it: a negative bound counts from the
    end, and everything is clipped to the string. *)
Definition bound (k : Z) (s : string) : nat :=
  if k <? 0 then Z.to_nat (Z.max 0 (len s + k)) else Z.to_nat k.

(** [s[k:]] and [s[:k]] *)
Definition slice_from (k : Z) (s : string) : string := drop (bound k s) s.
Definition slice_to (k : Z) (s : string) : string := take (bound k s) s.

(** [sep.join(parts)] *)
Fixpoint join (sep : string) (parts : list string) : string :=
  match parts with
  | [] => EmptyString
  | [p] => p
  | p :: rest => (p ++ sep ++ join sep rest)%string
  end.

(** [s.encode()]: UTF-8. *)
Fixpoint encode (s : string) : string :=
  match s with
  | EmptyString => EmptyString
  | String c r =>
      let n := N_of_ascii c in
      if (n <? 128)%N then String c (encode r)
      else String (ascii_of_N (192 + N.shiftr n 6))
             (String (ascii_of_N (128 + N.land n 63)) (encode r))
  end.

(** [str(n)] for an integer. *)
Definition of_Z (n : Z) : string := NilZero.string_of_int (Z.to_int n).

(** [int(x)] for a float: truncation towards zero. *)
Definition int_of (x : Q) : Z :=
  if Qle_bool 0 x then Qfloor x else Qceiling x.

End PyStr.

(** ** [hashlib.md5]: the MD5 digest of RFC 1321, on byte strings *)

Module MD5.

Definition mask32 : Z := 4294967295.
Definition add32 (a b : Z) : Z := Z.land (a + b) mask32.
Definition not32 (a : Z) : Z := Z.lxor a mask32.
Definition rotl32 (x c : Z) : Z :=
  Z.land (Z.lor (Z.shiftl x c) (Z.shiftr x (32 - c))) mask32.

(** Per-round shift amounts. *)
Definition shifts : list Z :=
  [7; 12; 17; 22; 7; 12; 17; 22; 7; 12; 17; 22; 7; 12; 17; 22;
   5; 9; 14; 20; 5; 9; 14; 20; 5; 9; 14; 20; 5; 9; 14; 20;
   4; 11; 16; 23; 4; 11; 16; 23; 4; 11; 16; 23; 4; 11; 16; 23;
   6; 10; 15; 21; 6; 10; 15; 21; 6; 10; 15; 21; 6; 10; 15; 21].

(** [floor(2^32 * abs(sin(i + 1)))] for [i] from 0 to 63. *)
Definition sines : list Z :=
  [3614090360; 3905402710; 606105819; 3250441966;
   4118548399; 1200080426; 2821735955; 4249261313;
   1770035416; 2336552879; 4294925233; 2304563134;
   1804603682; 4254626195; 2792965006; 1236535329;
   4129170786; 3225465664; 643717713; 3921069994;
   3593408605; 38016083; 3634488961; 3889429448;
   568446438; 3275163606; 4107603335; 1163531501;
   2850285829; 4243563512; 1735328473; 2368359562;
   4294588738; 2272392833; 1839030562; 4259657740;
   2763975236; 1272893353; 4139469664; 3200236656;
   681279174; 3936430074; 3572445317; 76029189;
   3654602809; 3873151461; 530742520; 3299628645;
   4096336452; 1126891415; 2878612391; 4237533241;
   1700485571; 2399980690; 4293915773; 2240044497;
   1873313359; 4264355552; 2734768916; 1309151649;
   4149444226; 3174756917; 718787259; 3951481745].

Definition bytes_of_string (s : string) : list Z :=
  map (fun c => Z.of_N (N_of_ascii c)) (list_ascii_of_string s).

(** [k] bytes of [v], least significant first. *)
Fixpoint le_bytes (k : nat) (v : Z) : list Z :=
  match k with
  | O => []
  | S k' => Z.land v 255 :: le_bytes k' (Z.shiftr v 8)
  end.

(** The message followed by the bit 1, zeros up to 56 modulo 64 bytes, and
    its length in bits on 64 bits. *)
Definition pad (msg : list Z) : list Z :=
  let n := Z.of_nat (List.length msg) in
  let zeros := Z.to_nat ((55 - n) mod 64) in
  msg ++ [128] ++ repeat 0 zeros ++ le_bytes 8 (8 * n).

(** The little-endian 32-bit words of a run of bytes. *)
Fixpoint words (fuel : nat) (bs : list Z) : list Z :=
  match fuel, bs with
  | S f, b0 :: b1 :: b2 :: b3 :: r =>
      (b0 + Z.shiftl b1 8 + Z.shiftl b2 16 + Z.shiftl b3 24) :: words f r
  | _, _ => []
  end.

Definition state : Type := (Z * Z * Z * Z)%type.

(** Operation [i] of the compression function on the block [m]. *)
Definition step (m : list Z) (st : state) (i : Z) : state :=
  let '(a, b, c, d) := st in
  let '(f, g) :=
    if i <? 16 then (Z.lor (Z.land b c) (Z.land (not32 b) d), i)
    else if i <? 32 then
      (Z.lor (Z.land d b) (Z.land (not32 d) c), (5 * i + 1) mod 16)
    else if i <? 48 then (Z.lxor b (Z.lxor c d), (3 * i + 5) mod 16)
    else (Z.lxor c (Z.lor b (not32 d)), (7 * i) mod 16) in
  let f :=
    add32 (add32 (add32 f a) (nth (Z.to_nat i) sines 0)) (nth (Z.to_nat g) m 0) in
  (d, add32 b (rotl32 f (nth (Z.to_nat i) shifts 0)), b, c).

Definition rounds : list Z := map Z.of_nat (seq 0 64).

Definition compress (st : state) (block : list Z) : state :=
  let m := words 16 block in
  let '(a, b, c, d) := fold_left (step m) rounds st in
  let '(a0, b0, c0, d0) := st in
  (add32 a0 a, add32 b0 b, add32 c0 c, add32 d0 d).

(** The blocks of 64 bytes of a padded message. *)
Fixpoint blocks (fuel : nat) (bs : list Z) : list (list Z) :=
  match fuel, bs with
  | S f, _ :: _ => firstn 64 bs :: blocks f (skipn 64 bs)
  | _, _ => []
  end.

Definition init : state := (1732584193, 4023233417, 2562383102, 271733878).

Definition hex_digit (n : Z) : ascii :=
  ascii_of_N (Z.to_N (if n <? 10 then 48 + n else 87 + n)).

Definition hex_byte (b : Z) : string :=
  String (hex_digit (Z.shiftr b 4)) (String (hex_digit (Z.land b 15)) EmptyString).

(** [hashlib.md5(data).hexdigest()] *)
Definition hexdigest (data : string) : string :=
  let padded := pad (bytes_of_string data) in
  let '(a, b, c, d) :=
    fold_left compress (blocks (List.length padded) padded) init in
  String.concat EmptyString
    (map hex_byte (le_bytes 4 a ++ le_bytes 4 b ++ le_bytes 4 c ++ le_bytes 4 d)).

End MD5.

(** ** OperationCodeResolver: [MarchesAnalyzer.extract_operation] *)

Definition count_separators (s : string) : Z :=
  let nb_underscores := PyStr.count "_" s in
  let nb_dashes := PyStr.count "-" s in
  nb_underscores + nb_dashes.

(** A separator of a contract code: underscore or hyphen. *)
Definition is_separator (c : ascii) : bool :=
  Ascii.eqb c "_" || Ascii.eqb c "-".

Definition extract_operation (marche : string) : string :=
  match marche with
  | EmptyString => ""
  | _ =>
      let normalized := PyStr.strip marche in
      let total_separators := count_separators normalized in
      if total_separators <? 2 then normalized
      else
        let last_underscore := PyStr.rfind "_" normalized in
        let last_dash := PyStr.rfind "-" normalized in
        let last_sep := Z.max last_underscore last_dash in
        if 0 <? last_sep then
          let suffix := PyStr.slice_from (last_sep + 1) normalized in
          if PyStr.isdigit suffix && (PyStr.len suffix <=? 2)
          then PyStr.slice_to last_sep normalized
          else normalized
        else normalized
  end.

(** ** Cells, runtime and pandas primitives *)

(** What a Python conversion yields: a value, or the text of the exception
    it raises. *)
Inductive result (A : Type) : Type :=
| Ok (a : A)
| Raise (msg : string).
Arguments Ok {A} a.
Arguments Raise {A} msg.

(** The part of the Python runtime the code calls into. *)
Record Runtime : Type := {
  (** [str(x)] for a float [x] *)
  str_float : Q -> string;
  (** [float(s)] for a text [s]; [Raise] carries the [ValueError] text *)
  py_float : string -> result Q;
  (** [pandas.to_numeric(errors='coerce')] on one text: [None] is NaN *)
  to_numeric_text : string -> option Q;
  (** [hashlib.md5(data).hexdigest()] on a byte string *)
  md5_hexdigest : string -> string
}.

(** One cell of a DataFrame. *)
Inductive Cell : Type :=
| CNaN
| CNum (q : Q)
| CStr (s : string).

Module Pd.

(** [pd.isna] / [pd.notna] *)
Definition isna (c : Cell) : bool :=
  match c with CNaN => true | _ => false end.
Definition notna (c : Cell) : bool := negb (isna c).

(** Python [==] between two cell values; NaN equals nothing. *)
Definition eq (a b : Cell) : bool :=
  match a, b with
  | CNum x, CNum y => Qeq_bool x y
  | CStr x, CStr y => String.eqb x y
  | _, _ => false
  end.

(** [c != ''] *)
Definition ne_empty (c : Cell) : bool := negb (eq c (CStr "")).

(** The key under which [unique()] files a value: as [eq], with the
    missing value equal to itself. *)
Definition same (a b : Cell) : bool :=
  match a, b with
  | CNaN, CNaN => true
  | _, _ => eq a b
  end.

(** [m1 & m2] on boolean masks *)
Fixpoint mask_and (m1 m2 : list bool) : list bool :=
  match m1, m2 with
  | b1 :: r1, b2 :: r2 => (b1 && b2) :: mask_and r1 r2
  | _, _ => []
  end.

(** [df[mask]]: boolean indexing *)
Fixpoint select {A : Type} (mask : list bool) (df : list A) : list A :=
  match mask, df with
  | b :: m, x :: r => if b then x :: select m r else select m r
  | _, _ => []
  end.

(** [unique()]: the values in order of first appearance. *)
Fixpoint unique_from {A : Type} (eqb : A -> A -> bool) (seen l : list A)
  : list A :=
  match l with
  | [] => []
  | x :: r =>
      if existsb (eqb x) seen then unique_from eqb seen r
      else x :: unique_from eqb (x :: seen) r
  end.
Definition unique {A : Type} (eqb : A -> A -> bool) (l : list A) : list A :=
  unique_from eqb [] l.

(** [sum()] of a numeric column *)
Fixpoint sum (l : list Q) : Q :=
  match l with
  | [] => 0%Q
  | x :: r => (x + sum r)%Q
  end.

(** [dropna()] *)
Definition dropna (l : list Cell) : list Cell := filter notna l.

Section WithRuntime.
Variable rt : Runtime.

(** [str(v)] of a cell value *)
Definition str (c : Cell) : string :=
  match c with
  | CNaN => "nan"
  | CNum q => str_float rt q
  | CStr s => s
  end.

(** [pd.to_numeric(col, errors='coerce').fillna(0.0)], cell by cell *)
Definition to_numeric_fillna (c : Cell) : Q :=
  match c with
  | CNaN => 0%Q
  | CNum q => q
  | CStr s => match to_numeric_text rt s with Some q => q | None => 0%Q end
  end.

End WithRuntime.

End Pd.

(** A stable insertion sort, as [list.sort] is stable: [before x y] tells
    that [x] may stand before [y]. *)
Section StableSort.
Context {A : Type} (before : A -> A -> bool).

Fixpoint insert_sorted (x : A) (l : list A) : list A :=
  match l with
  | [] => [x]
  | y :: r => if before x y then x :: y :: r else y :: insert_sorted x r
  end.

Definition stable_sort (l : list A) : list A := fold_right insert_sorted [] l.

End StableSort.

(** ** The override store: [Database] (marchés, avenants, tranches) *)

Module Db.

Record MarcheRec : Type := {
  code_marche : string;
  libelle : option string;
  fournisseur : option string;
  type_marche : option string;
  montant_initial_manuel : option Q
}.

Record AvenantRec : Type := {
  av_code_marche : string;
  numero_avenant : option Z;
  av_montant : option Q;
  type_modification : option string
}.

Record TrancheRec : Type := {
  tr_code_marche : string;
  code_tranche : string;
  tr_montant : option Q;
  ordre : option Z
}.

Record Database : Type := {
  marches : list MarcheRec;
  avenants : list AvenantRec;
  tranches : list TrancheRec
}.

(** [x or 0.0] on a REAL column *)
Definition or_zero (x : option Q) : Q :=
  match x with
  | Some q => if Qeq_bool q 0 then 0%Q else q
  | None => 0%Q
  end.

(** Truth value of a REAL column: neither NULL nor zero. *)
Definition truthy (x : option Q) : bool :=
  match x with
  | Some q => negb (Qeq_bool q 0)
  | None => false
  end.

(** SQLite's [ORDER BY] on an INTEGER column: NULL first. *)
Definition order_by (a b : option Z) : bool :=
  match a, b with
  | None, _ => true
  | Some _, None => false
  | Some x, Some y => x <=? y
  end.

Definition get_marche (db : Database) (code : string) : option MarcheRec :=
  find (fun m => String.eqb (code_marche m) code) (marches db).

Definition get_avenants (db : Database) (code : string) : list AvenantRec :=
  stable_sort (fun a b => order_by (numero_avenant a) (numero_avenant b))
    (filter (fun a => String.eqb (av_code_marche a) code) (avenants db)).

Definition get_tranches (db : Database) (code : string) : list TrancheRec :=
  stable_sort (fun a b => order_by (ordre a) (ordre b))
    (filter (fun t => String.eqb (tr_code_marche t) code) (tranches db)).

(** [SELECT montant FROM tranches WHERE code_marche = ? AND code_tranche = ?] *)
Definition fetch_tranche (db : Database) (code code_tr : string)
  : option TrancheRec :=
  find (fun t => String.eqb (tr_code_marche t) code
                 && String.eqb (code_tranche t) code_tr) (tranches db).

(** The signed amount of one amendment. *)
Definition montant_avenant_signe (a : AvenantRec) : Q :=
  let montant_avenant := or_zero (av_montant a) in
  match type_modification a with
  | Some t => if String.eqb t "Diminution" then (- montant_avenant)%Q
              else montant_avenant
  | None => montant_avenant
  end.

Definition get_montant_total_marche (db : Database) (code : string) : Q :=
  match get_marche db code with
  | None => 0%Q
  | Some marche =>
      let type_marche :=
        match type_marche marche with
        | Some t => if String.eqb t "" then "CLASSIQUE" else t
        | None => "CLASSIQUE"
        end in
      let montant_initial := or_zero (montant_initial_manuel marche) in
      let montant_initial :=
        if String.eqb type_marche "CLASSIQUE" then
          match get_tranches db code with
          | [] => montant_initial
          | trs => (montant_initial
                    + fold_left (fun acc t => acc + or_zero (tr_montant t)) trs 0)%Q
          end
        else montant_initial in
      fold_left (fun acc a => (acc + montant_avenant_signe a)%Q)
        (get_avenants db code) montant_initial
  end.

(** *** What the specification speaks of *)

(** The contract is of the classic kind (the kind by default). *)
Definition classique (m : MarcheRec) : bool :=
  match type_marche m with
  | Some t => String.eqb t "" || String.eqb t "CLASSIQUE"
  | None => true
  end.

(** The resolved total of a contract of the store: its manual base amount,
    plus the signed amounts of its amendments, plus, for a classic
    contract, the amounts of its tranches. *)
Definition montant_total_attendu (db : Database) (code : string) : Q :=
  match get_marche db code with
  | None => 0%Q
  | Some m =>
      (or_zero (montant_initial_manuel m)
       + Pd.sum (map montant_avenant_signe
                  (filter (fun a => String.eqb (av_code_marche a) code)
                     (avenants db)))
       + (if classique m
          then Pd.sum (map (fun t => or_zero (tr_montant t))
                         (filter (fun t => String.eqb (tr_code_marche t) code)
                            (tranches db)))
          else 0))%Q
  end.

End Db.

(** ** FinancialAggregator: [MarchesAnalyzer] *)

Module Analyzer.

(** One line of [df_marches], by the columns the analyzer reads.  Every
    line of [df_marches] carries a contract code. *)
Record Row : Type := {
  marche : string;
  fournisseur : Cell;
  libelle : Cell;
  date_sf : Cell;
  num_facture : Cell;
  montant_initial : Cell;
  montant_sf : Cell;
  montant_ttc : Cell;
  num_mandat : Cell;
  tranche : Cell;
  commande : Cell
}.

Inductive Statut : Type := Paye | ServiceFait | Facturee | EnAttente.

(** One entry of [get_vision_globale]. *)
Record MarcheView : Type := {
  v_marche : string;
  v_operation : string;
  v_libelle_marche : Cell;
  v_fournisseur : Cell;
  v_montant_initial_marche : Q;
  v_service_fait_cumule : Q;
  v_paye_cumule : Q;
  v_reste_a_realiser : Q;
  v_reste_a_mandater : Q;
  v_pourcent_consomme : Q;
  v_nb_avenants : Z;
  v_montant_excel : Q
}.

(** One entry of [get_historique_factures]. *)
Record HistoryRow : Type := {
  h_marche : string;
  h_fournisseur : string;
  h_date_sf : string;
  h_num_facture : string;
  h_libelle : string;
  h_montant_sf : Q;
  h_montant_ttc : Q;
  h_num_mandat : string;
  h_statut : Statut
}.

(** The threshold [0.01] below which an amount is read as nil. *)
Definition epsilon : Q := 1 # 100.

Section WithRuntime.
Variable rt : Runtime.

(** The analyzer's state: the override store, when one is attached, and
    the loaded lines. *)
Variable db : option Db.Database.
Variable df_marches : list Row.

(** The mask of the lines of one (marché, tranche) pair. *)
Definition mask_tranche (marche_ : string) (tranche_ : Cell) : list bool :=
  let mask := map (fun r => String.eqb (marche r) marche_) df_marches in
  if Pd.isna tranche_
  then Pd.mask_and mask (map (fun r => Pd.isna (tranche r)) df_marches)
  else Pd.mask_and mask (map (fun r => Pd.eq (tranche r) tranche_) df_marches).

(** The first part of [calculate_montant_initial_tranche]: the amount the
    override store gives, when it gives one. *)
Definition montant_tranche_db (d : Db.Database) (marche_ : string)
  (tranche_ : Cell) : option Q :=
  let tranche_num :=
    match tranche_ with
    | CNaN => None
    | CNum q => Some q
    | CStr s => match py_float rt s with Ok q => Some q | Raise _ => None end
    end in
  if Pd.isna tranche_
     || match tranche_num with Some n => Qeq_bool n 0 | None => false end
  then
    match Db.get_marche d marche_ with
    | Some marche_record =>
        if Db.truthy (Db.montant_initial_manuel marche_record)
        then Db.montant_initial_manuel marche_record
        else None
    | None => None
    end
  else
    let code_tranche :=
      match tranche_num with
      | Some n => ("TO" ++ PyStr.of_Z (PyStr.int_of n))%string
      | None => Pd.str rt tranche_
      end in
    match Db.fetch_tranche d marche_ code_tranche with
    | Some row =>
        if Db.truthy (Db.tr_montant row) then Db.tr_montant row else None
    | None => None
    end.

(** The fallback of [calculate_montant_initial_tranche]: the amount read
    from the lines. *)
Definition montant_tranche_excel (marche_ : string) (tranche_ : Cell) : Q :=
  let mask := mask_tranche marche_ tranche_ in
  let df_tranche := Pd.select mask df_marches in
  match df_tranche with
  | [] => 0%Q
  | _ =>
      let montants := map montant_initial df_tranche in
      let montants := map (Pd.to_numeric_fillna rt) montants in
      let montants := filter (fun m => negb (Qle_bool m epsilon)) montants in
      let montants_uniques := Pd.unique Qeq_bool montants in
      Pd.sum montants_uniques
  end.

(** The amount of the override store, when a store is attached and holds
    one for the pair. *)
Definition montant_tranche_override (marche_ : string) (tranche_ : Cell)
  : option Q :=
  match db with
  | Some d => montant_tranche_db d marche_ tranche_
  | None => None
  end.

Definition calculate_montant_initial_tranche (marche_ : string)
  (tranche_ : Cell) : Q :=
  match montant_tranche_override marche_ tranche_ with
  | Some montant => montant
  | None => montant_tranche_excel marche_ tranche_
  end.

Definition calculate_service_fait_tranche (marche_ : string)
  (tranche_ : Cell) : Q :=
  let mask := mask_tranche marche_ tranche_ in
  let df_tranche := Pd.select mask df_marches in
  match df_tranche with
  | [] => 0%Q
  | _ => Pd.sum (map (Pd.to_numeric_fillna rt) (map montant_sf df_tranche))
  end.

Definition calculate_paye_tranche (marche_ : string) (tranche_ : Cell) : Q :=
  let mask := mask_tranche marche_ tranche_ in
  let mask := Pd.mask_and mask (map (fun r => Pd.notna (num_mandat r)) df_marches) in
  let mask := Pd.mask_and mask (map (fun r => Pd.ne_empty (num_mandat r)) df_marches) in
  let df_tranche := Pd.select mask df_marches in
  match df_tranche with
  | [] => 0%Q
  | _ => Pd.sum (map (Pd.to_numeric_fillna rt) (map montant_ttc df_tranche))
  end.

(** [col.iloc[0] if len(col) > 0 else ""] *)
Definition first_or_empty (col : list Cell) : Cell :=
  match col with
  | c :: _ => c
  | [] => CStr ""
  end.

(** The body of the loop of [get_vision_globale], for one marché. *)
Definition vision_marche (marche_ : string) : MarcheView :=
  let df_marche :=
    Pd.select (map (fun r => String.eqb (marche r) marche_) df_marches)
      df_marches in
  let fournisseur_ := first_or_empty (Pd.dropna (map fournisseur df_marche)) in
  let libelle_ := first_or_empty (Pd.dropna (map libelle df_marche)) in
  let '(montant_initial_marche, nb_avenants) :=
    match db with
    | Some d =>
        let montant_bd := Db.get_montant_total_marche d marche_ in
        if negb (Qle_bool montant_bd 0)
        then (montant_bd, Z.of_nat (List.length (Db.get_avenants d marche_)))
        else (0%Q, 0)
    | None => (0%Q, 0)
    end in
  let '(montant_initial_marche, montant_excel) :=
    if Qeq_bool montant_initial_marche 0 then
      let tranches := Pd.unique Pd.same (map tranche df_marche) in
      let montant_excel :=
        fold_left Qplus
          (map (calculate_montant_initial_tranche marche_) tranches) 0%Q in
      (montant_excel, montant_excel)
    else (montant_initial_marche, 0%Q) in
  let service_fait_cumule :=
    Pd.sum (map (Pd.to_numeric_fillna rt) (map montant_sf df_marche)) in
  let df_mandates :=
    Pd.select
      (Pd.mask_and (map (fun r => Pd.notna (num_mandat r)) df_marche)
                   (map (fun r => Pd.ne_empty (num_mandat r)) df_marche))
      df_marche in
  let paye_cumule :=
    Pd.sum (map (Pd.to_numeric_fillna rt) (map montant_ttc df_mandates)) in
  let reste_a_realiser := (montant_initial_marche - service_fait_cumule)%Q in
  let reste_a_mandater := (service_fait_cumule - paye_cumule)%Q in
  let pourcent_consomme :=
    if negb (Qle_bool montant_initial_marche 0)
    then (service_fait_cumule / montant_initial_marche * 100)%Q
    else 0%Q in
  {| v_marche := marche_;
     v_operation := extract_operation marche_;
     v_libelle_marche := libelle_;
     v_fournisseur := fournisseur_;
     v_montant_initial_marche := montant_initial_marche;
     v_service_fait_cumule := service_fait_cumule;
     v_paye_cumule := paye_cumule;
     v_reste_a_realiser := reste_a_realiser;
     v_reste_a_mandater := reste_a_mandater;
     v_pourcent_consomme := pourcent_consomme;
     v_nb_avenants := nb_avenants;
     v_montant_excel := montant_excel |}.

Definition get_vision_globale : list MarcheView :=
  match df_marches with
  | [] => []
  | _ =>
      let marches_uniques := Pd.unique String.eqb (map marche df_marches) in
      let results := map vision_marche marches_uniques in
      stable_sort (fun x y => String.leb (v_marche x) (v_marche y)) results
  end.

(** [float(x) if pd.notna(x) else 0.0], any exception giving [0.0]. *)
Definition float_or_zero (c : Cell) : Q :=
  match c with
  | CNaN => 0%Q
  | CNum q => q
  | CStr s => match py_float rt s with Ok q => q | Raise _ => 0%Q end
  end.

(** [pd.notna(x) and str(x).strip() != ''] *)
Definition renseigne (c : Cell) : bool :=
  Pd.notna c && negb (String.eqb (PyStr.strip (Pd.str rt c)) "").

(** [str(x) if pd.notna(x) else ""] *)
Definition str_or_empty (c : Cell) : string :=
  if Pd.notna c then Pd.str rt c else "".

(** The history entry of one line. *)
Definition historique_ligne (row : Row) : HistoryRow :=
  let montant_sf_ := float_or_zero (montant_sf row) in
  let montant_ttc_ := float_or_zero (montant_ttc row) in
  let date_sf_str :=
    match date_sf row with
    | CNaN => ""
    | CStr s => s
    | CNum q => Pd.str rt (CNum q)
    end in
  let has_mandat := renseigne (num_mandat row) in
  let has_facture := renseigne (num_facture row) in
  let has_sf := negb (Qle_bool montant_sf_ epsilon) in
  let statut :=
    if has_mandat then Paye
    else if has_sf then ServiceFait
    else if has_facture then Facturee
    else EnAttente in
  {| h_marche := marche row;
     h_fournisseur := str_or_empty (fournisseur row);
     h_date_sf := date_sf_str;
     h_num_facture := str_or_empty (num_facture row);
     h_libelle := str_or_empty (libelle row);
     h_montant_sf := montant_sf_;
     h_montant_ttc := montant_ttc_;
     h_num_mandat := str_or_empty (num_mandat row);
     h_statut := statut |}.

(** Python's order on the sort key [(x['marche'], x['date_sf'])]. *)
Definition key_le (x y : HistoryRow) : bool :=
  match String.compare (h_marche x) (h_marche y) with
  | Lt => true
  | Gt => false
  | Eq => String.leb (h_date_sf x) (h_date_sf y)
  end.

Definition get_historique_factures (marche_ : option string)
  : list HistoryRow :=
  match df_marches with
  | [] => []
  | _ =>
      let df_filtered :=
        match marche_ with
        | None | Some "" => df_marches
        | Some m =>
            Pd.select (map (fun r => String.eqb (marche r) m) df_marches)
              df_marches
        end in
      let results := map historique_ligne df_filtered in
      (* results.sort(key=..., reverse=True) *)
      stable_sort (fun x y => key_le y x) results
  end.

End WithRuntime.

(** *** What the specification speaks of *)

(** The line belongs to the (marché, tranche) pair: same contract code,
    and the same tranche, a missing tranche matching the missing tranche. *)
Definition in_tranche (marche_ : string) (tranche_ : Cell) (r : Row) : bool :=
  String.eqb (marche r) marche_
  && (if Pd.isna tranche_ then Pd.isna (tranche r)
      else Pd.eq (tranche r) tranche_).

(** The line carries a mandate reference: neither missing nor the empty
    text. *)
Definition mandat_renseigne (r : Row) : bool :=
  match num_mandat r with
  | CNaN => false
  | CStr "" => false
  | _ => true
  end.

(** The distinct tranches seen on the lines of a contract. *)
Definition tranches_vues (df : list Row) (marche_ : string) : list Cell :=
  Pd.unique Pd.same
    (map tranche (filter (fun r => String.eqb (marche r) marche_) df)).

(** History entries in the order of the sort: contract code descending,
    and within a contract the text of the date descending. *)
Definition precedes (x y : HistoryRow) : Prop :=
  String.ltb (h_marche y) (h_marche x) = true
  \/ (h_marche x = h_marche y
      /\ String.leb (h_date_sf y) (h_date_sf x) = true).

(** The lines [get_historique_factures] reports on. *)
Definition lignes_retenues (df : list Row) (marche_ : option string)
  : list Row :=
  match marche_ with
  | None | Some "" => df
  | Some m => filter (fun r => String.eqb (marche r) m) df
  end.

End Analyzer.

(** ** SyncStore: [MarchesSync] *)

Module Sync.

(** A row of the table [lignes_factures] (the two timestamp columns, which
    SQLite fills and nothing reads, are left out). *)
Record Ligne : Type := {
  id : Z;
  hash_ligne : string;
  marche : option string;
  fournisseur : option string;
  libelle : option string;
  date_sf : option string;
  num_facture : option string;
  montant_initial : Q;
  montant_sf : Q;
  montant_ttc : Q;
  num_mandat : option string;
  tranche : option string;
  commande : option string
}.

(** The outcome recorded in [sync_message]:
    ["Sync OK: {nb_inserted} insérées, {nb_deleted} supprimées,
      {nb_unchanged} inchangées"]. *)
Inductive SyncMessage : Type :=
| SyncOK (nb_inserted nb_deleted nb_unchanged : Z).

(** A row of the table [sync_info]. *)
Record SyncInfo : Type := {
  si_id : Z;
  fichier_path : string;
  last_modified : Q;
  file_size : Z;
  file_hash : string;
  last_sync : Q;
  nb_lignes : Z;
  sync_status : string;
  sync_message : SyncMessage
}.

(** The two tables, with the AUTOINCREMENT counter of [lignes_factures]. *)
Record Tables : Type := {
  lignes_factures : list Ligne;
  seq_lignes : Z;
  sync_info : list SyncInfo
}.

(** A connection: the tables as its open transaction sees them, and the
    tables as last committed. *)
Record Conn : Type := {
  work : Tables;
  disk : Tables
}.

(** The reasons [file_needs_sync] gives:
    - [FichierIntrouvable]: "Fichier introuvable"
    - [PremiereSynchronisation]: "Première synchronisation"
    - [TailleChangee a b]: "Taille du fichier changée (a → b octets)"
    - [BaseVide]: "Base vide"
    - [ContenuModifie]: "Contenu du fichier modifié"
    - [InchangeContenuIdentique]:
      "Fichier inchangé (date modifiée mais contenu identique)"
    - [Inchange]: "Fichier inchangé" *)
Inductive Reason : Type :=
| FichierIntrouvable
| PremiereSynchronisation
| TailleChangee (last_size file_size : Z)
| BaseVide
| ContenuModifie
| InchangeContenuIdentique
| Inchange.

(** [stats['message']]: a reason, or the text of an exception. *)
Inductive Message : Type :=
| MsgReason (r : Reason)
| MsgException (text : string).

(** The dictionary [stats] ([duration], a wall-clock reading, is left out). *)
Record Stats : Type := {
  nb_inserted : Z;
  nb_updated : Z;
  nb_unchanged : Z;
  nb_deleted : Z;
  status : string;
  message : option Message
}.

(** A file as [os.stat] and [open] show it; [content] is [None] when it
    cannot be read. *)
Record FileStat : Type := {
  st_size : Z;
  st_mtime : Q;
  content : option string
}.

(** The SQL statements of [sync_from_excel], in the order it issues them. *)
Inductive Op : Type :=
| SelectSyncInfo
| SelectHashes
| InsertLignes
| DeleteLignes
| InsertSyncInfo
| Commit.

(** What surrounds a call: the file system, the clock, and the statements
    on which SQLite raises (with the text of the exception). *)
Record Env : Type := {
  os_stat : string -> option FileStat;
  now : Q;
  fault : Op -> option string
}.

(** A row of the incoming DataFrame: a pandas Series, labels and values. *)
Definition Series : Type := list (string * Cell).

(** What the body of [sync_from_excel] threads: the connection and the
    dictionary [stats]. *)
Record State : Type := {
  conn : Conn;
  stats : Stats
}.

(** Computations that read and write the state and may raise. *)
Definition M (A : Type) : Type := State -> State * result A.

Definition ret {A : Type} (a : A) : M A := fun s => (s, Ok a).

Definition bind {A B : Type} (m : M A) (k : A -> M B) : M B :=
  fun s =>
    match m s with
    | (s', Ok a) => k a s'
    | (s', Raise msg) => (s', Raise msg)
    end.

Notation "x <- m ;; k" := (bind m (fun x => k))
  (at level 61, m at next level, right associativity).
Notation "m ;;; k" := (bind m (fun _ => k))
  (at level 61, right associativity).

Definition lift {A : Type} (r : result A) : M A := fun s => (s, r).

Definition update_stats (f : Stats -> Stats) : M unit :=
  fun s => ({| conn := conn s; stats := f (stats s) |}, Ok tt).

Definition get_stats : M Stats := fun s => (s, Ok (stats s)).

Definition set_nb_inserted (n : Z) (st : Stats) : Stats :=
  {| nb_inserted := n; nb_updated := nb_updated st;
     nb_unchanged := nb_unchanged st; nb_deleted := nb_deleted st;
     status := status st; message := message st |}.

Definition set_nb_deleted (n : Z) (st : Stats) : Stats :=
  {| nb_inserted := nb_inserted st; nb_updated := nb_updated st;
     nb_unchanged := nb_unchanged st; nb_deleted := n;
     status := status st; message := message st |}.

(** [stats['nb_unchanged'] += k] *)
Definition add_nb_unchanged (k : Z) (st : Stats) : Stats :=
  {| nb_inserted := nb_inserted st; nb_updated := nb_updated st;
     nb_unchanged := nb_unchanged st + k; nb_deleted := nb_deleted st;
     status := status st; message := message st |}.

Definition set_status (s : string) (m : Message) (st : Stats) : Stats :=
  {| nb_inserted := nb_inserted st; nb_updated := nb_updated st;
     nb_unchanged := nb_unchanged st; nb_deleted := nb_deleted st;
     status := s; message := Some m |}.

Definition initial_stats : Stats :=
  {| nb_inserted := 0; nb_updated := 0; nb_unchanged := 0; nb_deleted := 0;
     status := "success"; message := None |}.

(** [self.conn.rollback()] *)
Definition rollback (c : Conn) : Conn := {| work := disk c; disk := disk c |}.

(** *** The statements, on the tables *)

(** [SELECT ... FROM sync_info WHERE fichier_path = ? ORDER BY id DESC
    LIMIT 1] *)
Definition fetch_last_sync (t : Tables) (filepath : string) : option SyncInfo :=
  fold_left
    (fun best r =>
       if String.eqb (fichier_path r) filepath then
         match best with
         | Some b => if si_id b <? si_id r then Some r else best
         | None => Some r
         end
       else best)
    (sync_info t) None.

(** [set(row[0] for row in cursor.fetchall())] *)
Definition select_hashes (t : Tables) : set string :=
  fold_left (fun acc l => set_add string_dec (hash_ligne l) acc)
    (lignes_factures t) (empty_set string).

(** One [INSERT OR REPLACE INTO lignes_factures]: a row of the same
    [hash_ligne] gives way, and the new row takes the next id. *)
Definition insert_or_replace (t : Tables) (row_data : Ligne) : Tables :=
  let new_id := seq_lignes t + 1 in
  {| lignes_factures :=
       filter (fun l => negb (String.eqb (hash_ligne l) (hash_ligne row_data)))
         (lignes_factures t)
       ++ [ {| id := new_id;
               hash_ligne := hash_ligne row_data;
               marche := marche row_data;
               fournisseur := fournisseur row_data;
               libelle := libelle row_data;
               date_sf := date_sf row_data;
               num_facture := num_facture row_data;
               montant_initial := montant_initial row_data;
               montant_sf := montant_sf row_data;
               montant_ttc := montant_ttc row_data;
               num_mandat := num_mandat row_data;
               tranche := tranche row_data;
               commande := commande row_data |} ];
     seq_lignes := new_id;
     sync_info := sync_info t |}.

(** [DELETE FROM lignes_factures WHERE hash_ligne IN (...)] *)
Definition delete_hashes (hashes : set string) (t : Tables) : Tables :=
  {| lignes_factures :=
       filter (fun l => negb (set_mem string_dec (hash_ligne l) hashes))
         (lignes_factures t);
     seq_lignes := seq_lignes t;
     sync_info := sync_info t |}.

(** [INSERT INTO sync_info]: the row takes the id after the greatest. *)
Definition insert_sync_info (r : SyncInfo) (t : Tables) : Tables :=
  let new_id := fold_left (fun m x => Z.max m (si_id x)) (sync_info t) 0 + 1 in
  {| lignes_factures := lignes_factures t;
     seq_lignes := seq_lignes t;
     sync_info :=
       sync_info t
       ++ [ {| si_id := new_id;
               fichier_path := fichier_path r;
               last_modified := last_modified r;
               file_size := file_size r;
               file_hash := file_hash r;
               last_sync := last_sync r;
               nb_lignes := nb_lignes r;
               sync_status := sync_status r;
               sync_message := sync_message r |} ] |}.

(** The hashes the table [lignes_factures] holds. *)
Definition stored_hashes (t : Tables) : list string :=
  map hash_ligne (lignes_factures t).

Section WithEnv.
Variable rt : Runtime.
Variable env : Env.

(** One statement on the connection: it raises if SQLite does, and acts on
    the open transaction otherwise. *)
Definition execute {A : Type} (op : Op) (run : Tables -> Tables * A) : M A :=
  fun s =>
    match fault env op with
    | Some msg => (s, Raise msg)
    | None =>
        let '(t, a) := run (work (conn s)) in
        ({| conn := {| work := t; disk := disk (conn s) |};
            stats := stats s |}, Ok a)
    end.

(** [self.conn.commit()] *)
Definition commit : M unit :=
  fun s =>
    match fault env Commit with
    | Some msg => (s, Raise msg)
    | None =>
        ({| conn := {| work := work (conn s); disk := work (conn s) |};
            stats := stats s |}, Ok tt)
    end.

Definition _calculate_file_hash (f : FileStat) : string :=
  match content f with
  | Some data => md5_hexdigest rt data
  | None => ""
  end.

Definition _calculate_row_hash (row : Series) : string :=
  let row_str := PyStr.join "|" (map (fun v => Pd.str rt v) (map snd row)) in
  md5_hexdigest rt (PyStr.encode row_str).

(** What [file_needs_sync] answers for an existing file, once the last
    [sync_info] row of the path is fetched. *)
Definition verdict (file_stat : FileStat) (result : option SyncInfo)
  : bool * Reason :=
  let file_size_ := st_size file_stat in
  let file_mtime := st_mtime file_stat in
  match result with
  | None => (true, PremiereSynchronisation)
  | Some last =>
      if negb (file_size_ =? file_size last)
      then (true, TailleChangee (file_size last) file_size_)
      else if nb_lignes last =? 0 then (true, BaseVide)
      else if negb (Qle_bool (Qabs (file_mtime - last_modified last)) 1)
      then
        let current_hash := _calculate_file_hash file_stat in
        if negb (String.eqb current_hash (file_hash last))
        then (true, ContenuModifie)
        else (false, InchangeContenuIdentique)
      else (false, Inchange)
  end.

Definition file_needs_sync (filepath : string) : M (bool * Reason) :=
  match os_stat env filepath with
  | None => ret (true, FichierIntrouvable)
  | Some file_stat =>
      result <- execute SelectSyncInfo
                  (fun t => (t, fetch_last_sync t filepath)) ;;
      ret (verdict file_stat result)
  end.

(** [row.get(key)] *)
Definition get (row : Series) (key : string) : option Cell :=
  match find (fun kv => String.eqb (fst kv) key) row with
  | Some kv => Some (snd kv)
  | None => None
  end.

(** [str(row.get(key, '')) if pd.notna(row.get(key)) else None] *)
Definition text_field (row : Series) (key : string) : option string :=
  match get row key with
  | Some c => if Pd.notna c then Some (Pd.str rt c) else None
  | None => None
  end.

(** [float(row.get(key, 0)) if pd.notna(row.get(key)) else 0.0] *)
Definition real_field (row : Series) (key : string) : result Q :=
  match get row key with
  | Some (CNum q) => Ok q
  | Some (CStr s) => py_float rt s
  | Some CNaN | None => Ok 0%Q
  end.

(** The dictionary [row_data] of one incoming row. *)
Definition row_data (row_hash : string) (row : Series) : result Ligne :=
  match real_field row "montant_initial" with
  | Raise msg => Raise msg
  | Ok mi =>
      match real_field row "montant_sf" with
      | Raise msg => Raise msg
      | Ok msf =>
          match real_field row "montant_ttc" with
          | Raise msg => Raise msg
          | Ok mttc =>
              Ok {| id := 0;
                    hash_ligne := row_hash;
                    marche := text_field row "marche";
                    fournisseur := text_field row "fournisseur";
                    libelle := text_field row "libelle";
                    date_sf := text_field row "date_sf";
                    num_facture := text_field row "num_facture";
                    montant_initial := mi;
                    montant_sf := msf;
                    montant_ttc := mttc;
                    num_mandat := text_field row "num_mandat";
                    tranche := text_field row "tranche";
                    commande := text_field row "commande" |}
          end
      end
  end.

(** The loop over [df.iterrows()]: it gathers [new_hashes] and
    [rows_to_insert], and counts the unchanged rows in [stats]. *)
Fixpoint scan_rows (existing_hashes : set string) (df : list Series)
  (new_hashes : set string) (rows_to_insert : list Ligne)
  : M (set string * list Ligne) :=
  match df with
  | [] => ret (new_hashes, rows_to_insert)
  | row :: rest =>
      let row_hash := _calculate_row_hash row in
      let new_hashes := set_add string_dec row_hash new_hashes in
      data <- lift (row_data row_hash row) ;;
      if set_mem string_dec row_hash existing_hashes then
        update_stats (add_nb_unchanged 1) ;;;
        scan_rows existing_hashes rest new_hashes rows_to_insert
      else
        scan_rows existing_hashes rest new_hashes (rows_to_insert ++ [data])
  end.

(** The row [sync_from_excel] adds to [sync_info]; a path that names no
    file stands for a synchronisation from the database. *)
Definition sync_info_row (filepath : string) (df : list Series) (st : Stats)
  : SyncInfo :=
  let '(file_mtime, file_size_, file_hash_) :=
    match os_stat env filepath with
    | Some file_stat =>
        (st_mtime file_stat, st_size file_stat, _calculate_file_hash file_stat)
    | None => (now env, 0, "database_sync")
    end in
  {| si_id := 0;
     fichier_path := filepath;
     last_modified := file_mtime;
     file_size := file_size_;
     file_hash := file_hash_;
     last_sync := now env;
     nb_lignes := Z.of_nat (List.length df);
     sync_status := "success";
     sync_message :=
       SyncOK (nb_inserted st) (nb_deleted st) (nb_unchanged st) |}.

(** The body of the [try] of [sync_from_excel], past the test that skips
    an unchanged file. *)
Definition sync_changes (filepath : string) (df : list Series) : M unit :=
  existing_hashes <- execute SelectHashes (fun t => (t, select_hashes t)) ;;
  scanned <- scan_rows existing_hashes df (empty_set string) [] ;;
  let new_hashes := fst scanned in
  let rows_to_insert := snd scanned in
  match rows_to_insert with
  | [] => ret tt
  | _ =>
      execute InsertLignes
        (fun t => (fold_left insert_or_replace rows_to_insert t, tt)) ;;;
      update_stats (set_nb_inserted (Z.of_nat (List.length rows_to_insert)))
  end ;;;
  let hashes_to_delete := set_diff string_dec existing_hashes new_hashes in
  match hashes_to_delete with
  | [] => ret tt
  | _ =>
      execute DeleteLignes (fun t => (delete_hashes hashes_to_delete t, tt)) ;;;
      update_stats (set_nb_deleted (Z.of_nat (List.length hashes_to_delete)))
  end ;;;
  st <- get_stats ;;
  execute InsertSyncInfo
    (fun t => (insert_sync_info (sync_info_row filepath df st) t, tt)) ;;;
  commit.

(** The body of the [try] of [sync_from_excel]. *)
Definition sync_body (filepath : string) (df : list Series) (force : bool)
  : M unit :=
  skipped <-
    (if negb force then
       r <- file_needs_sync filepath ;;
       if negb (fst r)
       then update_stats (set_status "skipped" (MsgReason (snd r))) ;;; ret true
       else ret false
     else ret false) ;;
  if (skipped : bool) then ret tt else sync_changes filepath df.

(** [sync_from_excel]: the body, and the [except] clause that rolls the
    transaction back. *)
Definition sync_from_excel (filepath : string) (df : list Series)
  (force : bool) (c : Conn) : Conn * Stats :=
  match sync_body filepath df force {| conn := c; stats := initial_stats |} with
  | (s, Ok _) => (conn s, stats s)
  | (s, Raise msg) =>
      (rollback (conn s), set_status "error" (MsgException msg) (stats s))
  end.

End WithEnv.

End Sync.

(** ** A runtime for closed examples

    The digest is the MD5 of RFC 1321.  Texts are read as numbers when
    they are plain runs of decimal digits, and whole numbers are written
    as Python writes small whole floats; the examples use nothing else. *)

Module Sample.

Fixpoint read_digits (s : string) (acc : Z) : option Z :=
  match s with
  | EmptyString => Some acc
  | String c r =>
      let n := Z.of_N (N_of_ascii c) in
      if (48 <=? n) && (n <=? 57) then read_digits r (10 * acc + (n - 48))
      else None
  end.

Definition read_number (s : string) : option Q :=
  match PyStr.strip s with
  | EmptyString => None
  | t => match read_digits t 0 with
         | Some n => Some (inject_Z n)
         | None => None
         end
  end.

Definition runtime : Runtime :=
  {| str_float := fun q =>
       let r := Qred q in
       if (Zpos (Qden r) =? 1)
       then (PyStr.of_Z (Qnum r) ++ ".0")%string
       else (PyStr.of_Z (Qnum r) ++ "/" ++ PyStr.of_Z (Zpos (Qden r)))%string;
     py_float := fun s =>
       match read_number s with
       | Some q => Ok q
       | None => Raise ("could not convert string to float: '" ++ s ++ "'")%string
       end;
     to_numeric_text := read_number;
     md5_hexdigest := MD5.hexdigest |}.

(** A row of the Series the loader builds, by its eleven columns. *)
Definition series (marche fournisseur libelle date_sf num_facture : Cell)
  (montant_initial montant_sf montant_ttc : Cell)
  (num_mandat tranche commande : Cell) : Sync.Series :=
  [ ("marche", marche); ("fournisseur", fournisseur); ("libelle", libelle);
    ("date_sf", date_sf); ("num_facture", num_facture);
    ("montant_initial", montant_initial); ("montant_sf", montant_sf);
    ("montant_ttc", montant_ttc); ("num_mandat", num_mandat);
    ("tranche", tranche); ("commande", commande) ].

(** A line of [df_marches] with only the columns of interest filled. *)
Definition row (marche : string) (tranche montant_initial montant_sf
  montant_ttc num_mandat date_sf : Cell) : Analyzer.Row :=
  {| Analyzer.marche := marche;
     Analyzer.fournisseur := CNaN;
     Analyzer.libelle := CNaN;
     Analyzer.date_sf := date_sf;
     Analyzer.num_facture := CNaN;
     Analyzer.montant_initial := montant_initial;
     Analyzer.montant_sf := montant_sf;
     Analyzer.montant_ttc := montant_ttc;
     Analyzer.num_mandat := num_mandat;
     Analyzer.tranche := tranche;
     Analyzer.commande := CNaN |}.

(** Five lines of the firm tranche of one contract, with initial amounts
    100, 100, 100, 0 and 50. *)
Definition cinq_lignes : list Analyzer.Row :=
  map (fun q => row "2024_17_1" CNaN (CNum q) CNaN CNaN CNaN CNaN)
    [100; 100; 100; 0; 50]%Q.

(** One line whose initial amount is half a cent. *)
Definition ligne_demi_centime : list Analyzer.Row :=
  [ row "2024_17_1" CNaN (CNum (1 # 200)) CNaN CNaN CNaN CNaN ].




(** Two lines, of contracts 2024_01 and 2025_02 in that order. *)
Definition deux_marches : list Analyzer.Row :=
  [ row "2024_01" CNaN CNaN CNaN CNaN CNaN (CStr "2024-03-01 00:00:00");
    row "2025_02" CNaN CNaN CNaN CNaN CNaN (CStr "2025-01-15 00:00:00") ].

Definition empty_tables : Sync.Tables :=
  {| Sync.lignes_factures := []; Sync.seq_lignes := 0; Sync.sync_info := [] |}.

Definition fresh : Sync.Conn :=
  {| Sync.work := empty_tables; Sync.disk := empty_tables |}.

(** The cache after a synchronisation of three rows from a file of three
    bytes, "abc", last modified at time 100. *)
Definition snapshot_abc : Sync.SyncInfo :=
  {| Sync.si_id := 1;
     Sync.fichier_path := "factures.xlsx";
     Sync.last_modified := 100%Q;
     Sync.file_size := 3;
     Sync.file_hash := "900150983cd24fb0d6963f7d28e17f72";
     Sync.last_sync := 101%Q;
     Sync.nb_lignes := 3;
     Sync.sync_status := "success";
     Sync.sync_message := Sync.SyncOK 3 0 0 |}.

Definition tables_abc : Sync.Tables :=
  {| Sync.lignes_factures := [];
     Sync.seq_lignes := 3;
     Sync.sync_info := [ snapshot_abc ] |}.

Definition state_abc : Sync.State :=
  {| Sync.conn := {| Sync.work := tables_abc; Sync.disk := tables_abc |};
     Sync.stats := Sync.initial_stats |}.

(** The file rewritten to "abd" with its modification time kept. *)
Definition file_abd : Sync.FileStat :=
  {| Sync.st_size := 3; Sync.st_mtime := 100%Q; Sync.content := Some "abd" |}.

(** No statement raises. *)
Definition no_fault : Sync.Op -> option string := fun _ => None.

(** A file system holding one readable file. *)
Definition one_file (path : string) (f : Sync.FileStat)
  : string -> option Sync.FileStat :=
  fun p => if String.eqb p path then Some f else None.

(** An incoming row: contract, supplier and initial amount. *)
Definition ligne_import (marche : string) : Sync.Series :=
  series (CStr marche) (CStr "ACME") CNaN CNaN CNaN (CNum 100%Q) CNaN CNaN
    CNaN CNaN CNaN.

(** The export as a file of three bytes, a quiet database. *)
Definition env_abc : Sync.Env :=
  {| Sync.os_stat :=
       one_file "factures.xlsx"
         {| Sync.st_size := 3; Sync.st_mtime := 100%Q;
            Sync.content := Some "abc" |};
     Sync.now := 200%Q;
     Sync.fault := no_fault |}.

(** The same, where the [COMMIT] raises. *)
Definition env_panne : Sync.Env :=
  {| Sync.os_stat := Sync.os_stat env_abc;
     Sync.now := 200%Q;
     Sync.fault := fun op =>
       match op with
       | Sync.Commit => Some "disk I/O error"
       | _ => None
       end |}.

(** The cache after the rows of contracts A, B and C were imported. *)
Definition cache_abc : Sync.Conn :=
  fst (Sync.sync_from_excel runtime env_abc "factures.xlsx"
         [ligne_import "A"; ligne_import "B"; ligne_import "C"] false fresh).


(** The file rewritten to "abd", a quiet database, the clock at 200. *)
Definition env_abd : Sync.Env :=
  {| Sync.os_stat := one_file "factures.xlsx" file_abd;
     Sync.now := 200%Q;
     Sync.fault := no_fault |}.

End Sample.

(** Two cell values name the same tranche. *)
Definition same_tranche (a b : Cell) : Prop := Pd.same a b = true.

(** ** FinancialAggregator, continued: operations and exercices *)

Module Operations.

(** The entry of one operation in [operations_dict]. *)
Record OperationData : Type := {
  d_operation : string;
  d_marches : list string;
  d_libelles : list Cell;
  d_fournisseurs : list Cell;
  d_montant_initial_total : Q;
  d_service_fait_total : Q;
  d_paye_total : Q;
  d_nb_avenants_total : Z
}.

(** One entry of [get_vision_operations]. *)
Record OperationView : Type := {
  operation : string;
  nb_lots : Z;
  marches : list string;
  libelle : string;
  fournisseur : string;
  montant_initial_total : Q;
  service_fait_total : Q;
  paye_total : Q;
  reste_a_realiser : Q;
  reste_a_mandater : Q;
  pourcent_consomme : Q;
  nb_avenants_total : Z
}.

(** Truth value of a cell value: the empty text and zero are false. *)
Definition truthy (c : Cell) : bool :=
  match c with
  | CNaN => true
  | CNum q => negb (Qeq_bool q 0)
  | CStr s => negb (String.eqb s "")
  end.

(** [x in l] on a list of cell values. *)
Definition cell_in (x : Cell) (l : list Cell) : bool := existsb (Pd.same x) l.

(** [sep.join(items)]: [None] stands for the [TypeError] raised on an item
    that is not a text. *)
Fixpoint texts (items : list Cell) : option (list string) :=
  match items with
  | [] => Some []
  | CStr s :: r =>
      match texts r with Some l => Some (s :: l) | None => None end
  | _ :: _ => None
  end.

(** The values [join] accepts. *)
Definition is_text (c : Cell) : bool :=
  match c with CStr _ => true | _ => false end.

Definition join_cells (sep : string) (items : list Cell) : option string :=
  match texts items with
  | Some l => Some (PyStr.join sep l)
  | None => None
  end.

(** The entry created for an operation met for the first time. *)
Definition new_operation (operation_ : string) : OperationData :=
  {| d_operation := operation_;
     d_marches := [];
     d_libelles := [];
     d_fournisseurs := [];
     d_montant_initial_total := 0%Q;
     d_service_fait_total := 0%Q;
     d_paye_total := 0%Q;
     d_nb_avenants_total := 0 |}.

(** The body of the grouping loop, on the entry [op] of the operation. *)
Definition add_marche (op : OperationData) (marche_data : Analyzer.MarcheView)
  : OperationData :=
  let libelle_ := Analyzer.v_libelle_marche marche_data in
  let fournisseur_ := Analyzer.v_fournisseur marche_data in
  {| d_operation := d_operation op;
     d_marches := d_marches op ++ [Analyzer.v_marche marche_data];
     d_libelles :=
       if truthy libelle_ && negb (cell_in libelle_ (d_libelles op))
       then d_libelles op ++ [libelle_] else d_libelles op;
     d_fournisseurs :=
       if truthy fournisseur_ && negb (cell_in fournisseur_ (d_fournisseurs op))
       then d_fournisseurs op ++ [fournisseur_] else d_fournisseurs op;
     d_montant_initial_total :=
       (d_montant_initial_total op
        + Analyzer.v_montant_initial_marche marche_data)%Q;
     d_service_fait_total :=
       (d_service_fait_total op + Analyzer.v_service_fait_cumule marche_data)%Q;
     d_paye_total :=
       (d_paye_total op + Analyzer.v_paye_cumule marche_data)%Q;
     d_nb_avenants_total :=
       d_nb_avenants_total op + Analyzer.v_nb_avenants marche_data |}.

(** [operations_dict]: a dictionary in insertion order.  The entry of the
    operation is created at the end when missing, and updated in place. *)
Fixpoint group_marche (operation_ : string) (marche_data : Analyzer.MarcheView)
  (operations_dict : list OperationData) : list OperationData :=
  match operations_dict with
  | [] => [add_marche (new_operation operation_) marche_data]
  | op :: rest =>
      if String.eqb (d_operation op) operation_
      then add_marche op marche_data :: rest
      else op :: group_marche operation_ marche_data rest
  end.

Definition group_operations (vision_marches : list Analyzer.MarcheView)
  : list OperationData :=
  fold_left
    (fun operations_dict marche_data =>
       group_marche (extract_operation (Analyzer.v_marche marche_data))
         marche_data operations_dict)
    vision_marches [].

(** A value the loop appends to a list that [join] then refuses. *)
Definition refused (c : Cell) : bool := truthy c && negb (is_text c).

(** The entry holds a label or a supplier that [join] refuses. *)
Definition holds_refused (d : OperationData) : bool :=
  existsb (fun c => negb (is_text c)) (d_libelles d)
  || existsb (fun c => negb (is_text c)) (d_fournisseurs d).

(** The grouping loop, resumed from the dictionary [dict]. *)
Definition group_from (dict : list OperationData)
  (l : list Analyzer.MarcheView) : list OperationData :=
  fold_left
    (fun operations_dict marche_data =>
       group_marche (extract_operation (Analyzer.v_marche marche_data))
         marche_data operations_dict) l dict.

(** The result entry of one operation. *)
Definition operation_view (data : OperationData) : option OperationView :=
  let montant_initial := d_montant_initial_total data in
  let sf_total := d_service_fait_total data in
  let paye_total_ := d_paye_total data in
  let pourcent :=
    if negb (Qle_bool montant_initial 0)
    then (sf_total / montant_initial * 100)%Q else 0%Q in
  match
    match d_libelles data with [] => Some "" | l => join_cells " | " l end,
    match d_fournisseurs data with [] => Some "" | l => join_cells " | " l end
  with
  | Some libelle_combined, Some fournisseur_combined =>
      Some {| operation := d_operation data;
              nb_lots := Z.of_nat (List.length (d_marches data));
              marches := d_marches data;
              libelle := libelle_combined;
              fournisseur := fournisseur_combined;
              montant_initial_total := montant_initial;
              service_fait_total := sf_total;
              paye_total := paye_total_;
              reste_a_realiser := (montant_initial - sf_total)%Q;
              reste_a_mandater := (sf_total - paye_total_)%Q;
              pourcent_consomme := pourcent;
              nb_avenants_total := d_nb_avenants_total data |}
  | _, _ => None
  end.

(** [[f(x) for x in l]] where [f] may raise. *)
Fixpoint map_option {A B : Type} (f : A -> option B) (l : list A)
  : option (list B) :=
  match l with
  | [] => Some []
  | x :: r =>
      match f x with
      | Some y => match map_option f r with
                  | Some ys => Some (y :: ys)
                  | None => None
                  end
      | None => None
      end
  end.

(** [row.iloc[COL_COMMANDE] if not pd.isna(row.iloc[COL_COMMANDE]) else ""] *)
Definition num_commande_of (row : Analyzer.Row) : Cell :=
  if Pd.isna (Analyzer.commande row) then CStr "" else Analyzer.commande row.

(** [str.isdigit] on the first two characters of a text of two or more. *)
Definition two_digits (s : string) : bool :=
  PyStr.isdigit (PyStr.slice_to 2 s).

Section WithRuntime.
Variable rt : Runtime.
Variable db : option Db.Database.
Variable df_marches : list Analyzer.Row.

(** [get_vision_operations]; [None] when a label that is not a text makes
    [join] raise. *)
Definition get_vision_operations : option (list OperationView) :=
  match Analyzer.get_vision_globale rt db df_marches with
  | [] => Some []
  | vision_marches =>
      match map_option operation_view (group_operations vision_marches) with
      | Some results =>
          Some (stable_sort
                  (fun x y => String.leb (operation x) (operation y)) results)
      | None => None
      end
  end.

(** [extract_exercice_from_bdc] *)
Definition extract_exercice_from_bdc (num_commande : Cell) : string :=
  if negb (truthy num_commande) then "Inconnu"
  else
    let num_str := PyStr.strip (Pd.str rt num_commande) in
    if (PyStr.len num_str <? 2) || negb (two_digits num_str) then "Inconnu"
    else ("20" ++ PyStr.slice_to 2 num_str)%string.

(** The exercices met on the lines of one marché, added to the set. *)
Definition exercices_marche (marche_ : string) (exercices : set string)
  : set string :=
  fold_left
    (fun acc row =>
       let num_commande := num_commande_of row in
       set_add string_dec (extract_exercice_from_bdc num_commande) acc)
    (Pd.select (map (fun r => String.eqb (Analyzer.marche r) marche_) df_marches)
       df_marches)
    exercices.

(** [get_exercices_for_operation]; [None] when [get_vision_operations]
    raises. *)
Definition get_exercices_for_operation (code_operation : string)
  : option (list string) :=
  match get_vision_operations with
  | None => None
  | Some operations_data =>
      match find (fun op => String.eqb (operation op) code_operation)
              operations_data with
      | None => Some ["Tous"]
      | Some operation_info =>
          let exercices :=
            fold_left (fun acc m => exercices_marche m acc)
              (marches operation_info) (empty_set string) in
          Some ("Tous" :: stable_sort String.leb exercices)
      end
  end.

End WithRuntime.

End Operations.

(** ** SyncStore, continued: reading and clearing the cache *)

Module Cache.

(** SQLite's [ORDER BY] on a TEXT column: NULL first, then the texts in
    the order of their code points. *)
Definition compare_text (a b : option string) : comparison :=
  match a, b with
  | None, None => Eq
  | None, Some _ => Lt
  | Some _, None => Gt
  | Some x, Some y => String.compare x y
  end.

(** [ORDER BY marche, date_sf] *)
Definition order_marche_date (a b : Sync.Ligne) : bool :=
  match compare_text (Sync.marche a) (Sync.marche b) with
  | Lt => true
  | Gt => false
  | Eq =>
      match compare_text (Sync.date_sf a) (Sync.date_sf b) with
      | Gt => false
      | _ => true
      end
  end.

(** [load_to_dataframe]: the rows the query returns. *)
Definition load_to_dataframe (c : Sync.Conn) (marche_filter : option string)
  : list Sync.Ligne :=
  let rows :=
    match marche_filter with
    | None | Some "" => Sync.lignes_factures (Sync.work c)
    | Some m =>
        filter (fun l => match Sync.marche l with
                         | Some x => String.eqb x m
                         | None => false
                         end)
          (Sync.lignes_factures (Sync.work c))
    end in
  stable_sort order_marche_date rows.

(** The dictionary [get_sync_status] returns. *)
Record SyncStatus : Type := {
  last_sync : Q;
  nb_lignes : Z;
  sync_status : string;
  sync_message : Sync.SyncMessage
}.

Definition get_sync_status (c : Sync.Conn) (filepath : string)
  : option SyncStatus :=
  match Sync.fetch_last_sync (Sync.work c) filepath with
  | None => None
  | Some result =>
      Some {| last_sync := Sync.last_sync result;
              nb_lignes := Sync.nb_lignes result;
              sync_status := Sync.sync_status result;
              sync_message := Sync.sync_message result |}
  end.

(** The statements of [clear_cache]. *)
Inductive ClearOp : Type :=
| DeleteLignesFactures
| DeleteSyncInfo
| CommitClear.

(** [clear_cache]: two [DELETE] and a [COMMIT], with no [except] clause:
    an exception leaves the transaction open and goes to the caller. *)
Definition clear_cache (fault : ClearOp -> option string) (c : Sync.Conn)
  : Sync.Conn * result unit :=
  match fault DeleteLignesFactures with
  | Some msg => (c, Raise msg)
  | None =>
      let t1 := {| Sync.lignes_factures := [];
                   Sync.seq_lignes := Sync.seq_lignes (Sync.work c);
                   Sync.sync_info := Sync.sync_info (Sync.work c) |} in
      match fault DeleteSyncInfo with
      | Some msg => ({| Sync.work := t1; Sync.disk := Sync.disk c |}, Raise msg)
      | None =>
          let t2 := {| Sync.lignes_factures := [];
                       Sync.seq_lignes := Sync.seq_lignes (Sync.work c);
                       Sync.sync_info := [] |} in
          match fault CommitClear with
          | Some msg =>
              ({| Sync.work := t2; Sync.disk := Sync.disk c |}, Raise msg)
          | None => ({| Sync.work := t2; Sync.disk := t2 |}, Ok tt)
          end
      end
  end.

(** *** What the table keeps *)

(** The constraints of [lignes_factures]: [hash_ligne] is UNIQUE, [id] is
    a key, and no id is past the AUTOINCREMENT counter. *)
Definition well_formed (t : Sync.Tables) : Prop :=
  NoDup (Sync.stored_hashes t)
  /\ NoDup (map Sync.id (Sync.lignes_factures t))
  /\ Forall (fun l => Sync.id l <= Sync.seq_lignes t) (Sync.lignes_factures t).

(** Two rows carry the same values in the twelve columns that are not the
    key [id]. *)
Definition same_data (l d : Sync.Ligne) : Prop :=
  Sync.hash_ligne l = Sync.hash_ligne d
  /\ Sync.marche l = Sync.marche d
  /\ Sync.fournisseur l = Sync.fournisseur d
  /\ Sync.libelle l = Sync.libelle d
  /\ Sync.date_sf l = Sync.date_sf d
  /\ Sync.num_facture l = Sync.num_facture d
  /\ Sync.montant_initial l = Sync.montant_initial d
  /\ Sync.montant_sf l = Sync.montant_sf d
  /\ Sync.montant_ttc l = Sync.montant_ttc d
  /\ Sync.num_mandat l = Sync.num_mandat d
  /\ Sync.tranche l = Sync.tranche d
  /\ Sync.commande l = Sync.commande d.

End Cache.

(** ** What a stored row is to hold

    The predicates of this module say, on the cells of an incoming row,
    what the table is to hold for it and which text is hashed.  They are
    written from the wording of the properties, and call none of the
    functions of [MarchesSync] that they serve to check. *)

Module Stated.

(** The cell of a row under a label: the first that carries the label,
    [None] when no cell does. *)
Inductive cell_at (key : string) : Sync.Series -> option Cell -> Prop :=
| cell_at_nil : cell_at key [] None
| cell_at_here (c : Cell) (rest : Sync.Series) :
    cell_at key ((key, c) :: rest) (Some c)
| cell_at_next (k : string) (c : Cell) (rest : Sync.Series)
    (found : option Cell) :
    k <> key -> cell_at key rest found -> cell_at key ((k, c) :: rest) found.

(** The text of a value: a text is itself, a number is written as Python
    writes a float, and the missing value reads "nan". *)
Definition text_of (rt : Runtime) (c : Cell) : string :=
  match c with
  | CNaN => "nan"
  | CNum q => str_float rt q
  | CStr s => s
  end.


(** A text column holds NULL for a missing cell and the text of the value
    otherwise. *)
Definition text_stored (rt : Runtime) (found : option Cell)
  (stored : option string) : Prop :=
  match found with
  | None | Some CNaN => stored = None
  | Some c => stored = Some (text_of rt c)
  end.

(** An amount column holds 0 for a missing cell, a number as it is, and
    for a text the number [float] reads in it. *)
Definition amount_stored (rt : Runtime) (found : option Cell) (stored : Q)
  : Prop :=
  match found with
  | None | Some CNaN => stored = 0%Q
  | Some (CNum q) => stored = q
  | Some (CStr s) => py_float rt s = Ok stored
  end.

Definition text_column (rt : Runtime) (row : Sync.Series) (key : string)
  (stored : option string) : Prop :=
  exists found, cell_at key row found /\ text_stored rt found stored.

Definition amount_column (rt : Runtime) (row : Sync.Series) (key : string)
  (stored : Q) : Prop :=
  exists found, cell_at key row found /\ amount_stored rt found stored.

(** The stored row holds the incoming row: each of the eight text columns
    and of the three amount columns holds the cell of its label. *)
Definition holds_row (rt : Runtime) (l : Sync.Ligne) (row : Sync.Series)
  : Prop :=
  text_column rt row "marche" (Sync.marche l)
  /\ text_column rt row "fournisseur" (Sync.fournisseur l)
  /\ text_column rt row "libelle" (Sync.libelle l)
  /\ text_column rt row "date_sf" (Sync.date_sf l)
  /\ text_column rt row "num_facture" (Sync.num_facture l)
  /\ amount_column rt row "montant_initial" (Sync.montant_initial l)
  /\ amount_column rt row "montant_sf" (Sync.montant_sf l)
  /\ amount_column rt row "montant_ttc" (Sync.montant_ttc l)
  /\ text_column rt row "num_mandat" (Sync.num_mandat l)
  /\ text_column rt row "tranche" (Sync.tranche l)
  /\ text_column rt row "commande" (Sync.commande l).

(** The cell reads as an amount: it is missing, a number, or a text in
    which [float] reads a number. *)
Definition reads_as_amount (rt : Runtime) (row : Sync.Series) (key : string)
  : Prop :=
  exists found,
    cell_at key row found
    /\ match found with
       | Some (CStr s) => exists q, py_float rt s = Ok q
       | _ => True
       end.

(** The three amounts of the row read as amounts. *)
Definition amounts_convert (rt : Runtime) (row : Sync.Series) : Prop :=
  reads_as_amount rt row "montant_initial"
  /\ reads_as_amount rt row "montant_sf"
  /\ reads_as_amount rt row "montant_ttc".

End Stated.

(** ** More sample data *)

Module Lots.

(** A line of a lot: its contract, the amount of service fait and the
    order number. *)
Definition lot (marche : string) (montant_sf commande : Cell) : Analyzer.Row :=
  {| Analyzer.marche := marche;
     Analyzer.fournisseur := CStr "Entreprise";
     Analyzer.libelle := CStr "Travaux";
     Analyzer.date_sf := CNaN;
     Analyzer.num_facture := CNaN;
     Analyzer.montant_initial := CNaN;
     Analyzer.montant_sf := montant_sf;
     Analyzer.montant_ttc := CNaN;
     Analyzer.num_mandat := CNaN;
     Analyzer.tranche := CNaN;
     Analyzer.commande := commande |}.

(** Two lots of the operation 2024_17 and a contract of its own. *)
Definition trois_lots : list Analyzer.Row :=
  [ lot "2024_17_2" (CNum 50) (CStr "25007");
    lot "2025_12" (CNum 10) CNaN;
    lot "2024_17_1" (CNum 100) (CStr "24001");
    lot "2024_17_1" (CNum 25) (CStr " 24113") ].

End Lots.

Module Sources.

(** No file under any path: the rows come from the database, a quiet one,
    the clock at 300. *)
Definition env_database : Sync.Env :=
  {| Sync.os_stat := fun _ => None;
     Sync.now := 300%Q;
     Sync.fault := Sample.no_fault |}.

(** An incoming row whose initial amount is the text "abc". *)
Definition ligne_illisible (marche : string) : Sync.Series :=
  Sample.series (CStr marche) (CStr "ACME") CNaN CNaN CNaN (CStr "abc") CNaN
    CNaN CNaN CNaN CNaN.

(** No statement of [clear_cache] raises. *)
Definition quiet : Cache.ClearOp -> option string := fun _ => None.

End Sources.

(** * Properties *)

(** ** Text primitives *)

Lemma count_nonneg (c : ascii) (s : string) : 0 <= PyStr.count c s.
Proof.
  induction s as [|a r IH]; simpl; [lia|].
  destruct (Ascii.eqb a c); lia.
Qed.

Lemma count_app (c : ascii) (p s : string) :
  PyStr.count c (p ++ s)%string = PyStr.count c p + PyStr.count c s.
Proof.
  induction p as [|a r IH]; simpl; [reflexivity|].
  rewrite IH. lia.
Qed.

Lemma rfind_from_absent (c : ascii) (s : string) (i last : Z) :
  PyStr.count c s = 0 -> PyStr.rfind_from c s i last = last.
Proof.
  revert i last. induction s as [|a r IH]; intros i last H; simpl in *.
  - reflexivity.
  - pose proof (count_nonneg c r) as Hr.
    destruct (Ascii.eqb a c); [lia|].
    apply IH. lia.
Qed.

Lemma rfind_from_app (c : ascii) (p s : string) (i last : Z) :
  PyStr.rfind_from c (p ++ s)%string i last
  = PyStr.rfind_from c s (i + PyStr.len p) (PyStr.rfind_from c p i last).
Proof.
  revert i last. induction p as [|a r IH]; intros i last; simpl.
  - unfold PyStr.len. simpl. now rewrite Z.add_0_r.
  - rewrite IH. unfold PyStr.len. simpl String.length.
    f_equal. lia.
Qed.

Lemma rfind_from_lt (c : ascii) (s : string) (i last : Z) :
  last < i -> PyStr.rfind_from c s i last < i + PyStr.len s.
Proof.
  revert i last. induction s as [|a r IH]; intros i last H; simpl.
  - unfold PyStr.len. simpl. lia.
  - unfold PyStr.len in *. simpl String.length.
    specialize (IH (i + 1) (if Ascii.eqb a c then i else last)).
    destruct (Ascii.eqb a c); lia.
Qed.

(** The last occurrence of [c] in [p ++ c :: suf] is at [len p] when [suf]
    holds none. *)
Lemma rfind_last (c : ascii) (p suf : string) :
  PyStr.count c suf = 0 ->
  PyStr.rfind c (p ++ String c suf)%string = PyStr.len p.
Proof.
  intros H. unfold PyStr.rfind. rewrite rfind_from_app. simpl.
  rewrite Ascii.eqb_refl. now apply rfind_from_absent.
Qed.

(** Another character, absent from [suf], is last found inside [p]. *)
Lemma rfind_other (c a : ascii) (p suf : string) :
  Ascii.eqb a c = false -> PyStr.count c suf = 0 ->
  PyStr.rfind c (p ++ String a suf)%string < PyStr.len p.
Proof.
  intros Hac H. unfold PyStr.rfind. rewrite rfind_from_app. simpl.
  rewrite Hac, rfind_from_absent by assumption.
  apply (rfind_from_lt c p 0 (-1)). lia.
Qed.

Lemma take_app (p s : string) : PyStr.take (String.length p) (p ++ s)%string = p.
Proof. induction p as [|a r IH]; simpl; [now destruct s | now rewrite IH]. Qed.

Lemma drop_cut (p s : string) (c : ascii) :
  PyStr.drop (S (String.length p)) (p ++ String c s)%string = s.
Proof. induction p as [|a r IH]; simpl; [reflexivity | exact IH]. Qed.

Lemma len_nonneg (s : string) : 0 <= PyStr.len s.
Proof. unfold PyStr.len. lia. Qed.

Lemma len_positive_of_count (c : ascii) (s : string) :
  0 < PyStr.count c s -> 0 < PyStr.len s.
Proof.
  destruct s; simpl; [lia|]. intros _. unfold PyStr.len. simpl. lia.
Qed.

(** ** C6: the operation code of a contract code *)

(** Where the last separator stands in a code cut at its last separator. *)
Lemma last_separator_position (prefix suffix : string) (sep : ascii) :
  is_separator sep = true -> count_separators suffix = 0 ->
  Z.max (PyStr.rfind "_" (prefix ++ String sep suffix)%string)
        (PyStr.rfind "-" (prefix ++ String sep suffix)%string)
  = PyStr.len prefix.
Proof.
  intros Hsep Hsuf. unfold count_separators in Hsuf.
  pose proof (count_nonneg "_" suffix). pose proof (count_nonneg "-" suffix).
  assert (Hu : PyStr.count "_" suffix = 0) by lia.
  assert (Hd : PyStr.count "-" suffix = 0) by lia.
  unfold is_separator in Hsep. apply orb_true_iff in Hsep.
  destruct Hsep as [E|E]; apply Ascii.eqb_eq in E; subst sep.
  - rewrite (rfind_last "_" prefix suffix Hu).
    pose proof (rfind_other "-" "_" prefix suffix eq_refl Hd). lia.
  - rewrite (rfind_last "-" prefix suffix Hd).
    pose proof (rfind_other "_" "-" prefix suffix eq_refl Hu). lia.
Qed.

Lemma count_separators_cut (prefix suffix : string) (sep : ascii) :
  is_separator sep = true ->
  count_separators (prefix ++ String sep suffix)%string
  = count_separators prefix + 1 + count_separators suffix.
Proof.
  intros Hsep. unfold is_separator in Hsep. apply orb_true_iff in Hsep.
  unfold count_separators. rewrite !count_app.
  destruct Hsep as [E|E]; apply Ascii.eqb_eq in E; subst sep;
    cbn [PyStr.count]; rewrite Ascii.eqb_refl;
    match goal with
    | |- context [Ascii.eqb ?a ?b] =>
        replace (Ascii.eqb a b) with false by reflexivity
    end; lia.
Qed.

Lemma extract_operation_unfold (marche : string) :
  marche <> "" ->
  extract_operation marche =
    let normalized := PyStr.strip marche in
    if count_separators normalized <? 2 then normalized
    else
      let last_sep := Z.max (PyStr.rfind "_" normalized) (PyStr.rfind "-" normalized) in
      if 0 <? last_sep then
        let suffix := PyStr.slice_from (last_sep + 1) normalized in
        if PyStr.isdigit suffix && (PyStr.len suffix <=? 2)
        then PyStr.slice_to last_sep normalized
        else normalized
      else normalized.
Proof. destruct marche; [congruence | reflexivity]. Qed.

(** C6 (amended): [extract_operation] works on the code stripped of
    surrounding white space.  The empty code gives the empty code; a
    stripped code with fewer than two separators is returned as it is; a
    stripped code with two separators or more, cut at its last separator
    into [prefix], the separator and [suffix], gives [prefix] when [suffix]
    is a run of one or two digits, and the stripped code otherwise.  The
    three documented codes resolve as documented. *)
Theorem extract_operation_spec (marche : string) :
  let code := PyStr.strip marche in
  (marche = "" -> extract_operation marche = "") /\
  (count_separators code < 2 -> extract_operation marche = code) /\
  (forall (prefix suffix : string) (sep : ascii),
      2 <= count_separators code ->
      code = (prefix ++ String sep suffix)%string ->
      is_separator sep = true ->
      count_separators suffix = 0 ->
      extract_operation marche =
        if PyStr.isdigit suffix && (PyStr.len suffix <=? 2)
        then prefix else code) /\
  extract_operation "2024_17_1" = "2024_17" /\
  extract_operation "2024_1_3" = "2024_1" /\
  extract_operation "2025_12" = "2025_12".
Proof.
  intros code. split; [|split; [|split]].
  - intros ->. reflexivity.
  - intros Hlt. destruct marche as [|a r]; [reflexivity|].
    rewrite extract_operation_unfold by discriminate.
    cbv zeta. fold code.
    apply Z.ltb_lt in Hlt. now rewrite Hlt.
  - intros prefix suffix sep Hge Hcut Hsep Hsuf.
    destruct marche as [|a r].
    { exfalso. unfold code in Hge. simpl in Hge. unfold count_separators in Hge.
      simpl in Hge. lia. }
    rewrite extract_operation_unfold by discriminate.
    cbv zeta. fold code.
    assert (Hnlt : (count_separators code <? 2) = false) by (apply Z.ltb_ge; lia).
    rewrite Hnlt. rewrite Hcut.
    rewrite (last_separator_position prefix suffix sep Hsep Hsuf).
    rewrite Hcut, count_separators_cut, Hsuf in Hge by assumption.
    assert (Hpos : 0 < PyStr.len prefix).
    { unfold count_separators in Hge.
      pose proof (count_nonneg "_" prefix). pose proof (count_nonneg "-" prefix).
      destruct (Z.eq_dec (PyStr.count "_" prefix) 0).
      - apply (len_positive_of_count "-"). lia.
      - apply (len_positive_of_count "_"). lia. }
    apply Z.ltb_lt in Hpos as Hposb. rewrite Hposb.
    assert (Hfrom : PyStr.slice_from (PyStr.len prefix + 1)
                      (prefix ++ String sep suffix)%string = suffix).
    { unfold PyStr.slice_from, PyStr.bound.
      assert (E : (PyStr.len prefix + 1 <? 0) = false) by (apply Z.ltb_ge; lia).
      rewrite E. unfold PyStr.len.
      replace (Z.to_nat (Z.of_nat (String.length prefix) + 1))
        with (S (String.length prefix)) by lia.
      apply drop_cut. }
    assert (Hto : PyStr.slice_to (PyStr.len prefix)
                    (prefix ++ String sep suffix)%string = prefix).
    { unfold PyStr.slice_to, PyStr.bound.
      assert (E : (PyStr.len prefix <? 0) = false) by (apply Z.ltb_ge; lia).
      rewrite E. unfold PyStr.len. rewrite Nat2Z.id. apply take_app. }
    rewrite Hfrom, Hto. reflexivity.
  - repeat split; reflexivity.
Qed.

(** The counterexample to C6 as stated: a code with surrounding white
    space and a single separator is not returned as it is. *)
Lemma extract_operation_strips_code :
  count_separators " 2025_12" = 1
  /\ extract_operation " 2025_12" = "2025_12"
  /\ String.eqb (extract_operation " 2025_12") " 2025_12" = false.
Proof. repeat split. Qed.

(** ** pandas primitives *)

Local Open Scope Q_scope.

Lemma mask_and_map {A : Type} (f g : A -> bool) (l : list A) :
  Pd.mask_and (map f l) (map g l) = map (fun x => f x && g x) l.
Proof. induction l as [|x r IH]; simpl; [reflexivity | now rewrite IH]. Qed.

Lemma select_map {A : Type} (f : A -> bool) (l : list A) :
  Pd.select (map f l) l = filter f l.
Proof.
  induction l as [|x r IH]; simpl; [reflexivity|].
  destruct (f x); now rewrite IH.
Qed.


Lemma sum_PermutationA (l l' : list Q) :
  PermutationA Qeq l l' -> Pd.sum l == Pd.sum l'.
Proof.
  induction 1 as [|x y l l' Hxy _ IH|x y l|l1 l2 l3 _ IH1 _ IH2]; simpl.
  - reflexivity.
  - now rewrite Hxy, IH.
  - ring.
  - now rewrite IH1.
Qed.

Lemma fold_left_Qplus (l : list Q) (acc : Q) :
  fold_left Qplus l acc == acc + Pd.sum l.
Proof.
  revert acc. induction l as [|x r IH]; intros acc; simpl; [ring|].
  rewrite IH. ring.
Qed.

Section Unique.
Context {A : Type} (R : A -> A -> Prop) {R_equiv : Equivalence R}.
Context (eqb : A -> A -> bool).
Hypothesis eqb_spec : forall x y, eqb x y = true <-> R x y.

Lemma existsb_InA (x : A) (l : list A) :
  existsb (eqb x) l = true <-> InA R x l.
Proof.
  rewrite existsb_exists, InA_alt. split.
  - intros [y [Hin Hy]]. exists y. split; [now apply eqb_spec | exact Hin].
  - intros [y [Hy Hin]]. exists y. split; [exact Hin | now apply eqb_spec].
Qed.

(** [unique] keeps a value exactly when it occurs and was not seen. *)
Lemma unique_from_InA (seen l : list A) (v : A) :
  InA R v (Pd.unique_from eqb seen l) <-> InA R v l /\ ~ InA R v seen.
Proof.
  revert seen. induction l as [|x r IH]; intros seen; simpl.
  - split; [intros H; inversion H | intros [H _]; inversion H].
  - destruct (existsb (eqb x) seen) eqn:E.
    + apply existsb_InA in E. rewrite IH. split.
      * intros [Hr Hs]. split; [now right | exact Hs].
      * intros [Hr Hs]. split; [|exact Hs].
        inversion Hr as [? ? Hvx|? ? Hin]; subst; [|exact Hin].
        exfalso. apply Hs. now rewrite Hvx.
    + assert (Hx : ~ InA R x seen).
      { intros H. apply existsb_InA in H. congruence. }
      split.
      * intros H. inversion H as [? ? Hvx|? ? Hin]; subst.
        -- split; [now left|]. now rewrite Hvx.
        -- apply IH in Hin. destruct Hin as [Hr Hs].
           split; [now right|]. intros Hv. apply Hs. now right.
      * intros [Hr Hs].
        destruct (eqb v x) eqn:Evx.
        -- left. now apply eqb_spec.
        -- right. apply IH. split.
           ++ inversion Hr as [? ? Hvx|? ? Hin]; subst; [|exact Hin].
              apply eqb_spec in Hvx. congruence.
           ++ intros Hv. inversion Hv as [? ? Hvx|? ? Hin]; subst.
              ** apply eqb_spec in Hvx. congruence.
              ** now apply Hs.
Qed.

Lemma unique_from_NoDupA (seen l : list A) :
  NoDupA R (Pd.unique_from eqb seen l).
Proof.
  revert seen. induction l as [|x r IH]; intros seen; simpl.
  - constructor.
  - destruct (existsb (eqb x) seen); [apply IH|].
    constructor; [|apply IH].
    intros H. apply unique_from_InA in H. destruct H as [_ H].
    apply H. now left.
Qed.

End Unique.

Lemma Qeq_bool_spec (x y : Q) : Qeq_bool x y = true <-> x == y.
Proof. apply Qeq_bool_iff. Qed.

Lemma InA_filter_Q (p : Q -> bool) (l : list Q) (v : Q) :
  Proper (Qeq ==> eq) p ->
  InA Qeq v (filter p l) <-> InA Qeq v l /\ p v = true.
Proof.
  intros Hp. rewrite !InA_alt. split.
  - intros [y [Hvy Hin]]. apply filter_In in Hin. destruct Hin as [Hin Hy].
    split; [now exists y|]. now rewrite (Hp v y Hvy).
  - intros [[y [Hvy Hin]] Hv]. exists y. split; [exact Hvy|].
    apply filter_In. split; [exact Hin|]. now rewrite <- (Hp v y Hvy).
Qed.

Lemma above_epsilon_proper :
  Proper (Qeq ==> eq) (fun m => negb (Qle_bool m Analyzer.epsilon)).
Proof.
  intros x y Hxy. f_equal.
  destruct (Qle_bool x Analyzer.epsilon) eqn:Ex, (Qle_bool y Analyzer.epsilon) eqn:Ey;
    try reflexivity.
  - apply Qle_bool_iff in Ex. rewrite Hxy in Ex. apply Qle_bool_iff in Ex. congruence.
  - apply Qle_bool_iff in Ey. rewrite <- Hxy in Ey. apply Qle_bool_iff in Ey. congruence.
Qed.

Lemma above_epsilon_iff (m : Q) :
  negb (Qle_bool m Analyzer.epsilon) = true <-> Analyzer.epsilon < m.
Proof.
  rewrite negb_true_iff. split.
  - intros H. apply Qnot_le_lt. intros Hle. apply Qle_bool_iff in Hle. congruence.
  - intros H. destruct (Qle_bool m Analyzer.epsilon) eqn:E; [|reflexivity].
    apply Qle_bool_iff in E. exfalso. apply (Qlt_not_le _ _ H E).
Qed.

Lemma InA_Forall2_Qeq (l l' : list Q) (v : Q) :
  Forall2 Qeq l l' -> (InA Qeq v l <-> InA Qeq v l').
Proof.
  induction 1 as [|x y l l' Hxy _ IH].
  - reflexivity.
  - split; intros H; inversion H as [? ? Hv|? ? Hin]; subst.
    + left. now rewrite Hv, Hxy.
    + right. now apply IH.
    + left. now rewrite Hv, Hxy.
    + right. now apply IH.
Qed.

(** ** Lines of a (marché, tranche) pair *)

Lemma mask_tranche_in_tranche (df : list Analyzer.Row) (m : string) (t : Cell) :
  Analyzer.mask_tranche df m t = map (Analyzer.in_tranche m t) df.
Proof.
  unfold Analyzer.mask_tranche, Analyzer.in_tranche.
  destruct (Pd.isna t); now rewrite mask_and_map.
Qed.

Lemma select_tranche (df : list Analyzer.Row) (m : string) (t : Cell) :
  Pd.select (Analyzer.mask_tranche df m t) df
  = filter (Analyzer.in_tranche m t) df.
Proof. rewrite mask_tranche_in_tranche. apply select_map. Qed.

(** ** C3: the initial amount of a tranche *)

(** The amount read from the lines is the sum of the distinct amounts above
    the threshold, whether or not a line matches. *)
Lemma montant_tranche_excel_sum (rt : Runtime) (df : list Analyzer.Row)
  (m : string) (t : Cell) :
  Analyzer.montant_tranche_excel rt df m t
  = Pd.sum
      (Pd.unique Qeq_bool
         (filter (fun x => negb (Qle_bool x Analyzer.epsilon))
            (map (Pd.to_numeric_fillna rt)
               (map Analyzer.montant_initial
                  (filter (Analyzer.in_tranche m t) df))))).
Proof.
  unfold Analyzer.montant_tranche_excel. rewrite select_tranche.
  destruct (filter (Analyzer.in_tranche m t) df); reflexivity.
Qed.

(** C3 (amended): for a pair the override store says nothing about,
    [calculate_montant_initial_tranche] reads the initial amounts of the
    lines of the pair as numbers (missing or unreadable giving 0), keeps
    those above the threshold 0.01, and returns the sum of the distinct
    amounts kept; amounts 100, 100, 100, 0, 50 give 150. *)
Theorem calculate_montant_initial_tranche_spec (rt : Runtime)
  (db : option Db.Database) (df : list Analyzer.Row) (marche : string)
  (tranche : Cell) :
  Analyzer.montant_tranche_override rt db marche tranche = None ->
  let montants :=
    map (fun r => Pd.to_numeric_fillna rt (Analyzer.montant_initial r))
      (filter (Analyzer.in_tranche marche tranche) df) in
  let montant := Analyzer.calculate_montant_initial_tranche rt db df marche tranche in
  (exists distincts : list Q,
      NoDupA Qeq distincts
      /\ (forall v, InA Qeq v distincts
                    <-> Analyzer.epsilon < v /\ InA Qeq v montants)
      /\ montant == Pd.sum distincts)
  /\ (Forall2 Qeq montants [100; 100; 100; 0; 50] -> montant == 150).
Proof.
  intros Hnone montants montant.
  assert (Hsum : exists distincts : list Q,
             NoDupA Qeq distincts
             /\ (forall v, InA Qeq v distincts
                           <-> Analyzer.epsilon < v /\ InA Qeq v montants)
             /\ montant == Pd.sum distincts).
  { unfold montant, Analyzer.calculate_montant_initial_tranche.
    rewrite Hnone, montant_tranche_excel_sum, map_map. fold montants.
    eexists. split; [|split; [|reflexivity]].
    - apply (unique_from_NoDupA Qeq Qeq_bool Qeq_bool_spec).
    - intros v. unfold Pd.unique.
      rewrite (unique_from_InA Qeq Qeq_bool Qeq_bool_spec).
      rewrite (InA_filter_Q _ _ _ above_epsilon_proper), above_epsilon_iff.
      split.
      + intros [[Hin Hv] _]. now split.
      + intros [Hv Hin]. split; [now split|]. intros H. inversion H. }
  split; [exact Hsum|].
  intros Hex. destruct Hsum as [distincts [Hnodup [Hin ->]]].
  assert (Hperm : PermutationA Qeq distincts [100; 50]).
  { apply NoDupA_equivlistA_PermutationA; try exact Hnodup; try apply Q_Setoid.
    - repeat constructor; intros H; inversion H as [? ? E|? ? E]; subst;
        [discriminate E | inversion E].
    - intros v. rewrite Hin, (InA_Forall2_Qeq _ _ v Hex). split.
      + intros [Hv H].
        repeat match goal with
               | H : InA _ _ (_ :: _) |- _ => inversion H; clear H; subst
               | H : InA _ _ [] |- _ => inversion H
               end;
          try (left; assumption); try (right; left; assumption).
        exfalso. match goal with E : v == 0 |- _ => rewrite E in Hv end.
        discriminate Hv.
      + intros H. inversion H as [? ? E|? ? H']; subst.
        * rewrite E. split; [reflexivity | now left].
        * inversion H' as [? ? E|? ? H'']; subst; [|inversion H''].
          rewrite E. split; [reflexivity|]. do 4 right. now left. }
  rewrite (sum_PermutationA _ _ Hperm). reflexivity.
Qed.

(** The hypothesis of C3 holds, and its conclusion is met, on five lines
    with initial amounts 100, 100, 100, 0 and 50. *)
Lemma calculate_montant_initial_tranche_witness :
  Analyzer.calculate_montant_initial_tranche Sample.runtime None
    Sample.cinq_lignes "2024_17_1" CNaN == 150.
Proof.
  apply (proj2 (calculate_montant_initial_tranche_spec Sample.runtime None
                  Sample.cinq_lignes "2024_17_1" CNaN eq_refl)).
  repeat (constructor; [reflexivity|]). constructor.
Defined.

(** The counterexample to C3 as stated: a positive amount of half a cent
    is discarded, so that the result is 0 and not the sum of the distinct
    positive amounts. *)
Lemma montant_initial_drops_half_cent :
  Analyzer.montant_tranche_override Sample.runtime None "2024_17_1" CNaN = None
  /\ 0 < 1 # 200
  /\ Analyzer.calculate_montant_initial_tranche Sample.runtime None
       Sample.ligne_demi_centime "2024_17_1" CNaN == 0
  /\ Qeq_bool
       (Analyzer.calculate_montant_initial_tranche Sample.runtime None
          Sample.ligne_demi_centime "2024_17_1" CNaN) (1 # 200) = false.
Proof. repeat split. Qed.

(** ** C5: the paid amount of a tranche *)

Lemma mandat_renseigne_mask (r : Analyzer.Row) :
  Pd.notna (Analyzer.num_mandat r) && Pd.ne_empty (Analyzer.num_mandat r)
  = Analyzer.mandat_renseigne r.
Proof.
  unfold Analyzer.mandat_renseigne, Pd.notna, Pd.ne_empty, Pd.isna, Pd.eq.
  destruct (Analyzer.num_mandat r) as [|q|s]; try reflexivity.
  destruct s; reflexivity.
Qed.

(** The paid amount is a sum over the lines of the pair that carry a
    mandate. *)
Lemma calculate_paye_tranche_sum (rt : Runtime) (df : list Analyzer.Row)
  (m : string) (t : Cell) :
  Analyzer.calculate_paye_tranche rt df m t
  = Pd.sum
      (map (fun r => Pd.to_numeric_fillna rt (Analyzer.montant_ttc r))
         (filter (fun r => Analyzer.in_tranche m t r
                           && Analyzer.mandat_renseigne r) df)).
Proof.
  unfold Analyzer.calculate_paye_tranche.
  rewrite mask_tranche_in_tranche, !mask_and_map, select_map.
  rewrite (filter_ext _ (fun r => Analyzer.in_tranche m t r
                                  && Analyzer.mandat_renseigne r)).
  2:{ intros r. now rewrite <- andb_assoc, mandat_renseigne_mask. }
  rewrite map_map.
  destruct (filter _ df); reflexivity.
Qed.


(** ** Stable sort *)

Section StableSortFacts.
Context {A : Type} (before : A -> A -> bool).

Lemma insert_sorted_Permutation (x : A) (l : list A) :
  Permutation (insert_sorted before x l) (x :: l).
Proof.
  induction l as [|y r IH]; simpl; [reflexivity|].
  destruct (before x y); [reflexivity|].
  rewrite IH. apply perm_swap.
Qed.

Lemma stable_sort_Permutation (l : list A) :
  Permutation (stable_sort before l) l.
Proof.
  induction l as [|x r IH]; simpl; [reflexivity|].
  rewrite insert_sorted_Permutation. now constructor.
Qed.

End StableSortFacts.

Lemma sum_Permutation (l l' : list Q) :
  Permutation l l' -> Pd.sum l == Pd.sum l'.
Proof.
  induction 1 as [|x l l' _ IH|x y l|l1 l2 l3 _ IH1 _ IH2]; simpl.
  - reflexivity.
  - now rewrite IH.
  - ring.
  - now rewrite IH1.
Qed.

(** ** C4: the committed amount of a contract *)

Lemma fold_left_sum_map {A : Type} (f : A -> Q) (l : list A) (acc : Q) :
  fold_left (fun a x => a + f x) l acc == acc + Pd.sum (map f l).
Proof.
  revert acc. induction l as [|x r IH]; intros acc; simpl; [ring|].
  rewrite IH. ring.
Qed.

Lemma type_marche_classique (m : Db.MarcheRec) :
  String.eqb
    match Db.type_marche m with
    | Some t => if String.eqb t "" then "CLASSIQUE" else t
    | None => "CLASSIQUE"
    end "CLASSIQUE"
  = Db.classique m.
Proof.
  unfold Db.classique. destruct (Db.type_marche m) as [t|]; [|reflexivity].
  destruct (String.eqb t "") eqn:E; reflexivity.
Qed.

(** [get_montant_total_marche] computes the resolved total: manual base
    amount, signed amendments and, for a classic contract, tranches. *)
Lemma get_montant_total_marche_attendu (db : Db.Database) (code : string) :
  Db.get_montant_total_marche db code == Db.montant_total_attendu db code.
Proof.
  unfold Db.get_montant_total_marche, Db.montant_total_attendu.
  destruct (Db.get_marche db code) as [m|]; [|reflexivity].
  cbv zeta. rewrite type_marche_classique.
  rewrite (fold_left_sum_map Db.montant_avenant_signe).
  unfold Db.get_avenants.
  rewrite (sum_Permutation _ _
             (Permutation_map _ (stable_sort_Permutation _ _))).
  destruct (Db.classique m).
  - assert (Htr :
      match Db.get_tranches db code with
      | [] => Db.or_zero (Db.montant_initial_manuel m)
      | t :: trs =>
          Db.or_zero (Db.montant_initial_manuel m)
          + fold_left (fun acc t => acc + Db.or_zero (Db.tr_montant t))
              (t :: trs) 0
      end
      == Db.or_zero (Db.montant_initial_manuel m)
         + Pd.sum (map (fun t => Db.or_zero (Db.tr_montant t))
                     (filter (fun t => String.eqb (Db.tr_code_marche t) code)
                        (Db.tranches db)))).
    { rewrite <- (sum_Permutation _ _
                   (Permutation_map _ (stable_sort_Permutation
                      (fun a b => Db.order_by (Db.ordre a) (Db.ordre b)) _))).
      fold (Db.get_tranches db code).
      destruct (Db.get_tranches db code) as [|t trs] eqn:E.
      - simpl. ring.
      - rewrite (fold_left_sum_map (fun t => Db.or_zero (Db.tr_montant t))).
        ring. }
    rewrite Htr. ring.
  - ring.
Qed.

(** The sign of an amendment: added unless it is a decrease. *)
Lemma montant_avenant_signe_kind (a : Db.AvenantRec) :
  (Db.type_modification a = Some "Augmentation" ->
   Db.montant_avenant_signe a = Db.or_zero (Db.av_montant a))
  /\ (Db.type_modification a = Some "Diminution" ->
      Db.montant_avenant_signe a = - Db.or_zero (Db.av_montant a)).
Proof.
  unfold Db.montant_avenant_signe. split; intros ->; reflexivity.
Qed.

Lemma In_unique_string (l : list string) (x : string) :
  In x (Pd.unique String.eqb l) -> In x l.
Proof.
  intros H. apply In_InA with (eqA := @eq string) in H; [|typeclasses eauto].
  apply (unique_from_InA eq String.eqb String.eqb_eq) in H.
  destruct H as [H _]. apply InA_alt in H. destruct H as [y [-> H]]. exact H.
Qed.

(** The committed amount in the entry of one contract. *)
Lemma vision_marche_montant (rt : Runtime) (db : option Db.Database)
  (df : list Analyzer.Row) (code : string) :
  let v := Analyzer.vision_marche rt db df code in
  let excel :=
    Pd.sum (map (Analyzer.calculate_montant_initial_tranche rt db df code)
              (Analyzer.tranches_vues df code)) in
  Analyzer.v_marche v = code
  /\ (forall d, db = Some d -> 0 < Db.montant_total_attendu d code ->
      Analyzer.v_montant_initial_marche v == Db.montant_total_attendu d code)
  /\ (forall d, db = Some d -> Db.montant_total_attendu d code <= 0 ->
      Analyzer.v_montant_initial_marche v == excel)
  /\ (db = None -> Analyzer.v_montant_initial_marche v == excel).
Proof.
  intros v excel.
  assert (Hexcel :
    fold_left Qplus
      (map (Analyzer.calculate_montant_initial_tranche rt db df code)
         (Pd.unique Pd.same
            (map Analyzer.tranche
               (Pd.select (map (fun r => String.eqb (Analyzer.marche r) code) df) df))))
      0 == excel).
  { rewrite fold_left_Qplus, select_map. unfold excel, Analyzer.tranches_vues. ring. }
  unfold v, Analyzer.vision_marche.
  destruct db as [d|].
  - pose proof (get_montant_total_marche_attendu d code) as Htot.
    destruct (Qle_bool (Db.get_montant_total_marche d code) 0) eqn:Ele.
    + simpl negb. cbv iota beta.
      change (Qeq_bool 0 0) with true. cbv iota beta. simpl.
      apply Qle_bool_iff in Ele. rewrite Htot in Ele.
      split; [reflexivity|]. split; [|split].
      * intros d' [= <-] Hpos. exfalso. apply (Qlt_not_le _ _ Hpos Ele).
      * intros d' [= <-] _. exact Hexcel.
      * discriminate.
    + simpl negb. cbv iota beta.
      assert (Hpos : 0 < Db.get_montant_total_marche d code).
      { apply Qnot_le_lt. intros H. apply Qle_bool_iff in H. congruence. }
      assert (Hne : Qeq_bool (Db.get_montant_total_marche d code) 0 = false).
      { destruct (Qeq_bool (Db.get_montant_total_marche d code) 0) eqn:E;
          [|reflexivity].
        apply Qeq_bool_iff in E. rewrite E in Hpos. discriminate Hpos. }
      rewrite Hne. simpl.
      split; [reflexivity|]. split; [|split].
      * intros d' [= <-] _. exact Htot.
      * intros d' [= <-] Hle. exfalso. rewrite Htot in Hpos.
        apply (Qlt_not_le _ _ Hpos Hle).
      * discriminate.
  - cbv iota beta. change (Qeq_bool 0 0) with true. cbv iota beta. simpl.
    split; [reflexivity|]. split; [|split].
    + discriminate.
    + discriminate.
    + intros _. exact Hexcel.
Qed.




(** ** Order on texts *)

Lemma ascii_compare_refl (a : ascii) : Ascii.compare a a = Eq.
Proof. unfold Ascii.compare. apply N.compare_refl. Qed.

Lemma ascii_compare_lt_trans (a b c : ascii) :
  Ascii.compare a b = Lt -> Ascii.compare b c = Lt -> Ascii.compare a c = Lt.
Proof.
  unfold Ascii.compare. rewrite !N.compare_lt_iff. apply N.lt_trans.
Qed.

Lemma string_compare_refl (s : string) : String.compare s s = Eq.
Proof.
  induction s as [|a r IH]; simpl; [reflexivity|].
  now rewrite ascii_compare_refl.
Qed.

Lemma string_compare_lt_trans (a b c : string) :
  String.compare a b = Lt -> String.compare b c = Lt -> String.compare a c = Lt.
Proof.
  revert b c. induction a as [|x a' IH]; intros [|y b'] [|z c']; simpl;
    try discriminate; try reflexivity.
  destruct (Ascii.compare x y) eqn:Exy; try discriminate.
  - apply Ascii.compare_eq_iff in Exy. subst y.
    destruct (Ascii.compare x z) eqn:Exz; try discriminate; [|reflexivity].
    apply IH.
  - intros _.
    destruct (Ascii.compare y z) eqn:Eyz; try discriminate.
    + apply Ascii.compare_eq_iff in Eyz. subst z. now rewrite Exy.
    + now rewrite (ascii_compare_lt_trans _ _ _ Exy Eyz).
Qed.

Lemma string_compare_gt_lt (a b : string) :
  String.compare a b = Gt <-> String.compare b a = Lt.
Proof.
  rewrite (String.compare_antisym b a).
  destruct (String.compare a b); simpl; split; congruence.
Qed.

Lemma string_leb_trans (a b c : string) :
  String.leb a b = true -> String.leb b c = true -> String.leb a c = true.
Proof.
  unfold String.leb.
  destruct (String.compare a b) eqn:Eab; try discriminate; intros _.
  - apply String.compare_eq_iff in Eab. now subst b.
  - destruct (String.compare b c) eqn:Ebc; try discriminate; intros _.
    + apply String.compare_eq_iff in Ebc. subst c. now rewrite Eab.
    + now rewrite (string_compare_lt_trans _ _ _ Eab Ebc).
Qed.

(** ** C9: the invoice history *)

Section SortedFacts.
Context {A : Type} (before : A -> A -> bool).
Hypothesis before_total : forall x y, before x y = false -> before y x = true.
Hypothesis before_trans :
  forall x y z, before x y = true -> before y z = true -> before x z = true.

Let R (x y : A) : Prop := before x y = true.

Lemma insert_sorted_StronglySorted (x : A) (l : list A) :
  StronglySorted R l -> StronglySorted R (insert_sorted before x l).
Proof.
  induction 1 as [|y r Hr IH Hy]; simpl.
  - repeat constructor.
  - destruct (before x y) eqn:E.
    + constructor; [now constructor|].
      constructor; [exact E|].
      apply Forall_forall. intros z Hz.
      apply (before_trans x y z E).
      exact (proj1 (Forall_forall _ _) Hy z Hz).
    + constructor; [exact IH|].
      apply Forall_forall. intros z Hz.
      apply (Permutation_in _ (insert_sorted_Permutation before x r)) in Hz.
      destruct Hz as [<- | Hz].
      * now apply before_total.
      * exact (proj1 (Forall_forall _ _) Hy z Hz).
Qed.

Lemma stable_sort_StronglySorted (l : list A) :
  StronglySorted R (stable_sort before l).
Proof.
  induction l as [|x r IH]; simpl; [constructor|].
  now apply insert_sorted_StronglySorted.
Qed.

End SortedFacts.

Lemma StronglySorted_weaken {A : Type} (R R' : A -> A -> Prop) (l : list A) :
  (forall x y, R x y -> R' x y) -> StronglySorted R l -> StronglySorted R' l.
Proof.
  intros Himp. induction 1 as [|x r _ IH Hx]; constructor; [exact IH|].
  apply Forall_forall. intros y Hy. apply Himp.
  exact (proj1 (Forall_forall _ _) Hx y Hy).
Qed.

Lemma key_le_total (x y : Analyzer.HistoryRow) :
  Analyzer.key_le x y = false -> Analyzer.key_le y x = true.
Proof.
  unfold Analyzer.key_le.
  rewrite (String.compare_antisym (Analyzer.h_marche y) (Analyzer.h_marche x)).
  destruct (String.compare (Analyzer.h_marche x) (Analyzer.h_marche y));
    simpl; try discriminate; try reflexivity.
  intros H.
  destruct (String.leb_total (Analyzer.h_date_sf x) (Analyzer.h_date_sf y))
    as [H'|H']; [congruence | exact H'].
Qed.

Lemma key_le_trans (x y z : Analyzer.HistoryRow) :
  Analyzer.key_le x y = true -> Analyzer.key_le y z = true ->
  Analyzer.key_le x z = true.
Proof.
  unfold Analyzer.key_le.
  destruct (String.compare (Analyzer.h_marche x) (Analyzer.h_marche y)) eqn:Exy;
    try discriminate.
  - apply String.compare_eq_iff in Exy. rewrite Exy.
    destruct (String.compare (Analyzer.h_marche y) (Analyzer.h_marche z));
      try discriminate; [|reflexivity].
    apply string_leb_trans.
  - intros _.
    destruct (String.compare (Analyzer.h_marche y) (Analyzer.h_marche z)) eqn:Eyz;
      try discriminate; intros _.
    + apply String.compare_eq_iff in Eyz. rewrite <- Eyz. now rewrite Exy.
    + now rewrite (string_compare_lt_trans _ _ _ Exy Eyz).
Qed.

Lemma key_le_precedes (x y : Analyzer.HistoryRow) :
  Analyzer.key_le y x = true -> Analyzer.precedes x y.
Proof.
  unfold Analyzer.key_le, Analyzer.precedes, String.ltb.
  destruct (String.compare (Analyzer.h_marche y) (Analyzer.h_marche x)) eqn:E;
    try discriminate.
  - apply String.compare_eq_iff in E. intros H. right. now split.
  - intros _. now left.
Qed.

(** C9 (amended): [get_historique_factures] returns one entry per line
    (per line of the given contract when one is given), sorted by contract
    code descending and, within a contract, by the text of the service-fait
    date descending. *)
Theorem get_historique_factures_sorted (rt : Runtime)
  (df : list Analyzer.Row) (marche : option string) :
  let results := Analyzer.get_historique_factures rt df marche in
  Permutation results
    (map (Analyzer.historique_ligne rt) (Analyzer.lignes_retenues df marche))
  /\ StronglySorted Analyzer.precedes results.
Proof.
  intros results.
  assert (Hres : results
                 = stable_sort (fun x y => Analyzer.key_le y x)
                     (map (Analyzer.historique_ligne rt)
                        (Analyzer.lignes_retenues df marche))).
  { unfold results, Analyzer.get_historique_factures, Analyzer.lignes_retenues.
    destruct df as [|r0 df0] eqn:Edf.
    - destruct marche as [[|c m]|]; reflexivity.
    - rewrite <- Edf. destruct marche as [[|c m]|]; try reflexivity.
      now rewrite select_map. }
  rewrite Hres. split.
  - apply stable_sort_Permutation.
  - apply (StronglySorted_weaken (fun x y => Analyzer.key_le y x = true)).
    + intros x y. apply key_le_precedes.
    + apply (stable_sort_StronglySorted (fun x y => Analyzer.key_le y x)).
      * intros x y. apply key_le_total.
      * intros x y z Hxy Hyz. exact (key_le_trans _ _ _ Hyz Hxy).
Qed.

(** The counterexample to C9 as stated: of two contracts the greater code
    comes first. *)
Lemma historique_contract_descending :
  map Analyzer.h_marche
    (Analyzer.get_historique_factures Sample.runtime Sample.deux_marches None)
  = ["2025_02"; "2024_01"]
  /\ String.ltb "2024_01" "2025_02" = true.
Proof. split; reflexivity. Qed.

(** ** The synchronisation monad *)

Local Open Scope Z_scope.

Lemma bind_inv_ok {A B : Type} (m : Sync.M A) (k : A -> Sync.M B)
  (s s' : Sync.State) (b : B) :
  Sync.bind m k s = (s', Ok b) ->
  exists s1 a, m s = (s1, Ok a) /\ k a s1 = (s', Ok b).
Proof.
  unfold Sync.bind. destruct (m s) as [s1 [a|msg]]; intros H.
  - now exists s1, a.
  - discriminate H.
Qed.

Lemma bind_inv_raise {A B : Type} (m : Sync.M A) (k : A -> Sync.M B)
  (s s' : Sync.State) (msg : string) :
  Sync.bind m k s = (s', Raise msg) ->
  m s = (s', Raise msg)
  \/ exists s1 a, m s = (s1, Ok a) /\ k a s1 = (s', Raise msg).
Proof.
  unfold Sync.bind. destruct (m s) as [s1 [a|msg']]; intros H.
  - right. now exists s1, a.
  - left. injection H as -> ->. reflexivity.
Qed.

Section SyncFacts.
Variable rt : Runtime.
Variable env : Sync.Env.

Lemma execute_ok {A : Type} (op : Sync.Op) (run : Sync.Tables -> Sync.Tables * A)
  (s s' : Sync.State) (a : A) :
  Sync.execute env op run s = (s', Ok a) ->
  Sync.fault env op = None
  /\ a = snd (run (Sync.work (Sync.conn s)))
  /\ Sync.work (Sync.conn s') = fst (run (Sync.work (Sync.conn s)))
  /\ Sync.disk (Sync.conn s') = Sync.disk (Sync.conn s)
  /\ Sync.stats s' = Sync.stats s.
Proof.
  unfold Sync.execute. destruct (Sync.fault env op); [discriminate|].
  destruct (run (Sync.work (Sync.conn s))) as [t a']. intros [= <- <-].
  repeat split.
Qed.

Lemma execute_raise {A : Type} (op : Sync.Op)
  (run : Sync.Tables -> Sync.Tables * A) (s s' : Sync.State) (msg : string) :
  Sync.execute env op run s = (s', Raise msg) ->
  s' = s /\ Sync.fault env op = Some msg.
Proof.
  unfold Sync.execute. destruct (Sync.fault env op) as [m|].
  - intros [= <- <-]. now split.
  - destruct (run (Sync.work (Sync.conn s))). discriminate.
Qed.

(** ** C1: when a file needs to be synchronised *)

(** The verdict on an existing file with a recorded snapshot. *)
Lemma verdict_spec (f : Sync.FileStat) (last : Sync.SyncInfo) :
  let size_same := Sync.st_size f = Sync.file_size last in
  let date_close :=
    (Qabs (Sync.st_mtime f - Sync.last_modified last) <= 1)%Q in
  let hash_same := Sync._calculate_file_hash rt f = Sync.file_hash last in
  (fst (Sync.verdict rt f (Some last)) = false
   <-> size_same /\ Sync.nb_lignes last <> 0 /\ (date_close \/ hash_same))
  /\ (~ size_same -> fst (Sync.verdict rt f (Some last)) = true)
  /\ (~ hash_same -> ~ date_close ->
      fst (Sync.verdict rt f (Some last)) = true).
Proof.
  intros size_same date_close hash_same. unfold Sync.verdict. cbv zeta.
  destruct (Z.eqb_spec (Sync.st_size f) (Sync.file_size last)) as [Es|Es];
    cbn [negb fst].
  2:{ split; [|split]; try reflexivity.
      split; [discriminate | intros [H _]; contradiction]. }
  destruct (Z.eqb_spec (Sync.nb_lignes last) 0) as [En|En]; cbn [negb fst].
  { split; [|split]; try reflexivity.
    split; [discriminate | intros [_ [H _]]; contradiction]. }
  destruct (Qle_bool (Qabs (Sync.st_mtime f - Sync.last_modified last)) 1)
    eqn:Ed; cbn [negb fst].
  { apply Qle_bool_iff in Ed. split; [|split].
    - split; [intros _|reflexivity]. split; [exact Es|]. split; [exact En|].
      now left.
    - intros H. contradiction.
    - intros _ H. contradiction. }
  assert (Hd : ~ date_close).
  { intros H. apply Qle_bool_iff in H. congruence. }
  destruct (String.eqb_spec (Sync._calculate_file_hash rt f)
              (Sync.file_hash last)) as [Eh|Eh]; cbn [negb fst].
  - split; [|split].
    + split; [intros _|reflexivity]. split; [exact Es|]. split; [exact En|].
      now right.
    + intros H. contradiction.
    + intros H. contradiction.
  - split; [|split]; try reflexivity.
    split; [discriminate|]. intros [_ [_ [H|H]]]; contradiction.
Qed.

(** C1 (amended): for an existing source file with a recorded snapshot,
    [file_needs_sync] answers true whenever the size differs, and whenever
    the content hash differs while the modification time differs from the
    recorded one by more than one second; it answers false exactly when
    the size matches, the recorded row count is not zero, and either the
    modification time is within one second of the recorded one (the
    content hash is then not consulted) or the content hash matches. *)
Theorem file_needs_sync_spec (filepath : string) (s : Sync.State)
  (f : Sync.FileStat) (last : Sync.SyncInfo) :
  Sync.os_stat env filepath = Some f ->
  Sync.fault env Sync.SelectSyncInfo = None ->
  Sync.fetch_last_sync (Sync.work (Sync.conn s)) filepath = Some last ->
  let size_same := Sync.st_size f = Sync.file_size last in
  let date_close :=
    (Qabs (Sync.st_mtime f - Sync.last_modified last) <= 1)%Q in
  let hash_same := Sync._calculate_file_hash rt f = Sync.file_hash last in
  exists (s' : Sync.State) (needs_sync : bool) (reason : Sync.Reason),
    Sync.file_needs_sync rt env filepath s = (s', Ok (needs_sync, reason))
    /\ Sync.work (Sync.conn s') = Sync.work (Sync.conn s)
    /\ Sync.disk (Sync.conn s') = Sync.disk (Sync.conn s)
    /\ (needs_sync = false
        <-> size_same /\ Sync.nb_lignes last <> 0
            /\ (date_close \/ hash_same))
    /\ (~ size_same -> needs_sync = true)
    /\ (~ hash_same -> ~ date_close -> needs_sync = true).
Proof.
  intros Hstat Hfault Hlast size_same date_close hash_same.
  unfold Sync.file_needs_sync, Sync.bind, Sync.execute, Sync.ret.
  rewrite Hstat, Hfault, Hlast.
  destruct (Sync.verdict rt f (Some last)) as [needs reason] eqn:Ev.
  eexists _, needs, reason. split; [reflexivity|].
  split; [reflexivity|]. split; [reflexivity|].
  pose proof (verdict_spec f last) as Hv. cbv zeta in Hv.
  rewrite Ev in Hv. exact Hv.
Qed.

End SyncFacts.

(** The hypotheses of C1 hold on the cache of "abc" and the file rewritten
    to "abd". *)
Lemma file_needs_sync_witness :
  exists (s' : Sync.State) (needs_sync : bool) (reason : Sync.Reason),
    Sync.file_needs_sync Sample.runtime Sample.env_abd "factures.xlsx"
      Sample.state_abc = (s', Ok (needs_sync, reason)).
Proof.
  destruct (file_needs_sync_spec Sample.runtime Sample.env_abd "factures.xlsx"
              Sample.state_abc Sample.file_abd
              Sample.snapshot_abc
              eq_refl eq_refl eq_refl)
    as (s' & needs & reason & H & _).
  now exists s', needs, reason.
Defined.

(** The counterexample to C1 as stated: the file was rewritten from "abc"
    to "abd" with its size and modification time kept; the content hash
    differs from the recorded one, and [file_needs_sync] answers false. *)
Lemma file_needs_sync_misses_content :
  Sync.file_needs_sync Sample.runtime Sample.env_abd "factures.xlsx"
    Sample.state_abc = (Sample.state_abc, Ok (false, Sync.Inchange))
  /\ Sync.fetch_last_sync Sample.tables_abc "factures.xlsx"
     = Some Sample.snapshot_abc
  /\ Sync.st_size Sample.file_abd = Sync.file_size Sample.snapshot_abc
  /\ String.eqb (Sync._calculate_file_hash Sample.runtime Sample.file_abd)
       (Sync.file_hash Sample.snapshot_abc) = false.
Proof. repeat split. Qed.

(** ** The tables under the statements of a synchronisation *)

Lemma add_nb_unchanged_0 (st : Sync.Stats) : Sync.add_nb_unchanged 0 st = st.
Proof. destruct st. unfold Sync.add_nb_unchanged. simpl. f_equal. lia. Qed.

Lemma add_nb_unchanged_add (j k : Z) (st : Sync.Stats) :
  Sync.add_nb_unchanged k (Sync.add_nb_unchanged j st)
  = Sync.add_nb_unchanged (j + k) st.
Proof. unfold Sync.add_nb_unchanged. simpl. f_equal. lia. Qed.

Lemma fold_set_add_In (l : list string) (acc : set string) (h : string) :
  In h (fold_left (fun a x => set_add string_dec x a) l acc)
  <-> In h acc \/ In h l.
Proof.
  revert acc. induction l as [|x r IH]; intros acc; simpl.
  - tauto.
  - rewrite IH. split.
    + intros [H|H]; [|tauto]. apply set_add_elim in H. destruct H; subst; tauto.
    + intros [H|[H|H]].
      * left. now apply set_add_intro1.
      * left. subst. now apply set_add_intro2.
      * now right.
Qed.

Lemma fold_set_add_NoDup (l : list string) (acc : set string) :
  NoDup acc -> NoDup (fold_left (fun a x => set_add string_dec x a) l acc).
Proof.
  revert acc. induction l as [|x r IH]; intros acc H; simpl; [exact H|].
  apply IH. now apply set_add_nodup.
Qed.

Lemma select_hashes_fold (t : Sync.Tables) :
  Sync.select_hashes t
  = fold_left (fun a x => set_add string_dec x a) (Sync.stored_hashes t) (empty_set string).
Proof.
  unfold Sync.select_hashes, Sync.stored_hashes.
  generalize (empty_set string).
  induction (Sync.lignes_factures t) as [|l r IH]; intros acc; simpl;
    [reflexivity | apply IH].
Qed.

Lemma select_hashes_In (t : Sync.Tables) (h : string) :
  In h (Sync.select_hashes t) <-> In h (Sync.stored_hashes t).
Proof.
  rewrite select_hashes_fold, fold_set_add_In. simpl. tauto.
Qed.

Lemma select_hashes_NoDup (t : Sync.Tables) : NoDup (Sync.select_hashes t).
Proof. rewrite select_hashes_fold. apply fold_set_add_NoDup. constructor. Qed.

Lemma set_mem_In (h : string) (l : set string) :
  set_mem string_dec h l = true <-> In h l.
Proof.
  split; [apply set_mem_correct1 | apply set_mem_correct2].
Qed.

Lemma set_mem_ext (h : string) (l l' : set string) :
  (forall x, In x l <-> In x l') ->
  set_mem string_dec h l = set_mem string_dec h l'.
Proof.
  intros H. destruct (set_mem string_dec h l') eqn:E.
  - apply set_mem_In, H, set_mem_In. exact E.
  - destruct (set_mem string_dec h l) eqn:E'; [|reflexivity].
    apply set_mem_In, H, set_mem_In in E'. congruence.
Qed.

(** One [INSERT OR REPLACE]. *)
Lemma insert_or_replace_hashes (t : Sync.Tables) (r : Sync.Ligne) (h : string) :
  In h (Sync.stored_hashes (Sync.insert_or_replace t r))
  <-> In h (Sync.stored_hashes t) \/ h = Sync.hash_ligne r.
Proof.
  unfold Sync.stored_hashes, Sync.insert_or_replace. simpl.
  rewrite map_app, in_app_iff. simpl. split.
  - intros [H|[H|[]]]; [|now right].
    apply in_map_iff in H. destruct H as [l [<- H]].
    apply filter_In in H. left. apply in_map. tauto.
  - intros [H|H]; [|now right; left].
    destruct (String.eqb_spec h (Sync.hash_ligne r)) as [E|E]; [now right; left|].
    left. apply in_map_iff in H. destruct H as [l [<- H]].
    apply in_map, filter_In. split; [exact H|].
    apply negb_true_iff. now apply String.eqb_neq.
Qed.

Lemma insert_or_replace_keeps (t : Sync.Tables) (r l : Sync.Ligne) :
  In l (Sync.lignes_factures t) -> Sync.hash_ligne l <> Sync.hash_ligne r ->
  In l (Sync.lignes_factures (Sync.insert_or_replace t r)).
Proof.
  intros Hin Hne. unfold Sync.insert_or_replace. simpl.
  apply in_app_iff. left. apply filter_In. split; [exact Hin|].
  apply negb_true_iff. now apply String.eqb_neq.
Qed.

Lemma insert_or_replace_NoDup (t : Sync.Tables) (r : Sync.Ligne) :
  NoDup (Sync.stored_hashes t) -> NoDup (Sync.stored_hashes (Sync.insert_or_replace t r)).
Proof.
  unfold Sync.stored_hashes, Sync.insert_or_replace. simpl. intros H.
  rewrite map_app. simpl.
  apply NoDup_app.
  - induction (Sync.lignes_factures t) as [|l ls IH]; simpl; [constructor|].
    inversion H as [|? ? Hnotin Hnd]; subst.
    destruct (negb (Sync.hash_ligne l =? Sync.hash_ligne r)%string); [|now apply IH].
    simpl. constructor; [|now apply IH].
    intros Hin. apply Hnotin. apply in_map_iff in Hin.
    destruct Hin as [l' [E Hl']]. apply filter_In in Hl'.
    rewrite <- E. apply in_map. tauto.
  - repeat constructor. intros [].
  - intros h Hin [<-|[]]. apply in_map_iff in Hin.
    destruct Hin as [l [E Hl]]. apply filter_In in Hl. destruct Hl as [_ Hl].
    apply negb_true_iff, String.eqb_neq in Hl. congruence.
Qed.

(** The [executemany] of [INSERT OR REPLACE]. *)
Lemma insert_many_hashes (rows : list Sync.Ligne) (t : Sync.Tables) (h : string) :
  In h (Sync.stored_hashes (fold_left Sync.insert_or_replace rows t))
  <-> In h (Sync.stored_hashes t) \/ In h (map Sync.hash_ligne rows).
Proof.
  revert t. induction rows as [|r rs IH]; intros t; simpl; [tauto|].
  rewrite IH, insert_or_replace_hashes. intuition auto.
Qed.

Lemma insert_many_keeps (rows : list Sync.Ligne) (t : Sync.Tables)
  (l : Sync.Ligne) :
  In l (Sync.lignes_factures t) ->
  ~ In (Sync.hash_ligne l) (map Sync.hash_ligne rows) ->
  In l (Sync.lignes_factures (fold_left Sync.insert_or_replace rows t)).
Proof.
  revert t. induction rows as [|r rs IH]; intros t Hin Hnot; simpl; [exact Hin|].
  simpl in Hnot. apply IH; [|tauto].
  apply insert_or_replace_keeps; [exact Hin|]. intros E. apply Hnot. now left.
Qed.

Lemma insert_many_NoDup (rows : list Sync.Ligne) (t : Sync.Tables) :
  NoDup (Sync.stored_hashes t) -> NoDup (Sync.stored_hashes (fold_left Sync.insert_or_replace rows t)).
Proof.
  revert t. induction rows as [|r rs IH]; intros t H; simpl; [exact H|].
  apply IH. now apply insert_or_replace_NoDup.
Qed.

Lemma insert_many_sync_info (rows : list Sync.Ligne) (t : Sync.Tables) :
  Sync.sync_info (fold_left Sync.insert_or_replace rows t) = Sync.sync_info t.
Proof.
  revert t. induction rows as [|r rs IH]; intros t; simpl; [reflexivity|].
  now rewrite IH.
Qed.

(** The [DELETE]. *)
Lemma delete_hashes_In (hs : set string) (t : Sync.Tables) (l : Sync.Ligne) :
  In l (Sync.lignes_factures (Sync.delete_hashes hs t))
  <-> In l (Sync.lignes_factures t) /\ ~ In (Sync.hash_ligne l) hs.
Proof.
  unfold Sync.delete_hashes. simpl. rewrite filter_In, negb_true_iff.
  split; intros [H1 H2]; split; try exact H1.
  - intros H. apply set_mem_In in H. congruence.
  - destruct (set_mem string_dec (Sync.hash_ligne l) hs) eqn:E; [|reflexivity].
    apply set_mem_In in E. contradiction.
Qed.

Lemma delete_hashes_NoDup (hs : set string) (t : Sync.Tables) :
  NoDup (Sync.stored_hashes t) -> NoDup (Sync.stored_hashes (Sync.delete_hashes hs t)).
Proof.
  unfold Sync.stored_hashes, Sync.delete_hashes. simpl.
  induction (Sync.lignes_factures t) as [|l ls IH]; simpl; intros H;
    [constructor|].
  inversion H as [|? ? Hnotin Hnd]; subst.
  destruct (negb (set_mem string_dec (Sync.hash_ligne l) hs)); [|now apply IH].
  simpl. constructor; [|now apply IH].
  intros Hin. apply Hnotin. apply in_map_iff in Hin.
  destruct Hin as [l' [E Hl']]. apply filter_In in Hl'.
  rewrite <- E. apply in_map. tauto.
Qed.

Lemma delete_hashes_nil (t : Sync.Tables) : Sync.delete_hashes [] t = t.
Proof.
  destruct t as [ls sq si]. unfold Sync.delete_hashes. simpl. f_equal.
  induction ls as [|l r IH]; simpl; [reflexivity | now rewrite IH].
Qed.

(** The [INSERT INTO sync_info], and the row fetched after it. *)
Lemma fetch_best_In (filepath : string) (l : list Sync.SyncInfo)
  (best0 : option Sync.SyncInfo) (b : Sync.SyncInfo) :
  fold_left
    (fun best r =>
       if String.eqb (Sync.fichier_path r) filepath then
         match best with
         | Some b => if Sync.si_id b <? Sync.si_id r then Some r else best
         | None => Some r
         end
       else best) l best0 = Some b ->
  best0 = Some b \/ In b l.
Proof.
  revert best0. induction l as [|r rs IH]; intros best0 H; simpl in H.
  - now left.
  - apply IH in H. destruct H as [H|H]; [|right; now right].
    destruct (String.eqb (Sync.fichier_path r) filepath); [|now left].
    destruct best0 as [b0|].
    + destruct (Sync.si_id b0 <? Sync.si_id r).
      * injection H as <-. right. now left.
      * now left.
    + injection H as <-. right. now left.
Qed.

Lemma max_id_ge (l : list Sync.SyncInfo) (m0 : Z) :
  m0 <= fold_left (fun m x => Z.max m (Sync.si_id x)) l m0
  /\ forall b, In b l ->
       Sync.si_id b <= fold_left (fun m x => Z.max m (Sync.si_id x)) l m0.
Proof.
  revert m0. induction l as [|r rs IH]; intros m0; simpl.
  - split; [lia | intros b []].
  - destruct (IH (Z.max m0 (Sync.si_id r))) as [H1 H2]. split; [lia|].
    intros b [<-|Hb]; [lia | now apply H2].
Qed.

(** After the [INSERT], the last row of the path is the row inserted. *)
Lemma fetch_last_after_insert (r : Sync.SyncInfo) (t : Sync.Tables) :
  exists r',
    Sync.fetch_last_sync (Sync.insert_sync_info r t) (Sync.fichier_path r)
    = Some r'
    /\ Sync.last_modified r' = Sync.last_modified r
    /\ Sync.file_size r' = Sync.file_size r
    /\ Sync.file_hash r' = Sync.file_hash r
    /\ Sync.nb_lignes r' = Sync.nb_lignes r.
Proof.
  unfold Sync.fetch_last_sync, Sync.insert_sync_info. simpl.
  rewrite fold_left_app. simpl. rewrite String.eqb_refl.
  match goal with
  | |- context [match ?best with Some _ => _ | None => _ end] =>
      destruct best as [b|] eqn:E
  end.
  - apply fetch_best_In in E. destruct E as [E|E]; [discriminate|].
    destruct (max_id_ge (Sync.sync_info t) 0) as [_ Hmax].
    specialize (Hmax b E).
    assert (Hlt : (Sync.si_id b
                   <? fold_left (fun m x => Z.max m (Sync.si_id x))
                        (Sync.sync_info t) 0 + 1) = true)
      by (apply Z.ltb_lt; lia).
    simpl. rewrite Hlt. eexists. split; [reflexivity|]. simpl. repeat split.
  - eexists. split; [reflexivity|]. simpl. repeat split.
Qed.

Section SyncRun.
Variable rt : Runtime.
Variable env : Sync.Env.

Let row_hash := Sync._calculate_row_hash rt.

Lemma row_data_hash (h : string) (row : Sync.Series) (d : Sync.Ligne) :
  Sync.row_data rt h row = Ok d -> Sync.hash_ligne d = h.
Proof.
  unfold Sync.row_data.
  destruct (Sync.real_field rt row "montant_initial"); [|discriminate].
  destruct (Sync.real_field rt row "montant_sf"); [|discriminate].
  destruct (Sync.real_field rt row "montant_ttc"); [|discriminate].
  intros [= <-]. reflexivity.
Qed.

(** The loop leaves the connection alone, whatever its outcome. *)
Lemma scan_rows_conn (ex : set string) (df : list Sync.Series)
  (nh : set string) (rows : list Sync.Ligne) (s s' : Sync.State)
  (r : result (set string * list Sync.Ligne)) :
  Sync.scan_rows rt ex df nh rows s = (s', r) -> Sync.conn s' = Sync.conn s.
Proof.
  revert nh rows s. induction df as [|row rest IH]; intros nh rows s; simpl.
  - unfold Sync.ret. now intros [= <- _].
  - unfold Sync.bind at 1, Sync.lift.
    destruct (Sync.row_data rt _ row) as [d|msg]; [|now intros [= <- _]].
    destruct (set_mem string_dec _ ex).
    + unfold Sync.bind, Sync.update_stats. intros H. apply IH in H.
      exact H.
    + apply IH.
Qed.

(** What the loop has gathered when it ends. *)
Lemma scan_rows_ok (ex : set string) (df : list Sync.Series)
  (nh : set string) (rows : list Sync.Ligne) (s s' : Sync.State)
  (nh' : set string) (rows' : list Sync.Ligne) :
  Sync.scan_rows rt ex df nh rows s = (s', Ok (nh', rows')) ->
  nh' = fold_left (fun a x => set_add string_dec x a) (map row_hash df) nh
  /\ map Sync.hash_ligne rows'
     = map Sync.hash_ligne rows
       ++ filter (fun h => negb (set_mem string_dec h ex)) (map row_hash df)
  /\ Sync.stats s'
     = Sync.add_nb_unchanged
         (Z.of_nat (List.length
                      (filter (fun h => set_mem string_dec h ex)
                         (map row_hash df))))
         (Sync.stats s).
Proof.
  revert nh rows s. induction df as [|row rest IH]; intros nh rows s; simpl.
  - unfold Sync.ret. intros [= <- <- <-].
    rewrite app_nil_r, add_nb_unchanged_0. repeat split.
  - unfold Sync.bind at 1, Sync.lift. fold (row_hash row).
    destruct (Sync.row_data rt (row_hash row) row) as [d|msg] eqn:Ed;
      [|discriminate].
    apply row_data_hash in Ed.
    destruct (set_mem string_dec (row_hash row) ex) eqn:Emem; simpl negb;
      cbv iota.
    + unfold Sync.bind, Sync.update_stats. intros H. apply IH in H.
      destruct H as [-> [-> ->]]. simpl Sync.stats.
      rewrite add_nb_unchanged_add. repeat split.
      f_equal. simpl List.length. lia.
    + intros H. apply IH in H. destruct H as [-> [-> ->]].
      repeat split. rewrite map_app, <- app_assoc. simpl. now rewrite Ed.
Qed.

(** The loop ends when every row converts. *)
Lemma scan_rows_runs (ex : set string) (df : list Sync.Series)
  (nh : set string) (rows : list Sync.Ligne) (s : Sync.State) :
  Forall (fun row => exists d, Sync.row_data rt (row_hash row) row = Ok d) df ->
  exists s' out, Sync.scan_rows rt ex df nh rows s = (s', Ok out).
Proof.
  intros H. revert nh rows s.
  induction H as [|row rest [d Hd] _ IH]; intros nh rows s; simpl.
  - now eexists _, _.
  - unfold Sync.bind at 1, Sync.lift. fold (row_hash row). rewrite Hd.
    destruct (set_mem string_dec (row_hash row) ex).
    + unfold Sync.bind, Sync.update_stats. apply IH.
    + apply IH.
Qed.

End SyncRun.

Section SyncOutcome.
Variable rt : Runtime.
Variable env : Sync.Env.

Let row_hash := Sync._calculate_row_hash rt.

Lemma commit_ok (s s' : Sync.State) (u : unit) :
  Sync.commit env s = (s', Ok u) ->
  Sync.work (Sync.conn s') = Sync.work (Sync.conn s)
  /\ Sync.disk (Sync.conn s') = Sync.work (Sync.conn s)
  /\ Sync.stats s' = Sync.stats s.
Proof.
  unfold Sync.commit. destruct (Sync.fault env Sync.Commit); [discriminate|].
  intros [= <-]. repeat split.
Qed.

Lemma commit_raise (s s' : Sync.State) (msg : string) :
  Sync.commit env s = (s', Raise msg) -> s' = s.
Proof.
  unfold Sync.commit. destruct (Sync.fault env Sync.Commit); [|discriminate].
  now intros [= <-].
Qed.

(** A statement followed by the update of a counter, when there is
    something to do. *)
Lemma guarded_step_ok {A : Type} (items : list A) (op : Sync.Op)
  (run : Sync.Tables -> Sync.Tables) (f : Sync.Stats -> Sync.Stats)
  (s s' : Sync.State) (u : unit) :
  match items with
  | [] => Sync.ret tt
  | _ :: _ =>
      Sync.bind (Sync.execute env op (fun t => (run t, tt)))
        (fun _ => Sync.update_stats f)
  end s = (s', Ok u) ->
  Sync.work (Sync.conn s')
  = match items with
    | [] => Sync.work (Sync.conn s)
    | _ :: _ => run (Sync.work (Sync.conn s))
    end
  /\ Sync.disk (Sync.conn s') = Sync.disk (Sync.conn s)
  /\ Sync.stats s'
     = match items with
       | [] => Sync.stats s
       | _ :: _ => f (Sync.stats s)
       end.
Proof.
  destruct items as [|x xs].
  - unfold Sync.ret. intros [= <-]. repeat split.
  - intros H. apply bind_inv_ok in H. destruct H as (s1 & a & H1 & H2).
    apply execute_ok in H1. destruct H1 as (_ & _ & Hw & Hd & Hs).
    unfold Sync.update_stats in H2. injection H2 as <-. simpl.
    rewrite Hw, Hd, Hs. repeat split.
Qed.

Lemma guarded_step_raise {A : Type} (items : list A) (op : Sync.Op)
  (run : Sync.Tables -> Sync.Tables) (f : Sync.Stats -> Sync.Stats)
  (s s' : Sync.State) (msg : string) :
  match items with
  | [] => Sync.ret tt
  | _ :: _ =>
      Sync.bind (Sync.execute env op (fun t => (run t, tt)))
        (fun _ => Sync.update_stats f)
  end s = (s', Raise msg) ->
  s' = s.
Proof.
  destruct items as [|x xs].
  - discriminate.
  - intros H. apply bind_inv_raise in H.
    destruct H as [H|(s1 & a & _ & H)].
    + now apply execute_raise in H.
    + discriminate H.
Qed.

(** What a completed run of [sync_changes] has done. *)
Lemma sync_changes_ok (filepath : string) (df : list Sync.Series)
  (w d : Sync.Tables) (s' : Sync.State) (u : unit) :
  Sync.sync_changes rt env filepath df
    {| Sync.conn := {| Sync.work := w; Sync.disk := d |};
       Sync.stats := Sync.initial_stats |} = (s', Ok u) ->
  let ex := Sync.select_hashes w in
  let nh := fold_left (fun a x => set_add string_dec x a) (map row_hash df)
              (empty_set string) in
  let del := set_diff string_dec ex nh in
  exists rows : list Sync.Ligne,
    map Sync.hash_ligne rows
    = filter (fun h => negb (set_mem string_dec h ex)) (map row_hash df)
    /\ Sync.work (Sync.conn s')
       = Sync.insert_sync_info
           (Sync.sync_info_row rt env filepath df (Sync.stats s'))
           (Sync.delete_hashes del (fold_left Sync.insert_or_replace rows w))
    /\ Sync.disk (Sync.conn s') = Sync.work (Sync.conn s')
    /\ Sync.status (Sync.stats s') = "success"
    /\ Sync.nb_unchanged (Sync.stats s')
       = Z.of_nat (List.length
                     (filter (fun h => set_mem string_dec h ex)
                        (map row_hash df)))
    /\ Sync.nb_inserted (Sync.stats s') = Z.of_nat (List.length rows)
    /\ Sync.nb_deleted (Sync.stats s') = Z.of_nat (List.length del).
Proof.
  intros H ex nh del. unfold Sync.sync_changes in H.
  apply bind_inv_ok in H. destruct H as (sA & ex' & HA & H).
  apply execute_ok in HA. simpl in HA.
  destruct HA as (_ & -> & HwA & HdA & HsA). fold ex in H.
  apply bind_inv_ok in H. destruct H as (sB & [nh' rows] & HB & H).
  pose proof (scan_rows_conn _ _ _ _ _ _ _ _ HB) as HcB.
  apply scan_rows_ok in HB. fold row_hash in HB. simpl in HB.
  destruct HB as (-> & Hrows & HsB). fold nh in H.
  cbn [fst snd] in H. fold del in H.
  apply bind_inv_ok in H. destruct H as (sC & uC & HC & H).
  apply guarded_step_ok in HC. destruct HC as (HwC & HdC & HsC).
  apply bind_inv_ok in H. destruct H as (sD & uD & HD & H).
  apply guarded_step_ok in HD. destruct HD as (HwD & HdD & HsD).
  apply bind_inv_ok in H. destruct H as (sD' & st & Hst & H).
  unfold Sync.get_stats in Hst. injection Hst as <- <-.
  apply bind_inv_ok in H. destruct H as (sE & uE & HE & H).
  apply execute_ok in HE. simpl in HE. destruct HE as (_ & _ & HwE & HdE & HsE).
  apply commit_ok in H. destruct H as (Hw' & Hd' & Hs').
  exists rows. split; [exact Hrows|].
  assert (HworkD : Sync.work (Sync.conn sD)
                   = Sync.delete_hashes del
                       (fold_left Sync.insert_or_replace rows w)).
  { rewrite HwD.
    assert (HworkC : Sync.work (Sync.conn sC)
                     = fold_left Sync.insert_or_replace rows w).
    { rewrite HwC, HcB, HwA. now destruct rows. }
    rewrite HworkC. destruct del; [now rewrite delete_hashes_nil | reflexivity]. }
  split; [now rewrite Hw', HwE, Hs', HsE, HworkD|].
  split; [now rewrite Hd', Hw'|].
  rewrite Hs', HsE, HsD, HsC, HsB, HsA.
  destruct rows, del; simpl; repeat split; lia.
Qed.

(** A run of [sync_changes] that raises has left the committed tables
    alone. *)
Lemma sync_changes_raise (filepath : string) (df : list Sync.Series)
  (s s' : Sync.State) (msg : string) :
  Sync.sync_changes rt env filepath df s = (s', Raise msg) ->
  Sync.disk (Sync.conn s') = Sync.disk (Sync.conn s).
Proof.
  intros H. unfold Sync.sync_changes in H.
  apply bind_inv_raise in H. destruct H as [H|(sA & ex & HA & H)].
  { apply execute_raise in H. now destruct H as [-> _]. }
  apply execute_ok in HA. destruct HA as (_ & _ & _ & HdA & _).
  rewrite <- HdA. clear HdA.
  apply bind_inv_raise in H. destruct H as [H|(sB & scanned & HB & H)].
  { apply scan_rows_conn in H. now rewrite H. }
  apply scan_rows_conn in HB. rewrite <- HB. clear HB.
  apply bind_inv_raise in H. destruct H as [H|(sC & uC & HC & H)].
  { apply guarded_step_raise in H. now subst. }
  apply guarded_step_ok in HC. destruct HC as (_ & HdC & _).
  rewrite <- HdC. clear HdC.
  apply bind_inv_raise in H. destruct H as [H|(sD & uD & HD & H)].
  { apply guarded_step_raise in H. now subst. }
  apply guarded_step_ok in HD. destruct HD as (_ & HdD & _).
  rewrite <- HdD. clear HdD.
  apply bind_inv_raise in H. destruct H as [H|(sD' & st & Hst & H)].
  { discriminate H. }
  unfold Sync.get_stats in Hst. injection Hst as <- <-.
  apply bind_inv_raise in H. destruct H as [H|(sE & uE & HE & H)].
  { apply execute_raise in H. now destruct H as [-> _]. }
  apply execute_ok in HE. destruct HE as (_ & _ & _ & HdE & _).
  rewrite <- HdE. apply commit_raise in H. now subst.
Qed.

End SyncOutcome.

Section SyncBody.
Variable rt : Runtime.
Variable env : Sync.Env.

Let row_hash := Sync._calculate_row_hash rt.

(** [file_needs_sync] reads and leaves the state as it was. *)
Lemma file_needs_sync_run (filepath : string) (s s' : Sync.State)
  (r : result (bool * Sync.Reason)) :
  Sync.file_needs_sync rt env filepath s = (s', r) ->
  Sync.work (Sync.conn s') = Sync.work (Sync.conn s)
  /\ Sync.disk (Sync.conn s') = Sync.disk (Sync.conn s)
  /\ Sync.stats s' = Sync.stats s
  /\ r = match Sync.os_stat env filepath with
         | None => Ok (true, Sync.FichierIntrouvable)
         | Some f =>
             match Sync.fault env Sync.SelectSyncInfo with
             | Some msg => Raise msg
             | None =>
                 Ok (Sync.verdict rt f
                       (Sync.fetch_last_sync (Sync.work (Sync.conn s)) filepath))
             end
         end.
Proof.
  unfold Sync.file_needs_sync.
  destruct (Sync.os_stat env filepath) as [f|].
  - unfold Sync.bind, Sync.execute, Sync.ret.
    destruct (Sync.fault env Sync.SelectSyncInfo); intros [= <- <-];
      repeat split.
  - unfold Sync.ret. intros [= <- <-]. repeat split.
Qed.

(** A completed run of the body either skipped an unchanged file or went
    through [sync_changes]. *)
Lemma sync_body_ok (filepath : string) (df : list Sync.Series) (force : bool)
  (w d : Sync.Tables) (s' : Sync.State) (u : unit) :
  Sync.sync_body rt env filepath df force
    {| Sync.conn := {| Sync.work := w; Sync.disk := d |};
       Sync.stats := Sync.initial_stats |} = (s', Ok u) ->
  (force = false
   /\ Sync.work (Sync.conn s') = w /\ Sync.disk (Sync.conn s') = d
   /\ exists f reason,
        Sync.os_stat env filepath = Some f
        /\ Sync.fault env Sync.SelectSyncInfo = None
        /\ Sync.verdict rt f (Sync.fetch_last_sync w filepath) = (false, reason)
        /\ Sync.stats s'
           = Sync.set_status "skipped" (Sync.MsgReason reason)
               Sync.initial_stats)
  \/ Sync.sync_changes rt env filepath df
       {| Sync.conn := {| Sync.work := w; Sync.disk := d |};
          Sync.stats := Sync.initial_stats |} = (s', Ok u).
Proof.
  intros H. unfold Sync.sync_body in H.
  apply bind_inv_ok in H. destruct H as (s1 & skipped & H1 & H).
  destruct force; simpl negb in H1; cbv iota in H1.
  { unfold Sync.ret in H1. injection H1 as <- <-. now right. }
  apply bind_inv_ok in H1. destruct H1 as (s2 & r & H2 & H1).
  apply file_needs_sync_run in H2. simpl in H2.
  destruct H2 as (Hw & Hd & Hs & Hr).
  assert (Es2 : s2 = {| Sync.conn := {| Sync.work := w; Sync.disk := d |};
                        Sync.stats := Sync.initial_stats |}).
  { destruct s2 as [[w2 d2] st2]. simpl in *. now subst. }
  subst s2. destruct r as [needs reason]. simpl fst in H1. simpl snd in H1.
  destruct needs; simpl negb in H1; cbv iota in H1.
  { unfold Sync.ret in H1. injection H1 as <- <-. now right. }
  unfold Sync.bind, Sync.update_stats, Sync.ret in H1. simpl in H1.
  injection H1 as <- <-. unfold Sync.ret in H. injection H as <-.
  left. simpl. split; [reflexivity|]. split; [reflexivity|].
  split; [reflexivity|].
  destruct (Sync.os_stat env filepath) as [f|]; [|discriminate].
  destruct (Sync.fault env Sync.SelectSyncInfo); [discriminate|].
  injection Hr as Hv. exists f, reason. repeat split. now symmetry.
Qed.

(** A run of the body that raises has left the committed tables alone. *)
Lemma sync_body_raise (filepath : string) (df : list Sync.Series)
  (force : bool) (s s' : Sync.State) (msg : string) :
  Sync.sync_body rt env filepath df force s = (s', Raise msg) ->
  Sync.disk (Sync.conn s') = Sync.disk (Sync.conn s).
Proof.
  intros H. unfold Sync.sync_body in H.
  apply bind_inv_raise in H. destruct H as [H|(s1 & skipped & H1 & H)].
  - destruct force; simpl negb in H; cbv iota in H; [discriminate|].
    apply bind_inv_raise in H. destruct H as [H|(s2 & r & H2 & H)].
    + apply file_needs_sync_run in H. tauto.
    + destruct (negb (fst r)); discriminate H.
  - assert (Hd1 : Sync.disk (Sync.conn s1) = Sync.disk (Sync.conn s)).
    { destruct force; simpl negb in H1; cbv iota in H1.
      - unfold Sync.ret in H1. now injection H1 as <- _.
      - apply bind_inv_ok in H1. destruct H1 as (s2 & r & H2 & H1).
        apply file_needs_sync_run in H2. destruct H2 as (_ & Hd & _).
        destruct (negb (fst r)).
        + unfold Sync.bind, Sync.update_stats, Sync.ret in H1.
          injection H1 as <- _. exact Hd.
        + unfold Sync.ret in H1. now injection H1 as <- _. }
    destruct skipped; [discriminate|].
    apply sync_changes_raise in H. congruence.
Qed.

(** The body skips a file on which the verdict is "unchanged". *)
Lemma sync_body_skips (filepath : string) (df : list Sync.Series)
  (w d : Sync.Tables) (f : Sync.FileStat) (reason : Sync.Reason) :
  Sync.os_stat env filepath = Some f ->
  Sync.fault env Sync.SelectSyncInfo = None ->
  Sync.verdict rt f (Sync.fetch_last_sync w filepath) = (false, reason) ->
  Sync.sync_body rt env filepath df false
    {| Sync.conn := {| Sync.work := w; Sync.disk := d |};
       Sync.stats := Sync.initial_stats |}
  = ({| Sync.conn := {| Sync.work := w; Sync.disk := d |};
        Sync.stats := Sync.set_status "skipped" (Sync.MsgReason reason)
                        Sync.initial_stats |}, Ok tt).
Proof.
  intros Hstat Hfault Hv.
  unfold Sync.sync_body, Sync.file_needs_sync, Sync.bind, Sync.execute,
    Sync.ret, Sync.update_stats.
  simpl. rewrite Hstat, Hfault. simpl. rewrite Hv. reflexivity.
Qed.

(** With a quiet database and rows that convert, [sync_changes] runs to
    its end. *)
Lemma sync_changes_runs (filepath : string) (df : list Sync.Series)
  (s : Sync.State) :
  (forall op, Sync.fault env op = None) ->
  Forall (fun row => exists d, Sync.row_data rt (row_hash row) row = Ok d) df ->
  exists s', Sync.sync_changes rt env filepath df s = (s', Ok tt).
Proof.
  intros Hq Hdf. unfold Sync.sync_changes.
  unfold Sync.bind at 1, Sync.execute at 1. rewrite Hq.
  destruct (scan_rows_runs rt (Sync.select_hashes (Sync.work (Sync.conn s))) df
              (empty_set string) []
              {| Sync.conn := {| Sync.work := Sync.work (Sync.conn s);
                                 Sync.disk := Sync.disk (Sync.conn s) |};
                 Sync.stats := Sync.stats s |} Hdf)
    as (sB & [nh rows] & HB).
  unfold Sync.bind at 1. rewrite HB. cbn [fst snd].
  unfold Sync.bind at 1.
  assert (Hstep : forall (A : Type) (items : list A) op run g s0,
            exists s1,
              match items with
              | [] => Sync.ret tt
              | _ :: _ =>
                  Sync.bind (Sync.execute env op (fun t => (run t, tt)))
                    (fun _ => Sync.update_stats g)
              end s0 = (s1, Ok tt)).
  { intros A items op run g s0. destruct items.
    - now eexists.
    - unfold Sync.bind, Sync.execute, Sync.update_stats. rewrite Hq.
      now eexists. }
  match goal with
  | |- context [match rows with [] => _ | _ :: _ => _ end ?s0] =>
      destruct (Hstep _ rows Sync.InsertLignes
                  (fun t => fold_left Sync.insert_or_replace rows t)
                  (Sync.set_nb_inserted (Z.of_nat (List.length rows))) s0)
        as (sC & HC)
  end.
  rewrite HC. unfold Sync.bind at 1.
  match goal with
  | |- context [match ?del with [] => _ | _ :: _ => _ end sC] =>
      destruct (Hstep _ del Sync.DeleteLignes
                  (fun t => Sync.delete_hashes del t)
                  (Sync.set_nb_deleted (Z.of_nat (List.length del))) sC)
        as (sD & HD)
  end.
  rewrite HD.
  unfold Sync.bind, Sync.get_stats, Sync.execute, Sync.commit.
  rewrite !Hq. now eexists.
Qed.

End SyncBody.

(** ** The table after a synchronisation *)

Section AfterSync.
Variable w : Sync.Tables.
Variable dfh : list string.
Variable rows : list Sync.Ligne.
Variable snapshot : Sync.SyncInfo.

Let ex := Sync.select_hashes w.
Let nh := fold_left (fun a x => set_add string_dec x a) dfh (empty_set string).
Let del := set_diff string_dec ex nh.
Let after :=
  Sync.insert_sync_info snapshot
    (Sync.delete_hashes del (fold_left Sync.insert_or_replace rows w)).

Hypothesis rows_new :
  map Sync.hash_ligne rows
  = filter (fun h => negb (set_mem string_dec h ex)) dfh.

Lemma nh_In (h : string) : In h nh <-> In h dfh.
Proof. unfold nh. rewrite fold_set_add_In. simpl. tauto. Qed.

Lemma del_In (h : string) :
  In h del <-> In h (Sync.stored_hashes w) /\ ~ In h dfh.
Proof.
  unfold del. rewrite set_diff_iff, nh_In. unfold ex.
  now rewrite select_hashes_In.
Qed.

Lemma rows_In (h : string) :
  In h (map Sync.hash_ligne rows)
  <-> In h dfh /\ ~ In h (Sync.stored_hashes w).
Proof.
  rewrite rows_new, filter_In, negb_true_iff. unfold ex. split.
  - intros [H1 H2]. split; [exact H1|]. intros H.
    apply select_hashes_In, set_mem_In in H. congruence.
  - intros [H1 H2]. split; [exact H1|].
    destruct (set_mem string_dec h (Sync.select_hashes w)) eqn:E; [|reflexivity].
    apply set_mem_In, select_hashes_In in E. contradiction.
Qed.

(** The table holds the hashes of the incoming rows, and no other. *)
Lemma after_hashes (h : string) :
  In h (Sync.stored_hashes after) <-> In h dfh.
Proof.
  unfold after, Sync.stored_hashes. simpl. rewrite in_map_iff. split.
  - intros [l [<- Hl]]. apply delete_hashes_In in Hl. destruct Hl as [Hl Hnot].
    assert (Hh : In (Sync.hash_ligne l)
                   (Sync.stored_hashes (fold_left Sync.insert_or_replace rows w)))
      by (now apply in_map).
    apply insert_many_hashes in Hh. destruct Hh as [Hh|Hh].
    + destruct (in_dec string_dec (Sync.hash_ligne l) dfh) as [Hd|Hd];
        [exact Hd|].
      exfalso. apply Hnot. apply del_In. now split.
    + apply rows_In in Hh. tauto.
  - intros Hh.
    assert (Hs : In h (Sync.stored_hashes
                         (fold_left Sync.insert_or_replace rows w))).
    { apply insert_many_hashes.
      destruct (in_dec string_dec h (Sync.stored_hashes w)) as [Hw|Hw];
        [now left|].
      right. apply rows_In. now split. }
    apply in_map_iff in Hs. destruct Hs as [l [<- Hl]].
    exists l. split; [reflexivity|]. apply delete_hashes_In.
    split; [exact Hl|]. intros Hd. apply del_In in Hd. tauto.
Qed.

(** A stored row whose hash comes again is left as it was. *)
Lemma after_keeps (l : Sync.Ligne) :
  In l (Sync.lignes_factures w) -> In (Sync.hash_ligne l) dfh ->
  In l (Sync.lignes_factures after).
Proof.
  intros Hl Hh. unfold after. simpl. apply delete_hashes_In. split.
  - apply insert_many_keeps; [exact Hl|].
    intros H. apply rows_In in H. destruct H as [_ H]. apply H.
    unfold Sync.stored_hashes. now apply in_map.
  - intros Hd. apply del_In in Hd. tauto.
Qed.

Lemma after_NoDup :
  NoDup (Sync.stored_hashes w) -> NoDup (Sync.stored_hashes after).
Proof.
  intros H. unfold after.
  change (Sync.stored_hashes (Sync.insert_sync_info snapshot ?t))
    with (Sync.stored_hashes t).
  apply delete_hashes_NoDup. now apply insert_many_NoDup.
Qed.

(** The rows deleted are the stored rows whose hash does not come again. *)
Lemma del_length :
  NoDup (Sync.stored_hashes w) ->
  List.length del
  = List.length (filter (fun h => negb (set_mem string_dec h dfh))
                   (Sync.stored_hashes w)).
Proof.
  intros H. apply Permutation_length, NoDup_Permutation.
  - unfold del. apply set_diff_nodup. unfold ex. apply select_hashes_NoDup.
  - now apply NoDup_filter.
  - intros h. rewrite del_In, filter_In, negb_true_iff. split.
    + intros [H1 H2]. split; [exact H1|].
      destruct (set_mem string_dec h dfh) eqn:E; [|reflexivity].
      apply set_mem_In in E. contradiction.
    + intros [H1 H2]. split; [exact H1|]. intros Hd.
      apply set_mem_In in Hd. congruence.
Qed.

Lemma rows_length :
  List.length rows
  = List.length (filter (fun h => negb (set_mem string_dec h
                                          (Sync.stored_hashes w))) dfh).
Proof.
  rewrite <- (length_map Sync.hash_ligne), rows_new. f_equal.
  apply filter_ext. intros h. f_equal. apply set_mem_ext.
  intros x. unfold ex. apply select_hashes_In.
Qed.

Lemma unchanged_length :
  List.length (filter (fun h => set_mem string_dec h ex) dfh)
  = List.length (filter (fun h => set_mem string_dec h
                                    (Sync.stored_hashes w)) dfh).
Proof.
  f_equal. apply filter_ext. intros h. apply set_mem_ext.
  intros x. unfold ex. apply select_hashes_In.
Qed.

End AfterSync.

(** ** Rows and counters through a synchronisation *)

Lemma insert_or_replace_origin (t : Sync.Tables) (r l : Sync.Ligne) :
  In l (Sync.lignes_factures (Sync.insert_or_replace t r)) ->
  In l (Sync.lignes_factures t)
  \/ (Sync.id l = Sync.seq_lignes t + 1 /\ Cache.same_data l r).
Proof.
  unfold Sync.insert_or_replace. simpl. rewrite in_app_iff. simpl.
  intros [H | [<- | []]].
  - left. apply filter_In in H. tauto.
  - right. simpl. repeat split.
Qed.

Lemma insert_or_replace_well_formed (t : Sync.Tables) (r : Sync.Ligne) :
  Cache.well_formed t -> Cache.well_formed (Sync.insert_or_replace t r).
Proof.
  intros (Hh & Hid & Hseq). split; [now apply insert_or_replace_NoDup|].
  unfold Sync.insert_or_replace. simpl.
  assert (Hsub : forall l,
            In l (filter (fun l => negb (String.eqb (Sync.hash_ligne l)
                                           (Sync.hash_ligne r)))
                    (Sync.lignes_factures t)) ->
            In l (Sync.lignes_factures t))
    by (intros l Hl; apply filter_In in Hl; tauto).
  split.
  - rewrite map_app. simpl. apply NoDup_app.
    + clear Hsub. induction (Sync.lignes_factures t) as [|l ls IH]; simpl;
        [constructor|].
      inversion Hid as [|? ? Hnotin Hnd]; subst.
      inversion Hseq as [|? ? _ Hseq']; subst.
      destruct (negb _); [|now apply IH].
      simpl. constructor; [|now apply IH].
      intros Hin. apply Hnotin. apply in_map_iff in Hin.
      destruct Hin as [l' [E Hl']]. apply filter_In in Hl'.
      rewrite <- E. apply in_map. tauto.
    + repeat constructor. intros [].
    + intros i Hin [<- | []]. apply in_map_iff in Hin.
      destruct Hin as [l [E Hl]]. apply Hsub in Hl.
      pose proof (proj1 (Forall_forall _ _) Hseq l Hl) as Hle.
      simpl in Hle. lia.
  - apply Forall_app. split.
    + apply Forall_forall. intros l Hl. apply Hsub in Hl.
      pose proof (proj1 (Forall_forall _ _) Hseq l Hl) as Hle.
      simpl in Hle. lia.
    + repeat constructor. simpl. lia.
Qed.

Lemma insert_many_well_formed (rows : list Sync.Ligne) (t : Sync.Tables) :
  Cache.well_formed t ->
  Cache.well_formed (fold_left Sync.insert_or_replace rows t).
Proof.
  revert t. induction rows as [|r rs IH]; intros t H; simpl; [exact H|].
  apply IH. now apply insert_or_replace_well_formed.
Qed.

Lemma insert_many_seq (rows : list Sync.Ligne) (t : Sync.Tables) :
  Sync.seq_lignes (fold_left Sync.insert_or_replace rows t)
  = Sync.seq_lignes t + Z.of_nat (List.length rows).
Proof.
  revert t. induction rows as [|r rs IH]; intros t; simpl List.length.
  - simpl. lia.
  - simpl fold_left. rewrite IH. simpl. lia.
Qed.

(** Where the rows come from after the [executemany]: from the table, or
    from a row inserted, under an id past the counter. *)
Lemma insert_many_origin (rows : list Sync.Ligne) (t : Sync.Tables)
  (l : Sync.Ligne) :
  In l (Sync.lignes_factures (fold_left Sync.insert_or_replace rows t)) ->
  In l (Sync.lignes_factures t)
  \/ (Sync.seq_lignes t < Sync.id l
      /\ exists r, In r rows /\ Cache.same_data l r).
Proof.
  revert t. induction rows as [|r rs IH]; intros t H; simpl in H; [now left|].
  apply IH in H. destruct H as [H | (Hlt & r' & Hr' & Hsame)].
  - apply insert_or_replace_origin in H. destruct H as [H | [Hid Hsame]].
    + now left.
    + right. split; [lia|]. exists r. split; [now left | exact Hsame].
  - right. simpl in Hlt. split; [lia|].
    exists r'. split; [now right | exact Hsame].
Qed.

Lemma delete_hashes_well_formed (hs : set string) (t : Sync.Tables) :
  Cache.well_formed t -> Cache.well_formed (Sync.delete_hashes hs t).
Proof.
  intros (Hh & Hid & Hseq). split; [now apply delete_hashes_NoDup|].
  unfold Sync.delete_hashes. simpl. split.
  - clear Hh Hseq.
    induction (Sync.lignes_factures t) as [|l ls IH]; simpl; [constructor|].
    inversion Hid as [|? ? Hnotin Hnd]; subst.
    destruct (negb _); [|now apply IH].
    simpl. constructor; [|now apply IH].
    intros Hin. apply Hnotin. apply in_map_iff in Hin.
    destruct Hin as [l' [E Hl']]. apply filter_In in Hl'.
    rewrite <- E. apply in_map. tauto.
  - apply Forall_forall. intros l Hl. apply filter_In in Hl.
    exact (proj1 (Forall_forall _ _) Hseq l (proj1 Hl)).
Qed.

Section Scanned.
Variable rt : Runtime.

(** The rows gathered by the loop are the dictionaries of incoming rows. *)
Lemma scan_rows_data (ex : set string) (df : list Sync.Series)
  (nh : set string) (rows : list Sync.Ligne) (s s' : Sync.State)
  (nh' : set string) (rows' : list Sync.Ligne) :
  Sync.scan_rows rt ex df nh rows s = (s', Ok (nh', rows')) ->
  forall d, In d rows' ->
    In d rows
    \/ exists row, In row df
         /\ Sync.row_data rt (Sync._calculate_row_hash rt row) row = Ok d.
Proof.
  revert nh rows s. induction df as [|row rest IH]; intros nh rows s; simpl.
  - unfold Sync.ret. intros [= <- <- <-] d Hd. now left.
  - unfold Sync.bind at 1, Sync.lift.
    destruct (Sync.row_data rt (Sync._calculate_row_hash rt row) row)
      as [d0|msg] eqn:Ed; [|discriminate].
    destruct (set_mem string_dec (Sync._calculate_row_hash rt row) ex).
    + unfold Sync.bind, Sync.update_stats. intros H d Hd.
      destruct (IH _ _ _ H d Hd) as [Hin | (row' & Hrow' & E)];
        [now left|].
      right. exists row'. split; [now right | exact E].
    + intros H d Hd.
      destruct (IH _ _ _ H d Hd) as [Hin | (row' & Hrow' & E)].
      * apply in_app_or in Hin. destruct Hin as [Hin | [<- | []]];
          [now left|].
        right. exists row. split; [now left | exact Ed].
      * right. exists row'. split; [now right | exact E].
Qed.

End Scanned.

Section Traced.
Variable rt : Runtime.
Variable env : Sync.Env.

Let row_hash := Sync._calculate_row_hash rt.

(** What a completed run of [sync_changes] has done, with the rows
    inserted traced to the incoming rows. *)
Lemma sync_changes_traced (filepath : string) (df : list Sync.Series)
  (w d : Sync.Tables) (s' : Sync.State) (u : unit) :
  Sync.sync_changes rt env filepath df
    {| Sync.conn := {| Sync.work := w; Sync.disk := d |};
       Sync.stats := Sync.initial_stats |} = (s', Ok u) ->
  let ex := Sync.select_hashes w in
  let nh := fold_left (fun a x => set_add string_dec x a) (map row_hash df)
              (empty_set string) in
  let del := set_diff string_dec ex nh in
  exists rows : list Sync.Ligne,
    map Sync.hash_ligne rows
    = filter (fun h => negb (set_mem string_dec h ex)) (map row_hash df)
    /\ (forall r, In r rows ->
          exists row, In row df /\ Sync.row_data rt (row_hash row) row = Ok r)
    /\ Sync.work (Sync.conn s')
       = Sync.insert_sync_info
           (Sync.sync_info_row rt env filepath df (Sync.stats s'))
           (Sync.delete_hashes del (fold_left Sync.insert_or_replace rows w))
    /\ Sync.disk (Sync.conn s') = Sync.work (Sync.conn s')
    /\ Sync.nb_unchanged (Sync.stats s')
       = Z.of_nat (List.length
                     (filter (fun h => set_mem string_dec h ex)
                        (map row_hash df)))
    /\ Sync.nb_inserted (Sync.stats s') = Z.of_nat (List.length rows)
    /\ Sync.nb_deleted (Sync.stats s') = Z.of_nat (List.length del).
Proof.
  intros H ex nh del. unfold Sync.sync_changes in H.
  apply bind_inv_ok in H. destruct H as (sA & ex' & HA & H).
  apply execute_ok in HA. simpl in HA.
  destruct HA as (_ & -> & HwA & HdA & HsA). fold ex in H.
  apply bind_inv_ok in H. destruct H as (sB & [nh' rows] & HB & H).
  pose proof (scan_rows_conn _ _ _ _ _ _ _ _ HB) as HcB.
  pose proof (scan_rows_data _ _ _ _ _ _ _ _ _ HB) as Hdata.
  apply scan_rows_ok in HB. fold row_hash in HB. simpl in HB.
  destruct HB as (-> & Hrows & HsB). fold nh in H.
  cbn [fst snd] in H. fold del in H.
  apply bind_inv_ok in H. destruct H as (sC & uC & HC & H).
  apply guarded_step_ok in HC. destruct HC as (HwC & HdC & HsC).
  apply bind_inv_ok in H. destruct H as (sD & uD & HD & H).
  apply guarded_step_ok in HD. destruct HD as (HwD & HdD & HsD).
  apply bind_inv_ok in H. destruct H as (sD' & st & Hst & H).
  unfold Sync.get_stats in Hst. injection Hst as <- <-.
  apply bind_inv_ok in H. destruct H as (sE & uE & HE & H).
  apply execute_ok in HE. simpl in HE. destruct HE as (_ & _ & HwE & HdE & HsE).
  apply commit_ok in H. destruct H as (Hw' & Hd' & Hs').
  exists rows. split; [exact Hrows|]. split.
  { intros r Hr. destruct (Hdata r Hr) as [[] | Hrow]. exact Hrow. }
  assert (HworkD : Sync.work (Sync.conn sD)
                   = Sync.delete_hashes del
                       (fold_left Sync.insert_or_replace rows w)).
  { rewrite HwD.
    assert (HworkC : Sync.work (Sync.conn sC)
                     = fold_left Sync.insert_or_replace rows w).
    { rewrite HwC, HcB, HwA. now destruct rows. }
    rewrite HworkC. destruct del; [now rewrite delete_hashes_nil | reflexivity]. }
  split; [now rewrite Hw', HwE, Hs', HsE, HworkD|].
  split; [now rewrite Hd', Hw'|].
  rewrite Hs', HsE, HsD, HsC, HsB, HsA.
  destruct rows, del; simpl; repeat split; lia.
Qed.

End Traced.

(** The tables after a synchronisation that went through. *)
Lemma sync_from_excel_success (rt : Runtime) (env : Sync.Env)
  (filepath : string) (df : list Sync.Series) (force : bool) (c : Sync.Conn) :
  Sync.status (snd (Sync.sync_from_excel rt env filepath df force c))
  = "success" ->
  exists rows,
    map Sync.hash_ligne rows
    = filter (fun h => negb (set_mem string_dec h
                               (Sync.select_hashes (Sync.work c))))
        (map (Sync._calculate_row_hash rt) df)
    /\ (forall r, In r rows ->
          exists row, In row df
            /\ Sync.row_data rt (Sync._calculate_row_hash rt row) row = Ok r)
    /\ Sync.work (fst (Sync.sync_from_excel rt env filepath df force c))
       = Sync.insert_sync_info
           (Sync.sync_info_row rt env filepath df
              (snd (Sync.sync_from_excel rt env filepath df force c)))
           (Sync.delete_hashes
              (set_diff string_dec (Sync.select_hashes (Sync.work c))
                 (fold_left (fun a x => set_add string_dec x a)
                    (map (Sync._calculate_row_hash rt) df)
                    (empty_set string)))
              (fold_left Sync.insert_or_replace rows (Sync.work c)))
    /\ Sync.disk (fst (Sync.sync_from_excel rt env filepath df force c))
       = Sync.work (fst (Sync.sync_from_excel rt env filepath df force c))
    /\ Sync.nb_unchanged
         (snd (Sync.sync_from_excel rt env filepath df force c))
       = Z.of_nat (List.length
                     (filter (fun h => set_mem string_dec h
                                         (Sync.select_hashes (Sync.work c)))
                        (map (Sync._calculate_row_hash rt) df)))
    /\ Sync.nb_inserted
         (snd (Sync.sync_from_excel rt env filepath df force c))
       = Z.of_nat (List.length rows)
    /\ Sync.nb_deleted
         (snd (Sync.sync_from_excel rt env filepath df force c))
       = Z.of_nat (List.length
                     (set_diff string_dec (Sync.select_hashes (Sync.work c))
                        (fold_left (fun a x => set_add string_dec x a)
                           (map (Sync._calculate_row_hash rt) df)
                           (empty_set string)))).
Proof.
  unfold Sync.sync_from_excel. destruct c as [w d0].
  destruct (Sync.sync_body rt env filepath df force _) as [s' [u|msg]] eqn:E;
    [|intros H; discriminate H].
  cbn [fst snd Sync.work]. intros Hstatus.
  apply sync_body_ok in E.
  destruct E as [(_ & _ & _ & f & reason & _ & _ & _ & Hs)|E].
  { rewrite Hs in Hstatus. discriminate Hstatus. }
  apply sync_changes_traced in E. exact E.
Qed.

(** A synchronisation that does not go through leaves the committed
    tables alone, and the open transaction is then the committed tables or
    the transaction it found. *)
Lemma sync_from_excel_not_success (rt : Runtime) (env : Sync.Env)
  (filepath : string) (df : list Sync.Series) (force : bool) (c : Sync.Conn) :
  Sync.status (snd (Sync.sync_from_excel rt env filepath df force c))
  <> "success" ->
  Sync.disk (fst (Sync.sync_from_excel rt env filepath df force c))
  = Sync.disk c
  /\ (Sync.work (fst (Sync.sync_from_excel rt env filepath df force c))
      = Sync.work c
      \/ Sync.work (fst (Sync.sync_from_excel rt env filepath df force c))
         = Sync.disk c).
Proof.
  unfold Sync.sync_from_excel. destruct c as [w d0].
  destruct (Sync.sync_body rt env filepath df force _) as [s' [u|msg]] eqn:E;
    cbn [fst snd Sync.work Sync.disk]; intros Hstatus.
  - apply sync_body_ok in E.
    destruct E as [(_ & Hw & Hd & _)|E].
    + split; [exact Hd | now left].
    + apply sync_changes_ok in E. cbv zeta in E.
      destruct E as (rows & _ & _ & _ & Hst & _). contradiction.
  - apply sync_body_raise in E. simpl in E. split; [exact E | now right].
Qed.

(** ** The stored row and the cells of the incoming row *)

Lemma cell_at_get (row : Sync.Series) (key : string) :
  Stated.cell_at key row (Sync.get row key).
Proof.
  unfold Sync.get. induction row as [|[k c] rest IH]; simpl.
  - constructor.
  - destruct (String.eqb_spec k key) as [-> | Hne].
    + constructor.
    + now constructor.
Qed.

Lemma cell_at_unique (row : Sync.Series) (key : string)
  (found : option Cell) :
  Stated.cell_at key row found -> found = Sync.get row key.
Proof.
  unfold Sync.get. induction 1 as [|c rest|k c rest found Hne _ IH]; simpl.
  - reflexivity.
  - now rewrite String.eqb_refl.
  - apply String.eqb_neq in Hne. now rewrite Hne.
Qed.


Lemma text_field_column (rt : Runtime) (row : Sync.Series) (key : string) :
  Stated.text_column rt row key (Sync.text_field rt row key).
Proof.
  exists (Sync.get row key). split; [apply cell_at_get|].
  unfold Sync.text_field.
  destruct (Sync.get row key) as [[|q|s]|]; reflexivity.
Qed.

Lemma real_field_column (rt : Runtime) (row : Sync.Series) (key : string)
  (q : Q) :
  Sync.real_field rt row key = Ok q -> Stated.amount_column rt row key q.
Proof.
  intros H. exists (Sync.get row key). split; [apply cell_at_get|].
  unfold Sync.real_field in H.
  destruct (Sync.get row key) as [[|q'|s]|]; simpl.
  - now injection H as <-.
  - now injection H as <-.
  - exact H.
  - now injection H as <-.
Qed.

(** The dictionary built from an incoming row holds its cells, and so
    does a stored row that carries the values of the dictionary. *)
Lemma row_data_holds (rt : Runtime) (h : string) (row : Sync.Series)
  (d l : Sync.Ligne) :
  Sync.row_data rt h row = Ok d -> Cache.same_data l d ->
  Stated.holds_row rt l row.
Proof.
  unfold Sync.row_data.
  destruct (Sync.real_field rt row "montant_initial") as [mi|] eqn:Ei;
    [|discriminate].
  destruct (Sync.real_field rt row "montant_sf") as [msf|] eqn:Es;
    [|discriminate].
  destruct (Sync.real_field rt row "montant_ttc") as [mttc|] eqn:Et;
    [|discriminate].
  intros [= <-] (_ & Hm & Hf & Hl & Hd & Hn & Hmi & Hms & Hmt & Hma & Htr & Hc).
  simpl in *. unfold Stated.holds_row.
  rewrite Hm, Hf, Hl, Hd, Hn, Hmi, Hms, Hmt, Hma, Htr, Hc.
  repeat split; try apply text_field_column; now apply real_field_column.
Qed.

(** A row whose amounts read as amounts converts. *)
Lemma amounts_convert_row_data (rt : Runtime) (h : string)
  (row : Sync.Series) :
  Stated.amounts_convert rt row -> exists d, Sync.row_data rt h row = Ok d.
Proof.
  assert (Hreads : forall key,
            Stated.reads_as_amount rt row key ->
            exists q, Sync.real_field rt row key = Ok q).
  { intros key (found & Hat & Hfound). apply cell_at_unique in Hat.
    subst found. unfold Sync.real_field.
    destruct (Sync.get row key) as [[|q|s]|]; try (now eexists).
    exact Hfound. }
  intros (Hi & Hs & Ht).
  destruct (Hreads _ Hi) as [mi Emi], (Hreads _ Hs) as [ms Ems],
    (Hreads _ Ht) as [mt Emt].
  unfold Sync.row_data. rewrite Emi, Ems, Emt. now eexists.
Qed.

(** ** C2: the difference applied by a synchronisation *)

Lemma NoDup_4 (a b c d : string) :
  NoDup [a; b; c; d] ->
  a <> b /\ a <> c /\ a <> d /\ b <> c /\ b <> d /\ c <> d.
Proof.
  intros H.
  inversion H as [|? ? Ha H1]; subst. inversion H1 as [|? ? Hb H2]; subst.
  inversion H2 as [|? ? Hc _]; subst. simpl in *.
  repeat split; intros E; subst; tauto.
Qed.

(** When the file needs a synchronisation, the body goes on to
    [sync_changes] as it does under [force]. *)
Lemma sync_body_needed (rt : Runtime) (env : Sync.Env) (filepath : string)
  (df : list Sync.Series) (force : bool) (s s1 : Sync.State)
  (reason : Sync.Reason) :
  Sync.file_needs_sync rt env filepath s = (s1, Ok (true, reason)) ->
  Sync.sync_body rt env filepath df force s
  = Sync.sync_changes rt env filepath df s.
Proof.
  intros H. destruct force; [reflexivity|].
  pose proof (file_needs_sync_run _ _ _ _ _ _ H) as (Hw & Hd & Hs & _).
  assert (E : s1 = s).
  { destruct s1 as [[w1 d1] st1], s as [[w d] st]. simpl in *. now subst. }
  subst s1. unfold Sync.sync_body, Sync.bind. cbn [negb]. rewrite H.
  reflexivity.
Qed.

(** C2 (amended): a synchronisation that is forced, or that the file
    needs, ends in "success" when no statement raises and the three
    amounts of every incoming row read as amounts.  Whenever it ends in
    "success", it is committed; the table holds exactly the hashes that
    came in; a stored row whose hash comes again is left as it was and
    counted as unchanged; a stored row whose hash does not come again is
    deleted; every other row of the table holds the cells of an incoming
    row of its hash; and the three counts are those of the incoming hashes
    that were stored, of those that were not, and of the stored hashes
    that do not come again.  With hashes A, B, C stored and B, C, D
    incoming, one row is inserted, one deleted, two are
    unchanged rows, and the table holds B, C, D. *)
Theorem sync_from_excel_diff (rt : Runtime) (env : Sync.Env)
  (filepath : string) (df : list Sync.Series) (force : bool) (c : Sync.Conn) :
  let r := Sync.sync_from_excel rt env filepath df force c in
  let before := Sync.work c in
  let after := Sync.work (fst r) in
  let incoming := map (Sync._calculate_row_hash rt) df in
  let stored h := set_mem string_dec h (Sync.stored_hashes before) in
  let comes_again h := set_mem string_dec h incoming in
  let needs_sync :=
    exists s reason,
      Sync.file_needs_sync rt env filepath
        {| Sync.conn := c; Sync.stats := Sync.initial_stats |}
      = (s, Ok (true, reason)) in
  ((force = true \/ needs_sync) ->
   (forall op, Sync.fault env op = None) ->
   Forall (Stated.amounts_convert rt) df ->
   Sync.status (snd r) = "success")
  /\ (Sync.status (snd r) = "success" ->
      Sync.disk (fst r) = after
      /\ (forall h, In h (Sync.stored_hashes after) <-> In h incoming)
      /\ (forall l, In l (Sync.lignes_factures before) ->
                    In (Sync.hash_ligne l) incoming ->
                    In l (Sync.lignes_factures after))
      /\ (forall l, In l (Sync.lignes_factures before) ->
                    ~ In (Sync.hash_ligne l) incoming ->
                    ~ In l (Sync.lignes_factures after))
      /\ (forall l, In l (Sync.lignes_factures after) ->
                    In l (Sync.lignes_factures before)
                    \/ exists row,
                         In row df
                         /\ Sync.hash_ligne l = Sync._calculate_row_hash rt row
                         /\ Stated.holds_row rt l row)
      /\ Sync.nb_unchanged (snd r)
         = Z.of_nat (List.length (filter stored incoming))
      /\ Sync.nb_inserted (snd r)
         = Z.of_nat (List.length (filter (fun h => negb (stored h)) incoming))
      /\ (NoDup (Sync.stored_hashes before) ->
          NoDup (Sync.stored_hashes after)
          /\ Sync.nb_deleted (snd r)
             = Z.of_nat (List.length (filter (fun h => negb (comes_again h))
                                        (Sync.stored_hashes before))))
      /\ (forall a b c0 d : string,
             Sync.stored_hashes before = [a; b; c0] ->
             incoming = [b; c0; d] ->
             NoDup [a; b; c0; d] ->
             Sync.nb_inserted (snd r) = 1
             /\ Sync.nb_deleted (snd r) = 1
             /\ Sync.nb_unchanged (snd r) = 2
             /\ NoDup (Sync.stored_hashes after)
             /\ forall h, In h (Sync.stored_hashes after) <-> In h [b; c0; d])).
Proof.
  intros r before after incoming stored comes_again needs_sync.
  unfold after, r, before in *. clear r after. split.
  { intros Hgo Hquiet Hconv.
    assert (Hbody : Sync.sync_body rt env filepath df force
                      {| Sync.conn := c; Sync.stats := Sync.initial_stats |}
                    = Sync.sync_changes rt env filepath df
                        {| Sync.conn := c; Sync.stats := Sync.initial_stats |}).
    { destruct Hgo as [-> | (s & reason & Hneeds)]; [reflexivity|].
      exact (sync_body_needed _ _ _ _ _ _ _ _ Hneeds). }
    unfold Sync.sync_from_excel. rewrite Hbody.
    destruct (sync_changes_runs rt env filepath df
                {| Sync.conn := c; Sync.stats := Sync.initial_stats |} Hquiet)
      as [s' Hrun].
    { apply (Forall_impl _ (fun row => amounts_convert_row_data rt _ row) Hconv). }
    rewrite Hrun. cbn [snd]. destruct c as [w d0].
    apply sync_changes_ok in Hrun. cbv zeta in Hrun.
    destruct Hrun as (rows & _ & _ & _ & Hst & _). exact Hst. }
  intros Hstatus.
  destruct (sync_from_excel_success _ _ _ _ _ _ Hstatus)
    as (rows & Hrows & Hdata & Hwork & Hdisk & Hunch & Hins & Hdel).
  fold incoming in Hrows, Hwork, Hunch, Hdel.
  set (w := Sync.work c) in *.
  assert (Hhashes : forall h,
            In h (Sync.stored_hashes
                    (Sync.work
                       (fst (Sync.sync_from_excel rt env filepath df force c))))
            <-> In h incoming).
  { intros h. rewrite Hwork. now apply after_hashes. }
  assert (Hunch' : Sync.nb_unchanged
                     (snd (Sync.sync_from_excel rt env filepath df force c))
                   = Z.of_nat (List.length (filter stored incoming))).
  { rewrite Hunch. f_equal. apply unchanged_length. }
  assert (Hins' : Sync.nb_inserted
                    (snd (Sync.sync_from_excel rt env filepath df force c))
                  = Z.of_nat (List.length
                                (filter (fun h => negb (stored h)) incoming))).
  { rewrite Hins. f_equal. now apply rows_length. }
  assert (Hnodup : NoDup (Sync.stored_hashes w) ->
            NoDup (Sync.stored_hashes
                     (Sync.work
                        (fst (Sync.sync_from_excel rt env filepath df force
                                c))))
            /\ Sync.nb_deleted
                 (snd (Sync.sync_from_excel rt env filepath df force c))
               = Z.of_nat (List.length
                             (filter (fun h => negb (comes_again h))
                                (Sync.stored_hashes w)))).
  { intros Hnd. split.
    - rewrite Hwork. now apply after_NoDup.
    - rewrite Hdel. f_equal. now apply del_length. }
  split; [exact Hdisk|].
  split; [exact Hhashes|].
  split. { intros l Hl Hh. rewrite Hwork. now apply after_keeps. }
  split. { intros l Hl Hh Hafter. apply Hh, Hhashes.
           unfold Sync.stored_hashes. now apply in_map. }
  split.
  { intros l Hl. rewrite Hwork in Hl. simpl in Hl.
    apply filter_In in Hl. destruct Hl as [Hl _].
    apply insert_many_origin in Hl.
    destruct Hl as [Hl | (_ & d & Hd & Hsame)]; [now left|].
    right. destruct (Hdata d Hd) as (row & Hrow & Erow).
    exists row. split; [exact Hrow|]. split.
    - rewrite <- (row_data_hash rt _ _ _ Erow). apply Hsame.
    - exact (row_data_holds _ _ _ _ _ Erow Hsame). }
  split; [exact Hunch'|]. split; [exact Hins'|]. split; [exact Hnodup|].
  intros a b c0 d Hbefore Hincoming Hnd4.
  destruct (NoDup_4 _ _ _ _ Hnd4) as (Hab & Hac & Had & Hbc & Hbd & Hcd).
  assert (Hnd3 : NoDup (Sync.stored_hashes w)).
  { rewrite Hbefore. repeat constructor; simpl; intuition congruence. }
  destruct (Hnodup Hnd3) as [Hnd' Hdel'].
  rewrite Hins', Hunch', Hdel'. unfold stored, comes_again.
  fold w. rewrite Hbefore, Hincoming.
  assert (Hmem : forall x l, In x l -> set_mem string_dec x l = true)
    by (intros; now apply set_mem_correct2).
  assert (Hnmem : forall x l, ~ In x l -> set_mem string_dec x l = false)
    by (intros; now apply set_mem_complete2).
  cbn [filter].
  rewrite (Hmem b [a; b; c0]), (Hmem c0 [a; b; c0]), (Hnmem d [a; b; c0]),
    (Hnmem a [b; c0; d]), (Hmem b [b; c0; d]), (Hmem c0 [b; c0; d])
    by (simpl; intuition congruence).
  cbn [negb filter List.length].
  split; [reflexivity|]. split; [reflexivity|]. split; [reflexivity|].
  split; [exact Hnd'|].
  intros h. rewrite <- Hincoming. apply Hhashes.
Qed.

(** The cell of a label in a row written out: the labels are compared
    one after the other. *)
Ltac find_cell :=
  repeat first
    [ apply Stated.cell_at_here
    | apply Stated.cell_at_next; [discriminate|]
    | apply Stated.cell_at_nil ].

Ltac reads_amount :=
  eexists; split; [find_cell | first [exact I | eexists; reflexivity]].

(** The hypotheses of C2 hold, and its conclusions are met, on the cache
    of contracts A, B, C synchronised, under [force], with the rows of
    contracts B, C, D: the call ends in "success", and the committed table
    holds for D a row with the contract "D", the supplier "ACME", no
    label and the initial amount 100. *)
Lemma sync_from_excel_diff_witness :
  let r :=
    Sync.sync_from_excel Sample.runtime Sample.env_abc "factures.xlsx"
      [Sample.ligne_import "B"; Sample.ligne_import "C";
       Sample.ligne_import "D"] true Sample.cache_abc in
  Sync.status (snd r) = "success"
  /\ Sync.nb_inserted (snd r) = 1
  /\ Sync.nb_deleted (snd r) = 1
  /\ Sync.nb_unchanged (snd r) = 2
  /\ Sync.disk (fst r) = Sync.work (fst r)
  /\ exists l,
       In l (Sync.lignes_factures (Sync.disk (fst r)))
       /\ Sync.marche l = Some "D"
       /\ Sync.fournisseur l = Some "ACME"
       /\ Sync.libelle l = None
       /\ Sync.montant_initial l = 100%Q
       /\ Sync.montant_sf l = 0%Q.
Proof.
  cbv zeta.
  destruct (sync_from_excel_diff Sample.runtime Sample.env_abc "factures.xlsx"
              [Sample.ligne_import "B"; Sample.ligne_import "C";
               Sample.ligne_import "D"] true Sample.cache_abc)
    as [Hruns Hdiff].
  assert (Hs : Sync.status
                 (snd (Sync.sync_from_excel Sample.runtime Sample.env_abc
                         "factures.xlsx"
                         [Sample.ligne_import "B"; Sample.ligne_import "C";
                          Sample.ligne_import "D"] true Sample.cache_abc))
               = "success").
  { apply Hruns.
    - now left.
    - intros op. reflexivity.
    - repeat constructor; reads_amount. }
  split; [exact Hs|].
  destruct (Hdiff Hs) as (Hdisk & _ & _ & _ & _ & _ & _ & _ & Hex).
  destruct (Hex (Sync._calculate_row_hash Sample.runtime (Sample.ligne_import "A"))
                (Sync._calculate_row_hash Sample.runtime (Sample.ligne_import "B"))
                (Sync._calculate_row_hash Sample.runtime (Sample.ligne_import "C"))
                (Sync._calculate_row_hash Sample.runtime (Sample.ligne_import "D")))
    as (Hi & Hd & Hu & _).
  - vm_compute. reflexivity.
  - vm_compute. reflexivity.
  - clear Hruns Hdiff Hs Hdisk Hex. vm_compute.
    repeat constructor; simpl; intuition discriminate.
  - split; [exact Hi|]. split; [exact Hd|]. split; [exact Hu|].
    split; [exact Hdisk|].
    remember (Sync.lignes_factures
                (Sync.disk
                   (fst (Sync.sync_from_excel Sample.runtime Sample.env_abc
                           "factures.xlsx"
                           [Sample.ligne_import "B"; Sample.ligne_import "C";
                            Sample.ligne_import "D"] true Sample.cache_abc))))
      as table eqn:Etable.
    vm_compute in Etable. subst table.
    eexists. split; [right; right; left; reflexivity|].
    repeat split.
Defined.

(** The counterexample to C2 as stated: with the text "abc" as initial
    amount of the row of contract D, the forced synchronisation of the
    cache of contracts A, B, C with the rows of B, C, D raises on
    [float], and ends in "error"; nothing is inserted and nothing deleted,
    the connection is as it was, the row of A is still stored and the row
    of D is not. *)
Lemma sync_from_excel_unreadable_amount :
  let r :=
    Sync.sync_from_excel Sample.runtime Sample.env_abc "factures.xlsx"
      [Sample.ligne_import "B"; Sample.ligne_import "C";
       Sources.ligne_illisible "D"] true Sample.cache_abc in
  Sync.status (snd r) = "error"
  /\ Sync.nb_inserted (snd r) = 0
  /\ Sync.nb_deleted (snd r) = 0
  /\ fst r = Sample.cache_abc
  /\ In (Sync._calculate_row_hash Sample.runtime (Sample.ligne_import "A"))
       (Sync.stored_hashes (Sync.work (fst r)))
  /\ ~ In (Sync._calculate_row_hash Sample.runtime
             (Sources.ligne_illisible "D"))
         (Sync.stored_hashes (Sync.work (fst r))).
Proof.
  cbv zeta.
  split; [vm_compute; reflexivity|]. split; [vm_compute; reflexivity|].
  split; [vm_compute; reflexivity|]. split; [vm_compute; reflexivity|].
  split; [vm_compute; now left|].
  vm_compute. intuition discriminate.
Qed.

(** ** C8: a failure rolls the transaction back *)

(** A statement on which SQLite raises passes the exception on and leaves
    the state as it was. *)
Lemma execute_fault {A : Type} (env : Sync.Env) (op : Sync.Op)
  (run : Sync.Tables -> Sync.Tables * A) (s : Sync.State) (msg : string) :
  Sync.fault env op = Some msg -> Sync.execute env op run s = (s, Raise msg).
Proof. intros H. unfold Sync.execute. now rewrite H. Qed.

(** C8: when a statement raises during [sync_from_excel], on a connection
    with no transaction open, the connection is after the call as it was
    before it, tables and snapshot history, and the stats carry the status
    "error" with the text of the exception. *)
Theorem sync_from_excel_rolls_back (rt : Runtime) (env : Sync.Env)
  (filepath : string) (df : list Sync.Series) (force : bool) (c : Sync.Conn)
  (s' : Sync.State) (msg : string) :
  Sync.work c = Sync.disk c ->
  Sync.sync_body rt env filepath df force
    {| Sync.conn := c; Sync.stats := Sync.initial_stats |} = (s', Raise msg) ->
  let r := Sync.sync_from_excel rt env filepath df force c in
  fst r = c
  /\ Sync.status (snd r) = "error"
  /\ Sync.message (snd r) = Some (Sync.MsgException msg).
Proof.
  intros Hclean Hraise r. unfold r, Sync.sync_from_excel. rewrite Hraise.
  apply sync_body_raise in Hraise. simpl in Hraise.
  cbn [fst snd]. split; [|split; reflexivity].
  unfold Sync.rollback. rewrite Hraise.
  destruct c as [w d]. simpl in *. now subst.
Qed.

(** The hypotheses of C8 hold, and its conclusion is met, when the
    [COMMIT] raises after a row was inserted in the open transaction. *)
Lemma sync_from_excel_rolls_back_witness :
  Sync.lignes_factures
    (Sync.work (Sync.conn
       (fst (Sync.sync_body Sample.runtime Sample.env_panne "factures.xlsx"
               [Sample.ligne_import "A"] false
               {| Sync.conn := Sample.fresh;
                  Sync.stats := Sync.initial_stats |})))) <> []
  /\ fst (Sync.sync_from_excel Sample.runtime Sample.env_panne "factures.xlsx"
            [Sample.ligne_import "A"] false Sample.fresh) = Sample.fresh
  /\ Sync.status
       (snd (Sync.sync_from_excel Sample.runtime Sample.env_panne
               "factures.xlsx" [Sample.ligne_import "A"] false Sample.fresh))
     = "error"
  /\ Sync.message
       (snd (Sync.sync_from_excel Sample.runtime Sample.env_panne
               "factures.xlsx" [Sample.ligne_import "A"] false Sample.fresh))
     = Some (Sync.MsgException "disk I/O error").
Proof.
  split; [vm_compute; discriminate|].
  apply (sync_from_excel_rolls_back Sample.runtime Sample.env_panne
           "factures.xlsx" [Sample.ligne_import "A"] false Sample.fresh
           (fst (Sync.sync_body Sample.runtime Sample.env_panne "factures.xlsx"
                   [Sample.ligne_import "A"] false
                   {| Sync.conn := Sample.fresh;
                      Sync.stats := Sync.initial_stats |}))
           "disk I/O error").
  - reflexivity.
  - vm_compute. reflexivity.
Defined.

(** ** C7: synchronising twice *)

Lemma sync_info_row_fields (rt : Runtime) (env : Sync.Env) (filepath : string)
  (df : list Sync.Series) (st : Sync.Stats) (f : Sync.FileStat) :
  Sync.os_stat env filepath = Some f ->
  Sync.fichier_path (Sync.sync_info_row rt env filepath df st) = filepath
  /\ Sync.last_modified (Sync.sync_info_row rt env filepath df st)
     = Sync.st_mtime f
  /\ Sync.file_size (Sync.sync_info_row rt env filepath df st) = Sync.st_size f
  /\ Sync.nb_lignes (Sync.sync_info_row rt env filepath df st)
     = Z.of_nat (List.length df).
Proof.
  intros H. unfold Sync.sync_info_row. rewrite H. repeat split.
Qed.

(** The verdict on a file against the snapshot just taken of it. *)
Lemma verdict_after_snapshot (rt : Runtime) (f : Sync.FileStat)
  (last : Sync.SyncInfo) :
  Sync.last_modified last = Sync.st_mtime f ->
  Sync.file_size last = Sync.st_size f ->
  Sync.nb_lignes last <> 0 ->
  Sync.verdict rt f (Some last) = (false, Sync.Inchange).
Proof.
  intros Hm Hs Hn. unfold Sync.verdict. cbv zeta.
  rewrite Hs, Z.eqb_refl. cbn [negb].
  destruct (Z.eqb_spec (Sync.nb_lignes last) 0) as [E|_]; [contradiction|].
  rewrite Hm.
  assert (Hclose : Qle_bool (Qabs (Sync.st_mtime f - Sync.st_mtime f)) 1 = true).
  { apply Qle_bool_iff.
    assert (H0 : (Sync.st_mtime f - Sync.st_mtime f == 0)%Q) by ring.
    rewrite H0. discriminate. }
  rewrite Hclose. reflexivity.
Qed.

(** C7 (amended): for a source file that exists and stays as it is, and a
    row list that is not empty, when a first [sync_from_excel] without
    [force] does not end in error, a second one on the same rows ends
    "skipped" and leaves the connection as the first left it. *)
Theorem sync_twice_skipped (rt : Runtime) (env env' : Sync.Env)
  (filepath : string) (df : list Sync.Series) (c : Sync.Conn)
  (f : Sync.FileStat) :
  df <> [] ->
  Sync.os_stat env filepath = Some f ->
  Sync.os_stat env' filepath = Some f ->
  Sync.fault env' Sync.SelectSyncInfo = None ->
  Sync.status (snd (Sync.sync_from_excel rt env filepath df false c))
  <> "error" ->
  let c1 := fst (Sync.sync_from_excel rt env filepath df false c) in
  let r2 := Sync.sync_from_excel rt env' filepath df false c1 in
  Sync.status (snd r2) = "skipped" /\ fst r2 = c1.
Proof.
  intros Hdf Hstat Hstat' Hquiet Hok c1 r2. unfold r2, c1. clear r2 c1.
  destruct c as [w d].
  assert (Hfirst :
    Sync.sync_from_excel rt env filepath df false
      {| Sync.work := w; Sync.disk := d |}
    = match Sync.sync_body rt env filepath df false
              {| Sync.conn := {| Sync.work := w; Sync.disk := d |};
                 Sync.stats := Sync.initial_stats |} with
      | (s, Ok _) => (Sync.conn s, Sync.stats s)
      | (s, Raise msg) =>
          (Sync.rollback (Sync.conn s),
           Sync.set_status "error" (Sync.MsgException msg) (Sync.stats s))
      end) by reflexivity.
  rewrite Hfirst in Hok |- *. clear Hfirst.
  destruct (Sync.sync_body rt env filepath df false
              {| Sync.conn := {| Sync.work := w; Sync.disk := d |};
                 Sync.stats := Sync.initial_stats |})
    as [s1 [u|msg]] eqn:E1.
  2:{ exfalso. apply Hok. reflexivity. }
  cbn [fst snd] in *. clear Hok.
  assert (Hv : exists reason,
             Sync.verdict rt f
               (Sync.fetch_last_sync (Sync.work (Sync.conn s1)) filepath)
             = (false, reason)).
  { apply sync_body_ok in E1.
    destruct E1 as [(_ & Hw & _ & f0 & reason & Hf0 & _ & Hver & _)|E1].
    - rewrite Hstat in Hf0. injection Hf0 as <-. rewrite Hw. now exists reason.
    - apply sync_changes_ok in E1. cbv zeta in E1.
      destruct E1 as (rows & _ & Hwork & _).
      destruct (sync_info_row_fields rt env filepath df (Sync.stats s1) f Hstat)
        as (Hp & Hm & Hs & Hn).
      rewrite Hwork.
      match goal with
      | |- context [Sync.insert_sync_info ?row ?t] =>
          destruct (fetch_last_after_insert row t)
            as (r' & Hfetch & Hm' & Hs' & _ & Hn')
      end.
      rewrite Hp in Hfetch. rewrite Hfetch.
      exists Sync.Inchange. apply verdict_after_snapshot.
      + now rewrite Hm', Hm.
      + now rewrite Hs', Hs.
      + rewrite Hn', Hn. destruct df; [contradiction | simpl; lia]. }
  destruct Hv as [reason Hv].
  destruct (Sync.conn s1) as [w1 d1]. simpl in Hv.
  unfold Sync.sync_from_excel.
  rewrite (sync_body_skips rt env' filepath df w1 d1 f reason Hstat' Hquiet Hv).
  split; reflexivity.
Qed.

(** The hypotheses of C7 hold on the import of one row from the file of
    three bytes. *)
Lemma sync_twice_skipped_witness :
  let c1 :=
    fst (Sync.sync_from_excel Sample.runtime Sample.env_abc "factures.xlsx"
           [Sample.ligne_import "A"] false Sample.fresh) in
  let r2 :=
    Sync.sync_from_excel Sample.runtime Sample.env_abc "factures.xlsx"
      [Sample.ligne_import "A"] false c1 in
  Sync.status (snd r2) = "skipped" /\ fst r2 = c1.
Proof.
  apply (sync_twice_skipped Sample.runtime Sample.env_abc Sample.env_abc
           "factures.xlsx" [Sample.ligne_import "A"] Sample.fresh
           {| Sync.st_size := 3; Sync.st_mtime := 100%Q;
              Sync.content := Some "abc" |}).
  - discriminate.
  - reflexivity.
  - reflexivity.
  - reflexivity.
  - vm_compute. discriminate.
Defined.

(** The counterexample to C7 as stated: with the empty row list the second
    call is not skipped (the recorded row count is zero, "Base vide"); it
    synchronises again and adds a second snapshot. *)
Lemma sync_twice_empty_not_skipped :
  let r1 :=
    Sync.sync_from_excel Sample.runtime Sample.env_abc "factures.xlsx"
      [] false Sample.fresh in
  let r2 :=
    Sync.sync_from_excel Sample.runtime Sample.env_abc "factures.xlsx"
      [] false (fst r1) in
  Sync.status (snd r1) = "success"
  /\ fst (Sync.verdict Sample.runtime
            {| Sync.st_size := 3; Sync.st_mtime := 100%Q;
               Sync.content := Some "abc" |}
            (Sync.fetch_last_sync (Sync.work (fst r1)) "factures.xlsx"))
     = true
  /\ Sync.status (snd r2) = "success"
  /\ String.eqb (Sync.status (snd r2)) "skipped" = false
  /\ List.length (Sync.sync_info (Sync.work (fst r1))) = 1%nat
  /\ List.length (Sync.sync_info (Sync.work (fst r2))) = 2%nat.
Proof. vm_compute. repeat split. Qed.

(** ** C10: the hash of a row *)





(** * Further properties *)

(** ** The view by contract *)

Local Open Scope Q_scope.

Lemma insert_sorted_map {A B : Type} (f : A -> B) (before : B -> B -> bool)
  (x : A) (l : list A) :
  map f (insert_sorted (fun a b => before (f a) (f b)) x l)
  = insert_sorted before (f x) (map f l).
Proof.
  induction l as [|y r IH]; simpl; [reflexivity|].
  destruct (before (f x) (f y)); simpl; [reflexivity | now rewrite IH].
Qed.

Lemma stable_sort_map {A B : Type} (f : A -> B) (before : B -> B -> bool)
  (l : list A) :
  map f (stable_sort (fun a b => before (f a) (f b)) l)
  = stable_sort before (map f l).
Proof.
  induction l as [|x r IH]; simpl; [reflexivity|].
  now rewrite insert_sorted_map, IH.
Qed.

Lemma unique_string_NoDup (l : list string) : NoDup (Pd.unique String.eqb l).
Proof.
  pose proof (unique_from_NoDupA eq String.eqb String.eqb_eq [] l) as H.
  unfold Pd.unique. induction H as [|x r Hx _ IH]; constructor; [|exact IH].
  intros Hin. apply Hx. apply In_InA; [typeclasses eauto | exact Hin].
Qed.

Lemma unique_string_In (l : list string) (x : string) :
  In x (Pd.unique String.eqb l) <-> In x l.
Proof.
  split; [apply In_unique_string|]. intros H.
  assert (HA : InA eq x (Pd.unique String.eqb l)).
  { apply (unique_from_InA eq String.eqb String.eqb_eq). split.
    - apply In_InA; [typeclasses eauto | exact H].
    - intros H0. inversion H0. }
  apply InA_alt in HA. destruct HA as [y [-> Hy]]. exact Hy.
Qed.

Lemma vision_marche_code (rt : Runtime) (db : option Db.Database)
  (df : list Analyzer.Row) (code : string) :
  Analyzer.v_marche (Analyzer.vision_marche rt db df code) = code.
Proof. exact (proj1 (vision_marche_montant rt db df code)). Qed.

(** The view as a sorted list of the entries of the distinct codes. *)
Lemma get_vision_globale_unfold (rt : Runtime) (db : option Db.Database)
  (df : list Analyzer.Row) :
  Analyzer.get_vision_globale rt db df
  = stable_sort
      (fun x y => String.leb (Analyzer.v_marche x) (Analyzer.v_marche y))
      (map (Analyzer.vision_marche rt db df)
         (Pd.unique String.eqb (map Analyzer.marche df))).
Proof. destruct df; reflexivity. Qed.

Lemma get_vision_globale_codes (rt : Runtime) (db : option Db.Database)
  (df : list Analyzer.Row) :
  map Analyzer.v_marche (Analyzer.get_vision_globale rt db df)
  = stable_sort String.leb (Pd.unique String.eqb (map Analyzer.marche df)).
Proof.
  rewrite get_vision_globale_unfold.
  rewrite (stable_sort_map Analyzer.v_marche String.leb), map_map.
  f_equal. erewrite map_ext; [apply map_id|].
  intros code. apply vision_marche_code.
Qed.

Lemma string_leb_ltb (a b : string) :
  String.leb a b = true -> a <> b -> String.ltb a b = true.
Proof.
  unfold String.leb, String.ltb.
  destruct (String.compare a b) eqn:E; try discriminate; [|reflexivity].
  apply String.compare_eq_iff in E. contradiction.
Qed.

Lemma StronglySorted_strict (l : list string) :
  NoDup l -> StronglySorted (fun a b => String.leb a b = true) l ->
  StronglySorted (fun a b => String.ltb a b = true) l.
Proof.
  intros Hnd Hs. induction Hs as [|x r _ IH Hx]; constructor.
  - apply IH. now inversion Hnd.
  - inversion Hnd as [|? ? Hnotin _]; subst.
    apply Forall_forall. intros y Hy.
    apply string_leb_ltb.
    + exact (proj1 (Forall_forall _ _) Hx y Hy).
    + intros ->. contradiction.
Qed.

Lemma string_leb_total_false (a b : string) :
  String.leb a b = false -> String.leb b a = true.
Proof.
  intros H. destruct (String.leb_total a b) as [H'|H']; congruence.
Qed.

(** X1: [get_vision_globale] has one entry per contract code seen on the
    lines, and no other; the entries come in strictly ascending order of
    code. *)
Theorem get_vision_globale_one_per_code (rt : Runtime)
  (db : option Db.Database) (df : list Analyzer.Row) :
  let codes := map Analyzer.v_marche (Analyzer.get_vision_globale rt db df) in
  StronglySorted (fun a b => String.ltb a b = true) codes
  /\ NoDup codes
  /\ (forall code, In code codes <-> exists r, In r df /\ Analyzer.marche r = code).
Proof.
  intros codes. unfold codes. rewrite get_vision_globale_codes.
  assert (Hnd : NoDup (stable_sort String.leb
                         (Pd.unique String.eqb (map Analyzer.marche df)))).
  { apply (Permutation_NoDup
             (Permutation_sym (stable_sort_Permutation String.leb _))).
    apply unique_string_NoDup. }
  split; [|split; [exact Hnd|]].
  - apply StronglySorted_strict; [exact Hnd|].
    apply (stable_sort_StronglySorted String.leb).
    + apply string_leb_total_false.
    + apply string_leb_trans.
  - intros code. split.
    + intros H.
      apply (Permutation_in _ (stable_sort_Permutation String.leb _)) in H.
      apply unique_string_In, in_map_iff in H.
      destruct H as [r [E Hr]]. now exists r.
    + intros [r [Hr E]].
      apply (Permutation_in _
               (Permutation_sym (stable_sort_Permutation String.leb _))).
      apply unique_string_In, in_map_iff. now exists r.
Qed.

(** ** Tranches partition the lines of a contract *)

Lemma same_refl (a : Cell) : Pd.same a a = true.
Proof.
  destruct a as [|q|s]; simpl; [reflexivity | | apply String.eqb_refl].
  apply Qeq_bool_iff. reflexivity.
Qed.

Lemma same_sym (a b : Cell) : Pd.same a b = true -> Pd.same b a = true.
Proof.
  destruct a as [|x|x], b as [|y|y]; simpl; try discriminate; try reflexivity.
  - rewrite !Qeq_bool_iff. intros H. now symmetry.
  - rewrite !String.eqb_eq. intros H. now symmetry.
Qed.

Lemma same_trans (a b c : Cell) :
  Pd.same a b = true -> Pd.same b c = true -> Pd.same a c = true.
Proof.
  destruct a as [|x|x], b as [|y|y], c as [|z|z]; simpl;
    try discriminate; try reflexivity.
  - rewrite !Qeq_bool_iff. intros H1 H2. now rewrite H1.
  - rewrite !String.eqb_eq. intros H1 H2. now rewrite H1.
Qed.

#[local] Instance same_tranche_equiv : Equivalence same_tranche.
Proof.
  split.
  - intros a. apply same_refl.
  - intros a b. apply same_sym.
  - intros a b c. apply same_trans.
Qed.

Lemma same_tranche_spec (a b : Cell) : Pd.same a b = true <-> same_tranche a b.
Proof. reflexivity. Qed.

Lemma in_tranche_same (m : string) (t : Cell) (r : Analyzer.Row) :
  Analyzer.in_tranche m t r
  = String.eqb (Analyzer.marche r) m && Pd.same (Analyzer.tranche r) t.
Proof.
  unfold Analyzer.in_tranche. f_equal.
  destruct t as [|q|s], (Analyzer.tranche r) as [|q'|s']; reflexivity.
Qed.

Lemma filter_filter {A : Type} (p q : A -> bool) (l : list A) :
  filter p (filter q l) = filter (fun x => q x && p x) l.
Proof.
  induction l as [|x r IH]; simpl; [reflexivity|].
  destruct (q x); simpl; [destruct (p x)|]; now rewrite IH.
Qed.

Lemma calculate_service_fait_tranche_sum (rt : Runtime)
  (df : list Analyzer.Row) (m : string) (t : Cell) :
  Analyzer.calculate_service_fait_tranche rt df m t
  = Pd.sum
      (map (fun r => Pd.to_numeric_fillna rt (Analyzer.montant_sf r))
         (filter (Analyzer.in_tranche m t) df)).
Proof.
  unfold Analyzer.calculate_service_fait_tranche.
  rewrite select_tranche, map_map.
  destruct (filter (Analyzer.in_tranche m t) df); reflexivity.
Qed.

Lemma tranches_vues_cover (df : list Analyzer.Row) (m : string)
  (r : Analyzer.Row) :
  In r df -> String.eqb (Analyzer.marche r) m = true ->
  InA same_tranche (Analyzer.tranche r) (Analyzer.tranches_vues df m).
Proof.
  intros Hin Hm. unfold Analyzer.tranches_vues, Pd.unique.
  apply (unique_from_InA same_tranche Pd.same same_tranche_spec). split.
  - apply In_InA; [typeclasses eauto|]. apply in_map. apply filter_In.
    now split.
  - intros H. inversion H.
Qed.

Section Shares.
Context {A : Type} (key : A -> Cell).

Lemma no_share (keys : list Cell) (r : A) (g : Cell -> list A) :
  ~ InA same_tranche (key r) keys ->
  map (fun t => (if Pd.same (key r) t then [r] else []) ++ g t) keys
  = map g keys.
Proof.
  induction keys as [|t ks IH]; intros Hnot; simpl; [reflexivity|].
  destruct (Pd.same (key r) t) eqn:E.
  - exfalso. apply Hnot. now left.
  - rewrite IH; [reflexivity|]. intros H. apply Hnot. now right.
Qed.

(** A line goes to the one key it matches. *)
Lemma one_share (keys : list Cell) (r : A) (g : Cell -> list A) :
  NoDupA same_tranche keys -> InA same_tranche (key r) keys ->
  Permutation
    (concat
       (map (fun t => (if Pd.same (key r) t then [r] else []) ++ g t) keys))
    (r :: concat (map g keys)).
Proof.
  intros Hnd. induction Hnd as [|t ks Ht _ IH]; intros Hin.
  - inversion Hin.
  - simpl. destruct (Pd.same (key r) t) eqn:E.
    + rewrite no_share; [reflexivity|]. intros H. apply Ht.
      apply InA_alt in H. destruct H as [t' [Hsame Ht']].
      apply InA_alt. exists t'. split; [|exact Ht'].
      apply (same_trans t (key r) t'); [now apply same_sym | exact Hsame].
    + simpl. inversion Hin as [? ? Hsame | ? ? Hks]; subst.
      * unfold same_tranche in Hsame. congruence.
      * rewrite (IH Hks). apply Permutation_sym, Permutation_middle.
Qed.

Lemma shares_cover (keys : list Cell) (l : list A) :
  NoDupA same_tranche keys ->
  (forall r, In r l -> InA same_tranche (key r) keys) ->
  Permutation
    (concat (map (fun t => filter (fun r => Pd.same (key r) t) l) keys)) l.
Proof.
  intros Hnd. induction l as [|r rest IH]; intros Hcover.
  - simpl. clear. induction keys as [|t ks IHk]; simpl; [constructor|].
    exact IHk.
  - rewrite (map_ext
               (fun t => filter (fun r0 => Pd.same (key r0) t) (r :: rest))
               (fun t => (if Pd.same (key r) t then [r] else [])
                         ++ filter (fun r0 => Pd.same (key r0) t) rest)).
    2:{ intros t. simpl. now destruct (Pd.same (key r) t). }
    rewrite one_share; [|exact Hnd | apply Hcover; now left].
    constructor. apply IH. intros r0 Hr0. apply Hcover. now right.
Qed.

End Shares.

(** X3: the tranches that [unique()] yields for a contract share out its
    lines among the per-tranche functions.  The lines under the mask of
    the pair (marché, tranche), which [calculate_service_fait_tranche],
    [calculate_paye_tranche] and the fallback of
    [calculate_montant_initial_tranche] build alike, taken for each of
    these tranches (a missing tranche counting as one of them), hold
    together the lines of the contract, each line once: no line is left
    out and none is read for two tranches.  The service-fait amount of a
    tranche is the sum over the lines under its mask. *)
Theorem tranches_share_out_lines (rt : Runtime) (df : list Analyzer.Row)
  (code : string) :
  let df_marche :=
    Pd.select (map (fun r => String.eqb (Analyzer.marche r) code) df) df in
  let tranches := Pd.unique Pd.same (map Analyzer.tranche df_marche) in
  let selection t := Pd.select (Analyzer.mask_tranche df code t) df in
  Permutation (concat (map selection tranches)) df_marche
  /\ (forall r t t',
        In t tranches -> In t' tranches ->
        In r (selection t) -> In r (selection t') -> t = t')
  /\ (forall t,
        Analyzer.calculate_service_fait_tranche rt df code t
        = Pd.sum (map (Pd.to_numeric_fillna rt)
                    (map Analyzer.montant_sf (selection t)))).
Proof.
  intros df_marche tranches selection.
  assert (Edf : df_marche
                = filter (fun r => String.eqb (Analyzer.marche r) code) df)
    by apply select_map.
  assert (Etr : tranches = Analyzer.tranches_vues df code).
  { unfold tranches, Analyzer.tranches_vues. now rewrite Edf. }
  assert (Esel : forall t,
            selection t
            = filter (fun r => Pd.same (Analyzer.tranche r) t) df_marche).
  { intros t. unfold selection. rewrite select_tranche, Edf, filter_filter.
    apply filter_ext. intros r. apply in_tranche_same. }
  assert (Hnd : NoDupA same_tranche tranches).
  { apply (unique_from_NoDupA same_tranche Pd.same same_tranche_spec). }
  split; [|split].
  - rewrite (map_ext _ _ Esel).
    apply (shares_cover Analyzer.tranche); [exact Hnd|].
    intros r Hr. rewrite Etr. rewrite Edf in Hr. apply filter_In in Hr.
    now apply tranches_vues_cover.
  - intros r t t' Ht Ht' Hr Hr'. rewrite Esel in Hr, Hr'.
    apply filter_In in Hr, Hr'. destruct Hr as [_ Hr], Hr' as [_ Hr'].
    assert (Hsame : same_tranche t t').
    { apply (same_trans t (Analyzer.tranche r) t');
        [now apply same_sym | exact Hr']. }
    clear - Hnd Ht Ht' Hsame.
    induction Hnd as [|x xs Hx _ IH]; [destruct Ht|].
    destruct Ht as [-> | Ht], Ht' as [-> | Ht'].
    + reflexivity.
    + exfalso. apply Hx. apply InA_alt. now exists t'.
    + exfalso. apply Hx. apply InA_alt. exists t.
      split; [now apply same_sym | exact Ht].
    + now apply IH.
  - intros t. unfold Analyzer.calculate_service_fait_tranche. cbv zeta.
    fold (selection t). now destruct (selection t).
Qed.

(** ** Amounts of a tranche: edge cases and bounds *)

Lemma filter_none {A : Type} (p : A -> bool) (l : list A) :
  (forall x, In x l -> p x = false) -> filter p l = [].
Proof.
  induction l as [|x r IH]; intros H; simpl; [reflexivity|].
  rewrite (H x (or_introl eq_refl)). apply IH. intros y Hy. apply H. now right.
Qed.

(** X4: for a (contract, tranche) pair that no line belongs to (an unknown
    contract, say), the service-fait and the paid amounts are 0, and so is
    the initial amount when the override store gives none. *)
Theorem calculate_tranche_without_line (rt : Runtime)
  (db : option Db.Database) (df : list Analyzer.Row) (marche : string)
  (tranche : Cell) :
  (forall r, In r df -> Analyzer.in_tranche marche tranche r = false) ->
  Analyzer.calculate_service_fait_tranche rt df marche tranche == 0
  /\ Analyzer.calculate_paye_tranche rt df marche tranche == 0
  /\ (Analyzer.montant_tranche_override rt db marche tranche = None ->
      Analyzer.calculate_montant_initial_tranche rt db df marche tranche == 0).
Proof.
  intros Hnone.
  assert (Hf : filter (Analyzer.in_tranche marche tranche) df = [])
    by (now apply filter_none).
  split; [|split].
  - rewrite calculate_service_fait_tranche_sum, Hf. reflexivity.
  - rewrite calculate_paye_tranche_sum, filter_none; [reflexivity|].
    intros r Hr. now rewrite (Hnone r Hr).
  - intros Hov. unfold Analyzer.calculate_montant_initial_tranche.
    rewrite Hov, montant_tranche_excel_sum, Hf. reflexivity.
Qed.

(** The hypothesis of X4 holds, and its conclusion is met, on a contract
    that has no line. *)
Lemma calculate_tranche_without_line_witness :
  Analyzer.calculate_service_fait_tranche Sample.runtime Sample.cinq_lignes
    "1999_01" CNaN == 0
  /\ Analyzer.calculate_paye_tranche Sample.runtime Sample.cinq_lignes
       "1999_01" CNaN == 0.
Proof.
  destruct (calculate_tranche_without_line Sample.runtime None
              Sample.cinq_lignes "1999_01" CNaN) as (H1 & H2 & _).
  - intros r Hr. simpl in Hr.
    repeat (destruct Hr as [<-|Hr]; [reflexivity|]). destruct Hr.
  - now split.
Defined.

Lemma unique_from_In_original {A : Type} (eqb : A -> A -> bool)
  (seen l : list A) (x : A) :
  In x (Pd.unique_from eqb seen l) -> In x l.
Proof.
  revert seen. induction l as [|y r IH]; intros seen; simpl; [tauto|].
  destruct (existsb (eqb y) seen).
  - intros H. right. now apply (IH seen).
  - intros [H|H]; [now left | right; now apply (IH (y :: seen))].
Qed.

Lemma sum_unique_le (seen l : list Q) :
  Forall (fun x => 0 <= x) l ->
  Pd.sum (Pd.unique_from Qeq_bool seen l) <= Pd.sum l.
Proof.
  intros H. revert seen. induction H as [|x r Hx _ IH]; intros seen; simpl.
  - apply Qle_refl.
  - destruct (existsb (Qeq_bool x) seen).
    + rewrite <- (Qplus_0_l (Pd.sum (Pd.unique_from Qeq_bool seen r))).
      apply Qplus_le_compat; [exact Hx | apply IH].
    + simpl. apply Qplus_le_compat; [apply Qle_refl | apply IH].
Qed.

Lemma sum_nonneg (l : list Q) : Forall (fun x => 0 <= x) l -> 0 <= Pd.sum l.
Proof.
  induction 1 as [|x r Hx _ IH]; simpl; [apply Qle_refl|].
  rewrite <- (Qplus_0_l 0). now apply Qplus_le_compat.
Qed.

Lemma sum_ge_member (l : list Q) (v : Q) :
  Forall (fun x => 0 <= x) l -> InA Qeq v l -> v <= Pd.sum l.
Proof.
  intros H. induction H as [|x r Hx Hr IH]; intros Hin; inversion Hin; subst;
    simpl.
  - match goal with E : v == x |- _ => rewrite E end.
    rewrite <- (Qplus_0_r x) at 1.
    apply Qplus_le_compat; [apply Qle_refl | now apply sum_nonneg].
  - rewrite <- (Qplus_0_l v). apply Qplus_le_compat; [exact Hx | now apply IH].
Qed.

(** X5: when the override store gives no amount for the pair, the initial
    amount of a tranche is 0 or above the threshold 0.01, is at least every
    amount above the threshold found on a line of the pair, and is at most
    the sum of the amounts above the threshold on these lines. *)
Theorem calculate_montant_initial_tranche_bounds (rt : Runtime)
  (db : option Db.Database) (df : list Analyzer.Row) (marche : string)
  (tranche : Cell) :
  Analyzer.montant_tranche_override rt db marche tranche = None ->
  let montants :=
    filter (fun m => negb (Qle_bool m Analyzer.epsilon))
      (map (fun r => Pd.to_numeric_fillna rt (Analyzer.montant_initial r))
         (filter (Analyzer.in_tranche marche tranche) df)) in
  let montant :=
    Analyzer.calculate_montant_initial_tranche rt db df marche tranche in
  (montant == 0 \/ Analyzer.epsilon < montant)
  /\ (forall v, InA Qeq v montants -> v <= montant)
  /\ montant <= Pd.sum montants.
Proof.
  intros Hov montants montant.
  assert (Hm : montant = Pd.sum (Pd.unique Qeq_bool montants)).
  { unfold montant, Analyzer.calculate_montant_initial_tranche.
    now rewrite Hov, montant_tranche_excel_sum, map_map. }
  assert (Habove : Forall (fun x => Analyzer.epsilon < x) montants).
  { apply Forall_forall. intros x Hx. unfold montants in Hx.
    apply filter_In in Hx. now apply above_epsilon_iff. }
  assert (Hpos : Forall (fun x => 0 <= x) montants).
  { eapply Forall_impl; [|exact Habove]. intros x Hx. simpl in Hx.
    apply Qlt_le_weak. eapply Qlt_trans; [|exact Hx]. reflexivity. }
  assert (Hposu : Forall (fun x => 0 <= x) (Pd.unique Qeq_bool montants)).
  { apply Forall_forall. intros x Hx.
    apply unique_from_In_original in Hx.
    exact (proj1 (Forall_forall _ _) Hpos x Hx). }
  rewrite Hm. split; [|split].
  - destruct (Pd.unique Qeq_bool montants) as [|x r] eqn:E.
    + left. reflexivity.
    + right. simpl.
      assert (Hx : Analyzer.epsilon < x).
      { apply (proj1 (Forall_forall _ _) Habove).
        apply (unique_from_In_original Qeq_bool [] montants).
        fold (Pd.unique Qeq_bool montants). rewrite E. now left. }
      rewrite <- (Qplus_0_r Analyzer.epsilon).
      apply Qplus_lt_le_compat; [exact Hx|].
      apply sum_nonneg. now inversion Hposu.
  - intros v Hv. apply sum_ge_member; [exact Hposu|].
    apply (unique_from_InA Qeq Qeq_bool Qeq_bool_spec). split; [exact Hv|].
    intros H. inversion H.
  - apply sum_unique_le. exact Hpos.
Qed.

(** The hypothesis of X5 holds, and its conclusion is met, on five lines
    with initial amounts 100, 100, 100, 0 and 50: the amount, 150, is at
    most their sum above the threshold, 350. *)
Lemma calculate_montant_initial_tranche_bounds_witness :
  Analyzer.calculate_montant_initial_tranche Sample.runtime None
    Sample.cinq_lignes "2024_17_1" CNaN <= 350.
Proof.
  exact (Qle_trans _ _ _
           (proj2 (proj2 (calculate_montant_initial_tranche_bounds
                            Sample.runtime None Sample.cinq_lignes
                            "2024_17_1" CNaN eq_refl)))
           (Qle_refl 350)).
Defined.

(** ** The status of a history entry *)

Lemma renseigne_str_or_empty (rt : Runtime) (c : Cell) :
  Analyzer.renseigne rt c
  = negb (String.eqb (PyStr.strip (Analyzer.str_or_empty rt c)) "").
Proof.
  unfold Analyzer.renseigne, Analyzer.str_or_empty.
  destruct c; reflexivity.
Qed.

(** The status of the entry of one line, read on the entry itself. *)
Lemma historique_ligne_statut (rt : Runtime) (row : Analyzer.Row) :
  let h := Analyzer.historique_ligne rt row in
  let mandat := negb (String.eqb (PyStr.strip (Analyzer.h_num_mandat h)) "") in
  let facture := negb (String.eqb (PyStr.strip (Analyzer.h_num_facture h)) "") in
  let fait := negb (Qle_bool (Analyzer.h_montant_sf h) Analyzer.epsilon) in
  Analyzer.h_statut h
  = if mandat then Analyzer.Paye
    else if fait then Analyzer.ServiceFait
    else if facture then Analyzer.Facturee
    else Analyzer.EnAttente.
Proof.
  unfold Analyzer.historique_ligne.
  cbn [Analyzer.h_statut Analyzer.h_num_mandat Analyzer.h_num_facture
       Analyzer.h_montant_sf].
  cbv zeta. now rewrite !renseigne_str_or_empty.
Qed.

(** X6: every entry of [get_historique_factures] carries the status its
    own fields call for: "Payé" exactly when its mandate number is not
    blank; otherwise "Service fait" exactly when its service-fait amount
    is above 0.01; otherwise "Facturée" exactly when its invoice number is
    not blank, and "En attente" when it is.  With a contract given, every
    entry is of that contract. *)
Theorem get_historique_factures_statut (rt : Runtime)
  (df : list Analyzer.Row) (marche : option string) (h : Analyzer.HistoryRow) :
  In h (Analyzer.get_historique_factures rt df marche) ->
  let blank s := String.eqb (PyStr.strip s) "" in
  (Analyzer.h_statut h = Analyzer.Paye
   <-> blank (Analyzer.h_num_mandat h) = false)
  /\ (Analyzer.h_statut h = Analyzer.ServiceFait
      <-> blank (Analyzer.h_num_mandat h) = true
          /\ Analyzer.epsilon < Analyzer.h_montant_sf h)
  /\ (Analyzer.h_statut h = Analyzer.Facturee
      <-> blank (Analyzer.h_num_mandat h) = true
          /\ Analyzer.h_montant_sf h <= Analyzer.epsilon
          /\ blank (Analyzer.h_num_facture h) = false)
  /\ (Analyzer.h_statut h = Analyzer.EnAttente
      <-> blank (Analyzer.h_num_mandat h) = true
          /\ Analyzer.h_montant_sf h <= Analyzer.epsilon
          /\ blank (Analyzer.h_num_facture h) = true)
  /\ (forall m, marche = Some m -> m <> "" -> Analyzer.h_marche h = m).
Proof.
  intros Hin blank.
  assert (Hrow : exists row, In row (Analyzer.lignes_retenues df marche)
                             /\ h = Analyzer.historique_ligne rt row).
  { assert (Hres : Analyzer.get_historique_factures rt df marche
                   = stable_sort (fun x y => Analyzer.key_le y x)
                       (map (Analyzer.historique_ligne rt)
                          (Analyzer.lignes_retenues df marche))).
    { unfold Analyzer.get_historique_factures, Analyzer.lignes_retenues.
      destruct df as [|r0 df0] eqn:Edf.
      - destruct marche as [[|c m]|]; reflexivity.
      - rewrite <- Edf. destruct marche as [[|c m]|]; try reflexivity.
        now rewrite select_map. }
    rewrite Hres in Hin.
    apply (Permutation_in _ (stable_sort_Permutation _ _)) in Hin.
    apply in_map_iff in Hin. destruct Hin as [row [E Hr]]. now exists row. }
  destruct Hrow as [row [Hrow ->]].
  pose proof (historique_ligne_statut rt row) as Hs. cbv zeta in Hs.
  fold (blank (Analyzer.h_num_mandat (Analyzer.historique_ligne rt row))) in Hs.
  fold (blank (Analyzer.h_num_facture (Analyzer.historique_ligne rt row))) in Hs.
  assert (Hfait : forall x,
            negb (Qle_bool x Analyzer.epsilon) = false <-> x <= Analyzer.epsilon).
  { intros x. rewrite negb_false_iff. apply Qle_bool_iff. }
  rewrite Hs.
  destruct (blank (Analyzer.h_num_mandat (Analyzer.historique_ligne rt row)));
    cbn [negb];
    destruct (negb (Qle_bool (Analyzer.h_montant_sf
                                (Analyzer.historique_ligne rt row))
                      Analyzer.epsilon)) eqn:Ef;
    [apply above_epsilon_iff in Ef | apply Hfait in Ef
    |apply above_epsilon_iff in Ef | apply Hfait in Ef];
    destruct (blank (Analyzer.h_num_facture (Analyzer.historique_ligne rt row)));
    cbn [negb];
    (split; [|split; [|split; [|split]]]);
    try (split; [discriminate || (intros _; repeat split; assumption)
                | intros H; try reflexivity; try discriminate H;
                  try (destruct H as (H1 & H2 & H3); discriminate);
                  try (destruct H as (H1 & H2); try discriminate;
                       exfalso; apply (Qlt_not_le _ _ H2 Ef));
                  try (destruct H as (H1 & H2 & H3);
                       exfalso; apply (Qlt_not_le _ _ Ef H2))]).
  all: intros m -> Hm; destruct m as [|c m]; [contradiction|];
    unfold Analyzer.lignes_retenues in Hrow; apply filter_In in Hrow;
    destruct Hrow as [_ Hrow]; apply String.eqb_eq in Hrow; exact Hrow.
Qed.

(** The hypothesis of X6 holds, and its conclusion is met, on the entry of
    a line with no mandate, no amount and no invoice. *)
Lemma get_historique_factures_statut_witness :
  In (Analyzer.historique_ligne Sample.runtime
        (Sample.row "2025_02" CNaN CNaN CNaN CNaN CNaN
           (CStr "2025-01-15 00:00:00")))
     (Analyzer.get_historique_factures Sample.runtime Sample.deux_marches None)
  /\ Analyzer.h_statut
       (Analyzer.historique_ligne Sample.runtime
          (Sample.row "2025_02" CNaN CNaN CNaN CNaN CNaN
             (CStr "2025-01-15 00:00:00")))
     = Analyzer.EnAttente.
Proof.
  assert (Hin :
    In (Analyzer.historique_ligne Sample.runtime
          (Sample.row "2025_02" CNaN CNaN CNaN CNaN CNaN
             (CStr "2025-01-15 00:00:00")))
       (Analyzer.get_historique_factures Sample.runtime Sample.deux_marches
          None)) by (left; reflexivity).
  split; [exact Hin|].
  destruct (get_historique_factures_statut _ _ _ _ Hin) as (_ & _ & _ & H & _).
  apply H. split; [reflexivity|]. split; [|reflexivity].
  intros Hgt. discriminate Hgt.
Defined.

(** ** The view by operation *)

Lemma map_option_Forall2 {A B : Type} (f : A -> option B) (l : list A)
  (l' : list B) :
  Operations.map_option f l = Some l' ->
  Forall2 (fun x y => f x = Some y) l l'.
Proof.
  revert l'. induction l as [|x r IH]; intros l'; simpl.
  - intros [= <-]. constructor.
  - destruct (f x) as [y|] eqn:E; [|discriminate].
    destruct (Operations.map_option f r) as [ys|]; [|discriminate].
    intros [= <-]. constructor; [exact E | now apply IH].
Qed.

Lemma operation_view_fields (d : Operations.OperationData)
  (o : Operations.OperationView) :
  Operations.operation_view d = Some o ->
  Operations.operation o = Operations.d_operation d
  /\ Operations.marches o = Operations.d_marches d
  /\ Operations.nb_lots o = Z.of_nat (List.length (Operations.d_marches d))
  /\ Operations.montant_initial_total o = Operations.d_montant_initial_total d
  /\ Operations.service_fait_total o = Operations.d_service_fait_total d
  /\ Operations.paye_total o = Operations.d_paye_total d
  /\ Operations.nb_avenants_total o = Operations.d_nb_avenants_total d
  /\ Operations.reste_a_realiser o
     = Operations.d_montant_initial_total d - Operations.d_service_fait_total d
  /\ Operations.reste_a_mandater o
     = Operations.d_service_fait_total d - Operations.d_paye_total d.
Proof.
  unfold Operations.operation_view.
  destruct (match Operations.d_libelles d with [] => _ | _ :: _ => _ end);
    [|discriminate].
  destruct (match Operations.d_fournisseurs d with [] => _ | _ :: _ => _ end);
    [|discriminate].
  intros [= <-]. repeat split.
Qed.

Lemma group_marche_avenants (o : string) (m : Analyzer.MarcheView)
  (dict : list Operations.OperationData) :
  fold_right Z.add 0%Z
    (map Operations.d_nb_avenants_total (Operations.group_marche o m dict))
  = (fold_right Z.add 0%Z (map Operations.d_nb_avenants_total dict)
     + Analyzer.v_nb_avenants m)%Z.
Proof.
  induction dict as [|op rest IH]; simpl.
  - lia.
  - destruct (String.eqb (Operations.d_operation op) o); simpl; lia.
Qed.

Lemma group_from_avenants (dict : list Operations.OperationData)
  (l : list Analyzer.MarcheView) :
  fold_right Z.add 0%Z
    (map Operations.d_nb_avenants_total (Operations.group_from dict l))
  = (fold_right Z.add 0%Z (map Operations.d_nb_avenants_total dict)
     + fold_right Z.add 0%Z (map Analyzer.v_nb_avenants l))%Z.
Proof.
  revert dict. induction l as [|m r IH]; intros dict; simpl.
  - lia.
  - unfold Operations.group_from in *. simpl.
    rewrite IH, group_marche_avenants. lia.
Qed.

(** What one step of the grouping loop does to the keys, to the contract
    lists and to any property of the entries. *)
Lemma group_marche_keys (o : string) (m : Analyzer.MarcheView)
  (dict : list Operations.OperationData) :
  map Operations.d_operation (Operations.group_marche o m dict)
  = if existsb (fun op => String.eqb (Operations.d_operation op) o) dict
    then map Operations.d_operation dict
    else map Operations.d_operation dict ++ [o].
Proof.
  induction dict as [|op rest IH]; simpl; [reflexivity|].
  destruct (String.eqb (Operations.d_operation op) o); simpl; [reflexivity|].
  rewrite IH.
  now destruct (existsb _ rest).
Qed.

Lemma group_marche_keys_NoDup (o : string) (m : Analyzer.MarcheView)
  (dict : list Operations.OperationData) :
  NoDup (map Operations.d_operation dict) ->
  NoDup (map Operations.d_operation (Operations.group_marche o m dict)).
Proof.
  intros Hnd. rewrite group_marche_keys.
  destruct (existsb _ dict) eqn:E; [exact Hnd|].
  apply NoDup_app; [exact Hnd | repeat constructor; intros [] |].
  intros k Hk [<-|[]].
  apply in_map_iff in Hk. destruct Hk as [op [Ek Hop]].
  assert (Ht : existsb
                 (fun op => String.eqb (Operations.d_operation op) o) dict
               = true).
  { apply existsb_exists. exists op. split; [exact Hop|].
    now apply String.eqb_eq. }
  congruence.
Qed.

Lemma group_marche_marches (o : string) (m : Analyzer.MarcheView)
  (dict : list Operations.OperationData) :
  Permutation
    (concat (map Operations.d_marches (Operations.group_marche o m dict)))
    (Analyzer.v_marche m :: concat (map Operations.d_marches dict)).
Proof.
  induction dict as [|op rest IH]; simpl; [reflexivity|].
  destruct (String.eqb (Operations.d_operation op) o); simpl.
  - rewrite <- app_assoc. simpl.
    apply Permutation_sym, Permutation_middle.
  - rewrite IH. apply Permutation_sym, Permutation_middle.
Qed.

Lemma group_marche_Forall (P : Operations.OperationData -> Prop) (o : string)
  (m : Analyzer.MarcheView) (dict : list Operations.OperationData) :
  (forall op, Operations.d_operation op = o ->
              P op \/ op = Operations.new_operation o ->
              P (Operations.add_marche op m)) ->
  Forall P dict -> Forall P (Operations.group_marche o m dict).
Proof.
  intros Hadd. induction 1 as [|op rest Hop Hrest IH]; simpl.
  - constructor; [|constructor]. apply Hadd; [reflexivity | now right].
  - destruct (String.eqb (Operations.d_operation op) o) eqn:E.
    + constructor; [|exact Hrest].
      apply Hadd; [now apply String.eqb_eq | now left].
    + now constructor.
Qed.

Lemma group_from_Forall (P : Operations.OperationData -> Prop)
  (l : list Analyzer.MarcheView) (dict : list Operations.OperationData) :
  (forall m op, In m l ->
     Operations.d_operation op = extract_operation (Analyzer.v_marche m) ->
     P op \/ op = Operations.new_operation
                    (extract_operation (Analyzer.v_marche m)) ->
     P (Operations.add_marche op m)) ->
  Forall P dict -> Forall P (Operations.group_from dict l).
Proof.
  revert dict. induction l as [|m r IH]; intros dict Hadd Hd; [exact Hd|].
  unfold Operations.group_from in *. simpl. apply IH.
  - intros m' op Hm'. apply Hadd. now right.
  - apply group_marche_Forall; [|exact Hd].
    intros op. apply Hadd. now left.
Qed.

Lemma group_from_keys_NoDup (l : list Analyzer.MarcheView)
  (dict : list Operations.OperationData) :
  NoDup (map Operations.d_operation dict) ->
  NoDup (map Operations.d_operation (Operations.group_from dict l)).
Proof.
  revert dict. induction l as [|m r IH]; intros dict Hd; [exact Hd|].
  unfold Operations.group_from in *. simpl.
  apply IH. now apply group_marche_keys_NoDup.
Qed.

Lemma group_from_marches (l : list Analyzer.MarcheView)
  (dict : list Operations.OperationData) :
  Permutation
    (concat (map Operations.d_marches (Operations.group_from dict l)))
    (concat (map Operations.d_marches dict) ++ map Analyzer.v_marche l).
Proof.
  revert dict. induction l as [|m r IH]; intros dict.
  - simpl. now rewrite app_nil_r.
  - unfold Operations.group_from in *. simpl.
    rewrite IH, group_marche_marches. simpl.
    apply Permutation_middle.
Qed.

(** The entries of the result and the entries of the dictionary. *)
Lemma get_vision_operations_entries (rt : Runtime) (db : option Db.Database)
  (df : list Analyzer.Row) (ops : list Operations.OperationView) :
  Operations.get_vision_operations rt db df = Some ops ->
  exists results,
    Forall2 (fun d o => Operations.operation_view d = Some o)
      (Operations.group_from [] (Analyzer.get_vision_globale rt db df))
      results
    /\ Permutation ops results
    /\ ops = stable_sort
               (fun x y => String.leb (Operations.operation x)
                             (Operations.operation y)) results.
Proof.
  unfold Operations.get_vision_operations.
  destruct (Analyzer.get_vision_globale rt db df) as [|v view] eqn:E.
  - intros [= <-]. exists []. repeat split; constructor.
  - fold (Operations.group_from [] (v :: view)).
    change (Operations.group_operations (v :: view))
      with (Operations.group_from [] (v :: view)).
    destruct (Operations.map_option _ _) as [results|] eqn:Em; [|discriminate].
    intros [= <-]. exists results. split; [|split].
    + now apply map_option_Forall2.
    + apply stable_sort_Permutation.
    + reflexivity.
Qed.

Lemma Forall2_map_eq {A B C : Type} (f : A -> C) (g : B -> C)
  (R : A -> B -> Prop) (l : list A) (l' : list B) :
  (forall x y, R x y -> f x = g y) ->
  Forall2 R l l' -> map f l = map g l'.
Proof.
  intros H. induction 1 as [|x y l l' Hxy _ IH]; simpl; [reflexivity|].
  now rewrite (H x y Hxy), IH.
Qed.

Lemma Forall2_In_r {A B : Type} (R : A -> B -> Prop) (l : list A)
  (l' : list B) (y : B) :
  Forall2 R l l' -> In y l' -> exists x, In x l /\ R x y.
Proof.
  induction 1 as [|x y' l l' Hxy _ IH]; intros Hin; [destruct Hin|].
  destruct Hin as [<- | Hin].
  - exists x. split; [now left | exact Hxy].
  - destruct (IH Hin) as [x' [Hx' Hr]]. exists x'. split; [now right | exact Hr].
Qed.

Lemma Zsum_Permutation (l l' : list Z) :
  Permutation l l' -> fold_right Z.add 0%Z l = fold_right Z.add 0%Z l'.
Proof. induction 1; simpl; lia. Qed.

Lemma Zsum_lengths {A : Type} (ls : list (list A)) :
  fold_right Z.add 0%Z (map (fun l => Z.of_nat (List.length l)) ls)
  = Z.of_nat (List.length (concat ls)).
Proof.
  induction ls as [|l r IH]; simpl; [reflexivity|].
  rewrite IH, length_app. lia.
Qed.

Lemma Permutation_concat_map {A B : Type} (f : A -> list B) (l l' : list A) :
  Permutation l l' -> Permutation (concat (map f l)) (concat (map f l')).
Proof.
  intros H. rewrite <- !flat_map_concat_map. now apply Permutation_flat_map.
Qed.

(** The contract lists of the result are those of the dictionary. *)
Lemma get_vision_operations_marches (rt : Runtime) (db : option Db.Database)
  (df : list Analyzer.Row) (ops : list Operations.OperationView) :
  Operations.get_vision_operations rt db df = Some ops ->
  Permutation (concat (map Operations.marches ops))
    (map Analyzer.v_marche (Analyzer.get_vision_globale rt db df)).
Proof.
  intros H. destruct (get_vision_operations_entries _ _ _ _ H)
    as (results & HF & Hperm & _).
  rewrite (Permutation_concat_map Operations.marches _ _ Hperm).
  rewrite <- (Forall2_map_eq Operations.d_marches Operations.marches _ _ _
                (fun d o Hd =>
                   eq_sym (proj1 (proj2 (operation_view_fields d o Hd)))) HF).
  apply (group_from_marches _ []).
Qed.

(** The operations of the result are distinct and in ascending order;
    each entry lists contracts of its own operation, and at least one. *)
Lemma get_vision_operations_structure (rt : Runtime)
  (db : option Db.Database) (df : list Analyzer.Row)
  (ops : list Operations.OperationView) :
  Operations.get_vision_operations rt db df = Some ops ->
  NoDup (map Operations.operation ops)
  /\ StronglySorted (fun a b => String.leb a b = true)
       (map Operations.operation ops)
  /\ (forall o, In o ops ->
        Operations.nb_lots o = Z.of_nat (List.length (Operations.marches o))
        /\ Operations.marches o <> []
        /\ forall c, In c (Operations.marches o) ->
             extract_operation c = Operations.operation o).
Proof.
  intros H.
  destruct (get_vision_operations_entries _ _ _ _ H)
    as (results & HF & Hperm & Hsort).
  split; [|split].
  - apply (Permutation_NoDup
             (Permutation_map Operations.operation (Permutation_sym Hperm))).
    rewrite <- (Forall2_map_eq Operations.d_operation Operations.operation
                  _ _ _
                  (fun d o Hd => eq_sym (proj1 (operation_view_fields d o Hd)))
                  HF).
    apply group_from_keys_NoDup. constructor.
  - rewrite Hsort.
    rewrite (stable_sort_map Operations.operation String.leb).
    apply (stable_sort_StronglySorted String.leb).
    + apply string_leb_total_false.
    + apply string_leb_trans.
  - intros o Ho.
    apply (Permutation_in _ Hperm) in Ho.
    destruct (Forall2_In_r _ _ _ _ HF Ho) as [d [Hd Hv]].
    destruct (operation_view_fields d o Hv) as (Eo & Em & En & _).
    assert (HP : Forall
              (fun d => Operations.d_marches d <> []
                        /\ forall c, In c (Operations.d_marches d) ->
                             extract_operation c = Operations.d_operation d)
              (Operations.group_from []
                 (Analyzer.get_vision_globale rt db df))).
    { apply group_from_Forall; [|constructor].
      intros m op _ Eop Hop. simpl. split.
      - intros E. now apply app_eq_nil in E as [_ E].
      - intros c Hc. apply in_app_or in Hc.
        destruct Hc as [Hc | [<- | []]]; [|now rewrite Eop].
        destruct Hop as [[_ Hop] | ->]; [now apply Hop | destruct Hc]. }
    destruct (proj1 (Forall_forall _ _) HP d Hd) as [Hne Hall].
    rewrite En, Em, Eo. split; [reflexivity|]. split; assumption.
Qed.

(** X7: [get_vision_operations] files every contract of
    [get_vision_globale] under exactly one operation, the one
    [extract_operation] gives for its code: the contract lists of the
    entries, put together, are the contracts of the view by contract, each
    entry lists only contracts of its operation and at least one, [nb_lots]
    is the length of that list, and the entries come in strictly ascending
    order of operation code. *)
Theorem get_vision_operations_partition (rt : Runtime)
  (db : option Db.Database) (df : list Analyzer.Row)
  (ops : list Operations.OperationView) :
  Operations.get_vision_operations rt db df = Some ops ->
  StronglySorted (fun a b => String.ltb a b = true)
    (map Operations.operation ops)
  /\ Permutation (concat (map Operations.marches ops))
       (map Analyzer.v_marche (Analyzer.get_vision_globale rt db df))
  /\ (forall o, In o ops ->
        Operations.nb_lots o = Z.of_nat (List.length (Operations.marches o))
        /\ (0 < Operations.nb_lots o)%Z
        /\ forall c, In c (Operations.marches o) ->
             extract_operation c = Operations.operation o).
Proof.
  intros H. pose proof (get_vision_operations_marches _ _ _ _ H) as Hm.
  destruct (get_vision_operations_structure _ _ _ _ H) as (Hnd & Hs & Hall).
  split; [|split; [exact Hm|]].
  - now apply StronglySorted_strict.
  - intros o Ho. destruct (Hall o Ho) as (En & Hne & Hc).
    split; [exact En|]. split; [|exact Hc].
    rewrite En. destruct (Operations.marches o); [congruence | simpl; lia].
Qed.

(** X7 on the sample of three lots: the hypothesis holds and the lots
    2024_17_1 and 2024_17_2 are filed under 2024_17. *)
Lemma get_vision_operations_partition_witness :
  exists ops,
    Operations.get_vision_operations Sample.runtime None Lots.trois_lots
    = Some ops
    /\ map Operations.marches ops = [["2024_17_1"; "2024_17_2"]; ["2025_12"]]
    /\ StronglySorted (fun a b => String.ltb a b = true)
         (map Operations.operation ops).
Proof.
  destruct (Operations.get_vision_operations Sample.runtime None
              Lots.trois_lots) as [ops|] eqn:E; [|discriminate E].
  exists ops. split; [reflexivity|]. split.
  - injection E as <-. reflexivity.
  - exact (proj1 (get_vision_operations_partition _ _ _ _ E)).
Defined.

Section Accumulated.

(** The contract belongs to the operation. *)
Let belongs (o : string) (v : Analyzer.MarcheView) : bool :=
  String.eqb (extract_operation (Analyzer.v_marche v)) o.

(** The entry of the dictionary lists the contracts of its operation met
    so far, and each of its totals is the sum accumulated over them from
    0, one addition for each in the order met. *)
Let accumulated (pre : list Analyzer.MarcheView)
  (d : Operations.OperationData) : Prop :=
  let lots := filter (belongs (Operations.d_operation d)) pre in
  Operations.d_marches d = map Analyzer.v_marche lots
  /\ Operations.d_montant_initial_total d
     = fold_left Qplus (map Analyzer.v_montant_initial_marche lots) 0
  /\ Operations.d_service_fait_total d
     = fold_left Qplus (map Analyzer.v_service_fait_cumule lots) 0
  /\ Operations.d_paye_total d
     = fold_left Qplus (map Analyzer.v_paye_cumule lots) 0
  /\ Operations.d_nb_avenants_total d
     = fold_left Z.add (map Analyzer.v_nb_avenants lots) 0%Z.

Lemma accumulated_other (pre : list Analyzer.MarcheView)
  (m : Analyzer.MarcheView) (d : Operations.OperationData) :
  Operations.d_operation d <> extract_operation (Analyzer.v_marche m) ->
  accumulated pre d -> accumulated (pre ++ [m]) d.
Proof.
  intros Hne H.
  assert (Ef : filter (belongs (Operations.d_operation d)) (pre ++ [m])
               = filter (belongs (Operations.d_operation d)) pre).
  { rewrite filter_app. simpl. unfold belongs at 2.
    assert (E : String.eqb (extract_operation (Analyzer.v_marche m))
                  (Operations.d_operation d) = false)
      by (apply String.eqb_neq; congruence).
    rewrite E. apply app_nil_r. }
  unfold accumulated in *. cbv zeta in *. rewrite Ef. exact H.
Qed.

Lemma accumulated_add (pre : list Analyzer.MarcheView)
  (m : Analyzer.MarcheView) (d : Operations.OperationData) :
  Operations.d_operation d = extract_operation (Analyzer.v_marche m) ->
  accumulated pre d -> accumulated (pre ++ [m]) (Operations.add_marche d m).
Proof.
  intros Ekey (Hm & Hi & Hs & Hp & Ha).
  assert (Ef : filter (belongs (Operations.d_operation d)) (pre ++ [m])
               = filter (belongs (Operations.d_operation d)) pre ++ [m]).
  { rewrite filter_app. simpl. unfold belongs at 2.
    now rewrite Ekey, String.eqb_refl. }
  unfold accumulated. cbv zeta.
  cbn [Operations.add_marche Operations.d_operation Operations.d_marches
       Operations.d_montant_initial_total Operations.d_service_fait_total
       Operations.d_paye_total Operations.d_nb_avenants_total].
  rewrite Ef, !map_app, !fold_left_app. simpl.
  now rewrite Hm, Hi, Hs, Hp, Ha.
Qed.

Lemma accumulated_new (pre : list Analyzer.MarcheView)
  (m : Analyzer.MarcheView) :
  filter (belongs (extract_operation (Analyzer.v_marche m))) pre = [] ->
  accumulated (pre ++ [m])
    (Operations.add_marche
       (Operations.new_operation (extract_operation (Analyzer.v_marche m))) m).
Proof.
  intros Hnone. apply accumulated_add; [reflexivity|].
  unfold accumulated. cbv zeta. simpl. rewrite Hnone. repeat split.
Qed.

Lemma group_marche_accumulated (pre : list Analyzer.MarcheView)
  (m : Analyzer.MarcheView) (dict : list Operations.OperationData) :
  NoDup (map Operations.d_operation dict) ->
  (existsb (fun op => String.eqb (Operations.d_operation op)
                        (extract_operation (Analyzer.v_marche m))) dict
   = false ->
   filter (belongs (extract_operation (Analyzer.v_marche m))) pre = []) ->
  Forall (accumulated pre) dict ->
  Forall (accumulated (pre ++ [m]))
    (Operations.group_marche (extract_operation (Analyzer.v_marche m)) m dict).
Proof.
  intros Hnd Hnone Hall. induction Hall as [|op rest Hop Hrest IH]; simpl.
  - constructor; [|constructor]. apply accumulated_new. now apply Hnone.
  - inversion Hnd as [|? ? Hnotin Hnd']; subst.
    simpl in Hnone.
    destruct (String.eqb_spec (Operations.d_operation op)
                (extract_operation (Analyzer.v_marche m))) as [E | E].
    + constructor; [now apply accumulated_add|].
      apply Forall_forall. intros d Hd.
      apply accumulated_other; [|exact (proj1 (Forall_forall _ _) Hrest d Hd)].
      intros Ed. apply Hnotin. rewrite E, <- Ed. now apply in_map.
    + constructor; [now apply accumulated_other|].
      apply IH; assumption.
Qed.

Lemma group_from_accumulated (l pre : list Analyzer.MarcheView)
  (dict : list Operations.OperationData) :
  NoDup (map Operations.d_operation dict) ->
  (forall v, In v pre ->
     In (extract_operation (Analyzer.v_marche v))
       (map Operations.d_operation dict)) ->
  Forall (accumulated pre) dict ->
  Forall (accumulated (pre ++ l)) (Operations.group_from dict l).
Proof.
  revert pre dict. induction l as [|m r IH]; intros pre dict Hnd Hfiled Hall.
  - rewrite app_nil_r. exact Hall.
  - change (Operations.group_from dict (m :: r))
      with (Operations.group_from
              (Operations.group_marche
                 (extract_operation (Analyzer.v_marche m)) m dict) r).
    replace (pre ++ m :: r) with ((pre ++ [m]) ++ r)
      by (now rewrite <- app_assoc).
    assert (Hkeys : forall k,
              In k (map Operations.d_operation
                      (Operations.group_marche
                         (extract_operation (Analyzer.v_marche m)) m dict))
              <-> In k (map Operations.d_operation dict)
                  \/ k = extract_operation (Analyzer.v_marche m)).
    { intros k. rewrite group_marche_keys.
      destruct (existsb _ dict) eqn:E.
      - split; [now left|]. intros [H | ->]; [exact H|].
        apply existsb_exists in E. destruct E as [op [Hop Eop]].
        apply String.eqb_eq in Eop. rewrite <- Eop. now apply in_map.
      - rewrite in_app_iff. simpl. split.
        + intros [H | [<- | []]]; [now left | now right].
        + intros [H | ->]; [now left | right; now left]. }
    apply IH.
    + now apply group_marche_keys_NoDup.
    + intros v Hv. apply Hkeys. apply in_app_or in Hv.
      destruct Hv as [Hv | [<- | []]]; [left; now apply Hfiled | now right].
    + apply group_marche_accumulated; [exact Hnd | | exact Hall].
      intros Hnew.
      assert (Hnot : forall v, In v pre ->
                belongs (extract_operation (Analyzer.v_marche m)) v = false).
      { intros v Hv. unfold belongs. apply String.eqb_neq. intros Ev.
        pose proof (Hfiled v Hv) as Hk. rewrite Ev in Hk.
        apply in_map_iff in Hk. destruct Hk as [op [Eop Hop]].
        assert (Ht : existsb
                       (fun op => String.eqb (Operations.d_operation op)
                                    (extract_operation (Analyzer.v_marche m)))
                       dict = true).
        { apply existsb_exists. exists op. split; [exact Hop|].
          now apply String.eqb_eq. }
        congruence. }
      clear - Hnot. induction pre as [|v vs IHv]; [reflexivity|].
      simpl. rewrite (Hnot v (or_introl eq_refl)). apply IHv.
      intros v' Hv'. apply Hnot. now right.
Qed.

(** The dictionary after the loop over the whole view. *)
Lemma group_operations_accumulated (view : list Analyzer.MarcheView)
  (d : Operations.OperationData) :
  In d (Operations.group_from [] view) ->
  let lots :=
    filter (fun v => String.eqb (extract_operation (Analyzer.v_marche v))
                       (Operations.d_operation d)) view in
  Operations.d_marches d = map Analyzer.v_marche lots
  /\ Operations.d_montant_initial_total d
     = fold_left Qplus (map Analyzer.v_montant_initial_marche lots) 0
  /\ Operations.d_service_fait_total d
     = fold_left Qplus (map Analyzer.v_service_fait_cumule lots) 0
  /\ Operations.d_paye_total d
     = fold_left Qplus (map Analyzer.v_paye_cumule lots) 0
  /\ Operations.d_nb_avenants_total d
     = fold_left Z.add (map Analyzer.v_nb_avenants lots) 0%Z.
Proof.
  intros Hd.
  assert (Hacc : Forall (accumulated ([] ++ view))
                   (Operations.group_from [] view)).
  { apply group_from_accumulated; [constructor | intros v [] | constructor]. }
  simpl in Hacc. exact (proj1 (Forall_forall _ _) Hacc d Hd).
Qed.

End Accumulated.

(** X8: [get_vision_operations] adds up, for each operation, the
    entries of [get_vision_globale] whose contract belongs to it, and
    no other: the contracts it lists are theirs, in the order of the view
    by contract, and each of its totals (initial amount, service fait,
    paid, amendments) is accumulated from 0 over them in that order, one
    addition for each.  Over the operations, the numbers of amendments and
    the numbers of lots add up to those of the contracts. *)
Theorem get_vision_operations_totals (rt : Runtime)
  (db : option Db.Database) (df : list Analyzer.Row)
  (ops : list Operations.OperationView) :
  Operations.get_vision_operations rt db df = Some ops ->
  let view := Analyzer.get_vision_globale rt db df in
  (forall o, In o ops ->
     let lots :=
       filter (fun v => String.eqb (extract_operation (Analyzer.v_marche v))
                          (Operations.operation o)) view in
     Operations.marches o = map Analyzer.v_marche lots
     /\ Operations.montant_initial_total o
        = fold_left Qplus (map Analyzer.v_montant_initial_marche lots) 0
     /\ Operations.service_fait_total o
        = fold_left Qplus (map Analyzer.v_service_fait_cumule lots) 0
     /\ Operations.paye_total o
        = fold_left Qplus (map Analyzer.v_paye_cumule lots) 0
     /\ Operations.nb_avenants_total o
        = fold_left Z.add (map Analyzer.v_nb_avenants lots) 0%Z)
  /\ fold_right Z.add 0%Z (map Operations.nb_avenants_total ops)
     = fold_right Z.add 0%Z (map Analyzer.v_nb_avenants view)
  /\ fold_right Z.add 0%Z (map Operations.nb_lots ops)
     = Z.of_nat (List.length view).
Proof.
  intros H view. pose proof (get_vision_operations_marches _ _ _ _ H) as Hm.
  destruct (get_vision_operations_entries _ _ _ _ H)
    as (results & HF & Hperm & _).
  fold view in HF, Hm.
  split; [|split].
  - intros o Ho. apply (Permutation_in _ Hperm) in Ho.
    destruct (Forall2_In_r _ _ _ _ HF Ho) as [d [Hd Hv]].
    destruct (operation_view_fields d o Hv)
      as (Eo & Em & _ & Ei & Es & Ep & Ea & _).
    destruct (group_operations_accumulated view d Hd)
      as (Hm' & Hi & Hs & Hp & Ha).
    cbv zeta. rewrite Eo, Em, Ei, Es, Ep, Ea.
    repeat split; assumption.
  - rewrite (Zsum_Permutation _ _
               (Permutation_map Operations.nb_avenants_total Hperm)).
    rewrite <- (Forall2_map_eq Operations.d_nb_avenants_total
                  Operations.nb_avenants_total _ _ _
                  (fun d o Hd => eq_sym (proj1 (proj2 (proj2 (proj2 (proj2
                     (proj2 (proj2 (operation_view_fields d o Hd)))))))))
                  HF).
    now rewrite group_from_avenants.
  - rewrite (Zsum_Permutation _ _ (Permutation_map Operations.nb_lots Hperm)).
    rewrite <- (Forall2_map_eq
                  (fun d => Z.of_nat (List.length (Operations.d_marches d)))
                  Operations.nb_lots _ _ _
                  (fun d o Hd => eq_sym (proj1 (proj2 (proj2
                     (operation_view_fields d o Hd))))) HF).
    rewrite <- (map_map Operations.d_marches
                  (fun l => Z.of_nat (List.length l))).
    rewrite Zsum_lengths.
    rewrite (Forall2_map_eq Operations.d_marches Operations.marches _ _ _
               (fun d o Hd =>
                  eq_sym (proj1 (proj2 (operation_view_fields d o Hd)))) HF).
    rewrite <- (Permutation_length
                  (Permutation_concat_map Operations.marches _ _ Hperm)).
    rewrite (Permutation_length Hm). now rewrite length_map.
Qed.


(** X8 on the sample of three lots: the operation 2024_17 has accumulated
    100, 25 and 50 of service fait, the operation 2025_12 has 10, and the
    two operations have three lots. *)
Lemma get_vision_operations_totals_witness :
  exists ops,
    Operations.get_vision_operations Sample.runtime None Lots.trois_lots
    = Some ops
    /\ Forall2 Qeq (map Operations.service_fait_total ops) [175; 10]
    /\ fold_right Z.add 0%Z (map Operations.nb_lots ops) = 3%Z.
Proof.
  destruct (Operations.get_vision_operations Sample.runtime None
              Lots.trois_lots) as [ops|] eqn:E; [|discriminate E].
  exists ops. split; [reflexivity|]. split.
  - injection E as <-. repeat constructor.
  - rewrite (proj2 (proj2 (get_vision_operations_totals _ _ _ _ E))).
    reflexivity.
Defined.

(** ** When the view by operation raises *)

Lemma texts_None (l : list Cell) :
  Operations.texts l = None
  <-> existsb (fun c => negb (Operations.is_text c)) l = true.
Proof.
  induction l as [|c r IH]; simpl; [split; discriminate|].
  destruct c as [|q|s]; simpl; try (split; reflexivity).
  destruct (Operations.texts r); rewrite <- IH; split; congruence.
Qed.

Lemma join_or_empty_None (sep : string) (l : list Cell) :
  match l with [] => Some "" | l' => Operations.join_cells sep l' end = None
  <-> existsb (fun c => negb (Operations.is_text c)) l = true.
Proof.
  rewrite <- texts_None. unfold Operations.join_cells.
  destruct l as [|c r]; [simpl; split; discriminate|].
  destruct (Operations.texts (c :: r)); split; congruence.
Qed.

Lemma operation_view_None (d : Operations.OperationData) :
  Operations.operation_view d = None <-> Operations.holds_refused d = true.
Proof.
  unfold Operations.operation_view, Operations.holds_refused.
  rewrite orb_true_iff.
  rewrite <- (join_or_empty_None " | " (Operations.d_libelles d)).
  rewrite <- (join_or_empty_None " | " (Operations.d_fournisseurs d)).
  destruct (Operations.d_libelles d) as [|c1 r1];
    destruct (Operations.d_fournisseurs d) as [|c2 r2];
    cbv beta zeta iota;
    try destruct (Operations.join_cells " | " (c1 :: r1));
    try destruct (Operations.join_cells " | " (c2 :: r2));
    (split; intros H; try reflexivity; try discriminate H;
     try (now left); try (now right); destruct H as [H|H]; discriminate H).
Qed.

Lemma map_option_None {A B : Type} (f : A -> option B) (l : list A) :
  Operations.map_option f l = None <-> exists x, In x l /\ f x = None.
Proof.
  induction l as [|x r IH]; simpl.
  - split; [discriminate | intros [x [[] _]]].
  - destruct (f x) as [y|] eqn:E.
    + destruct (Operations.map_option f r) as [ys|].
      * split; [discriminate|]. intros [x' [[<- | Hx'] Ex']]; [congruence|].
        assert (Hn : Some ys = None) by (apply IH; now exists x').
        discriminate Hn.
      * split; [|reflexivity]. intros _.
        destruct (proj1 IH eq_refl) as [x' [Hx' Ex']].
        exists x'. split; [now right | exact Ex'].
    + split; [|reflexivity]. intros _. exists x. split; [now left | exact E].
Qed.

(** Appending a value unless it is false or already there. *)
Lemma append_refused (c : Cell) (l : list Cell) :
  existsb (fun c => negb (Operations.is_text c))
    (if Operations.truthy c && negb (Operations.cell_in c l)
     then l ++ [c] else l)
  = existsb (fun c => negb (Operations.is_text c)) l || Operations.refused c.
Proof.
  unfold Operations.refused.
  destruct (Operations.truthy c); simpl; [|now rewrite orb_false_r].
  destruct (Operations.cell_in c l) eqn:Ein; simpl.
  - destruct (Operations.is_text c) eqn:Et; simpl; [now rewrite orb_false_r|].
    rewrite orb_true_r. apply existsb_exists.
    apply existsb_exists in Ein. destruct Ein as [x [Hx Esame]].
    exists x. split; [exact Hx|].
    destruct c, x; try discriminate; reflexivity.
  - rewrite existsb_app. simpl. now rewrite orb_false_r.
Qed.

Lemma add_marche_refused (op : Operations.OperationData)
  (m : Analyzer.MarcheView) :
  Operations.holds_refused (Operations.add_marche op m)
  = Operations.holds_refused op
    || (Operations.refused (Analyzer.v_libelle_marche m)
        || Operations.refused (Analyzer.v_fournisseur m)).
Proof.
  unfold Operations.holds_refused, Operations.add_marche.
  cbn [Operations.d_libelles Operations.d_fournisseurs].
  rewrite !append_refused.
  destruct (existsb _ (Operations.d_libelles op));
    destruct (existsb _ (Operations.d_fournisseurs op));
    destruct (Operations.refused (Analyzer.v_libelle_marche m));
    destruct (Operations.refused (Analyzer.v_fournisseur m)); reflexivity.
Qed.

Lemma group_marche_refused (o : string) (m : Analyzer.MarcheView)
  (dict : list Operations.OperationData) :
  existsb Operations.holds_refused (Operations.group_marche o m dict)
  = existsb Operations.holds_refused dict
    || (Operations.refused (Analyzer.v_libelle_marche m)
        || Operations.refused (Analyzer.v_fournisseur m)).
Proof.
  induction dict as [|op rest IH]; simpl.
  - rewrite add_marche_refused. simpl. now rewrite orb_false_r.
  - destruct (String.eqb (Operations.d_operation op) o); simpl.
    + rewrite add_marche_refused.
      destruct (Operations.holds_refused op);
        destruct (existsb Operations.holds_refused rest);
        destruct (Operations.refused (Analyzer.v_libelle_marche m));
        destruct (Operations.refused (Analyzer.v_fournisseur m)); reflexivity.
    + rewrite IH. now rewrite <- !orb_assoc.
Qed.

Lemma group_from_refused (l : list Analyzer.MarcheView)
  (dict : list Operations.OperationData) :
  existsb Operations.holds_refused (Operations.group_from dict l)
  = existsb Operations.holds_refused dict
    || existsb (fun m => Operations.refused (Analyzer.v_libelle_marche m)
                         || Operations.refused (Analyzer.v_fournisseur m)) l.
Proof.
  revert dict. induction l as [|m r IH]; intros dict; simpl.
  - now rewrite orb_false_r.
  - unfold Operations.group_from in *. simpl.
    rewrite IH, group_marche_refused. now rewrite <- !orb_assoc.
Qed.

Lemma first_or_empty_dropna (l : list Cell) :
  Analyzer.first_or_empty (Pd.dropna l) <> CNaN.
Proof.
  unfold Pd.dropna. induction l as [|c r IH]; simpl; [discriminate|].
  destruct c; simpl; try discriminate. exact IH.
Qed.

Lemma vision_marche_labels (rt : Runtime) (db : option Db.Database)
  (df : list Analyzer.Row) (code : string) :
  Analyzer.v_libelle_marche (Analyzer.vision_marche rt db df code) <> CNaN
  /\ Analyzer.v_fournisseur (Analyzer.vision_marche rt db df code) <> CNaN.
Proof.
  unfold Analyzer.vision_marche. cbv zeta.
  repeat match goal with
         | |- context [let '(x, y) := ?e in _] => destruct e
         end.
  simpl. split; apply first_or_empty_dropna.
Qed.

Lemma refused_number (c : Cell) :
  c <> CNaN ->
  (Operations.refused c = true <-> exists q, c = CNum q /\ ~ q == 0).
Proof.
  intros Hc. unfold Operations.refused.
  destruct c as [|q|s]; [contradiction| |].
  - simpl. rewrite andb_true_r, negb_true_iff. split.
    + intros E. exists q. split; [reflexivity|].
      intros Hq. apply Qeq_bool_iff in Hq. congruence.
    + intros [q' [[= <-] Hq]].
      destruct (Qeq_bool q 0) eqn:E; [|reflexivity].
      apply Qeq_bool_iff in E. contradiction.
  - simpl. rewrite andb_false_r. split; [discriminate|].
    intros [q [E _]]. discriminate E.
Qed.

Lemma get_vision_globale_entry (rt : Runtime) (db : option Db.Database)
  (df : list Analyzer.Row) (v : Analyzer.MarcheView) :
  In v (Analyzer.get_vision_globale rt db df) ->
  exists code, v = Analyzer.vision_marche rt db df code.
Proof.
  rewrite get_vision_globale_unfold. intros H.
  apply (Permutation_in _ (stable_sort_Permutation _ _)) in H.
  apply in_map_iff in H. destruct H as [code [E _]]. now exists code.
Qed.

(** X9: [get_vision_operations] raises (the [TypeError] of [join]) exactly
    when the label or the supplier of some contract, as
    [get_vision_globale] shows it, is a number other than zero; with texts,
    missing values and zeros only it returns its list. *)
Theorem get_vision_operations_raises (rt : Runtime) (db : option Db.Database)
  (df : list Analyzer.Row) :
  Operations.get_vision_operations rt db df = None
  <-> exists v q,
        In v (Analyzer.get_vision_globale rt db df)
        /\ ~ q == 0
        /\ (Analyzer.v_libelle_marche v = CNum q
            \/ Analyzer.v_fournisseur v = CNum q).
Proof.
  assert (Hstep :
    Operations.get_vision_operations rt db df = None
    <-> existsb (fun m => Operations.refused (Analyzer.v_libelle_marche m)
                          || Operations.refused (Analyzer.v_fournisseur m))
          (Analyzer.get_vision_globale rt db df) = true).
  { unfold Operations.get_vision_operations.
    destruct (Analyzer.get_vision_globale rt db df) as [|v0 view];
      [simpl; split; discriminate|].
    change (Operations.group_operations (v0 :: view))
      with (Operations.group_from [] (v0 :: view)).
    rewrite <- (orb_false_l (existsb _ (v0 :: view))).
    change false with (existsb Operations.holds_refused []) at 1.
    rewrite <- group_from_refused.
    destruct (Operations.map_option Operations.operation_view
                (Operations.group_from [] (v0 :: view))) as [results|] eqn:Em.
    - split; [discriminate|]. intros Hex.
      apply existsb_exists in Hex. destruct Hex as [d [Hd Hbad]].
      assert (Hn : Operations.map_option Operations.operation_view
                     (Operations.group_from [] (v0 :: view)) = None).
      { apply map_option_None. exists d. split; [exact Hd|].
        now apply operation_view_None. }
      congruence.
    - split; [|reflexivity]. intros _.
      apply map_option_None in Em. destruct Em as [d [Hd Hnone]].
      apply existsb_exists. exists d. split; [exact Hd|].
      now apply operation_view_None. }
  rewrite Hstep, existsb_exists. split.
  - intros [v [Hv Hbad]].
    destruct (get_vision_globale_entry _ _ _ _ Hv) as [code Ev].
    apply orb_true_iff in Hbad. destruct Hbad as [Hbad | Hbad].
    + apply refused_number in Hbad.
      * destruct Hbad as [q [Eq Hq]]. exists v, q. tauto.
      * rewrite Ev. apply vision_marche_labels.
    + apply refused_number in Hbad.
      * destruct Hbad as [q [Eq Hq]]. exists v, q. tauto.
      * rewrite Ev. apply vision_marche_labels.
  - intros (v & q & Hv & Hq & Hcell). exists v. split; [exact Hv|].
    destruct (get_vision_globale_entry _ _ _ _ Hv) as [code Ev].
    apply orb_true_iff. destruct Hcell as [E | E]; [left | right].
    + apply refused_number; [rewrite E; discriminate|]. now exists q.
    + apply refused_number; [rewrite E; discriminate|]. now exists q.
Qed.

(** ** Exercices *)

Lemma take_two_length (s : string) :
  (2 <= String.length s)%nat -> String.length (PyStr.take 2 s) = 2%nat.
Proof.
  destruct s as [|a [|b r]]; simpl; intros H; try lia.
Qed.

(** X10: [extract_exercice_from_bdc] never returns anything but
    ["Inconnu"] or a year of four characters: ["20"] followed by the two
    leading digits of the stripped text of the order number. *)
Theorem extract_exercice_from_bdc_range (rt : Runtime) (num_commande : Cell) :
  let exercice := Operations.extract_exercice_from_bdc rt num_commande in
  exercice = "Inconnu"
  \/ exists d,
       exercice = ("20" ++ d)%string
       /\ d = PyStr.slice_to 2 (PyStr.strip (Pd.str rt num_commande))
       /\ String.length d = 2%nat
       /\ PyStr.isdigit d = true
       /\ Operations.truthy num_commande = true.
Proof.
  intros exercice. unfold exercice, Operations.extract_exercice_from_bdc.
  destruct (Operations.truthy num_commande); simpl; [|now left].
  destruct (PyStr.len (PyStr.strip (Pd.str rt num_commande)) <? 2)%Z eqn:El;
    simpl; [now left|].
  unfold Operations.two_digits.
  destruct (PyStr.isdigit
              (PyStr.slice_to 2 (PyStr.strip (Pd.str rt num_commande))))
    eqn:Ed; simpl; [|now left].
  right. eexists. split; [reflexivity|]. split; [reflexivity|].
  split; [|split; [exact Ed | reflexivity]].
  apply take_two_length. apply Z.ltb_ge in El. unfold PyStr.len in El. lia.
Qed.

Lemma exercices_marche_In (rt : Runtime) (df : list Analyzer.Row)
  (c : string) (acc : set string) (e : string) :
  In e (Operations.exercices_marche rt df c acc)
  <-> In e acc
      \/ exists r, In r df /\ Analyzer.marche r = c
                   /\ e = Operations.extract_exercice_from_bdc rt
                            (Operations.num_commande_of r).
Proof.
  unfold Operations.exercices_marche.
  rewrite <- (map_map Analyzer.marche (fun x => String.eqb x c)).
  assert (Hsel : forall r,
            In r (Pd.select (map (fun x => String.eqb x c)
                               (map Analyzer.marche df)) df)
            <-> In r df /\ Analyzer.marche r = c).
  { intros r. rewrite map_map, select_map, filter_In.
    now rewrite String.eqb_eq. }
  revert Hsel.
  generalize (Pd.select (map (fun x => String.eqb x c)
                           (map Analyzer.marche df)) df).
  intros rows. revert acc.
  assert (Hfold : forall acc,
            In e (fold_left
                    (fun acc row =>
                       let num_commande := Operations.num_commande_of row in
                       set_add string_dec
                         (Operations.extract_exercice_from_bdc rt num_commande)
                         acc) rows acc)
            <-> In e acc
                \/ exists r, In r rows
                     /\ e = Operations.extract_exercice_from_bdc rt
                              (Operations.num_commande_of r)).
  { induction rows as [|row rows IH]; intros acc; simpl.
    - split; [now left | intros [H | [r [[] _]]]; exact H].
    - rewrite IH. cbv zeta. rewrite set_add_iff. split.
      + intros [[-> | H] | [r [Hr Er]]].
        * right. exists row. split; [now left | reflexivity].
        * now left.
        * right. exists r. split; [now right | exact Er].
      + intros [H | [r [[<- | Hr] Er]]].
        * left. now right.
        * left. now left.
        * right. now exists r. }
  intros acc Hsel. rewrite Hfold. split.
  - intros [H | [r [Hr Er]]]; [now left|].
    right. exists r. apply Hsel in Hr. tauto.
  - intros [H | [r (Hr & Em & Er)]]; [now left|].
    right. exists r. split; [apply Hsel; tauto | exact Er].
Qed.

Lemma exercices_marche_NoDup (rt : Runtime) (df : list Analyzer.Row)
  (c : string) (acc : set string) :
  NoDup acc -> NoDup (Operations.exercices_marche rt df c acc).
Proof.
  unfold Operations.exercices_marche.
  generalize (Pd.select (map (fun r => String.eqb (Analyzer.marche r) c) df) df).
  intros rows. revert acc.
  induction rows as [|row rows IH]; intros acc Hacc; simpl; [exact Hacc|].
  apply IH. now apply set_add_nodup.
Qed.

Lemma exercices_fold_In (rt : Runtime) (df : list Analyzer.Row)
  (cs : list string) (acc : set string) (e : string) :
  In e (fold_left (fun acc m => Operations.exercices_marche rt df m acc) cs acc)
  <-> In e acc
      \/ exists r, In r df /\ In (Analyzer.marche r) cs
                   /\ e = Operations.extract_exercice_from_bdc rt
                            (Operations.num_commande_of r).
Proof.
  revert acc. induction cs as [|c cs IH]; intros acc; simpl.
  - split; [now left | intros [H | [r (_ & [] & _)]]; exact H].
  - rewrite IH, exercices_marche_In. split.
    + intros [[H | [r (Hr & Em & Er)]] | [r (Hr & Em & Er)]].
      * now left.
      * right. exists r. split; [exact Hr|]. split; [now left | exact Er].
      * right. exists r. split; [exact Hr|]. split; [now right | exact Er].
    + intros [H | [r (Hr & [Em | Em] & Er)]].
      * left. now left.
      * left. right. exists r. now rewrite Em.
      * right. now exists r.
Qed.

Lemma exercices_fold_NoDup (rt : Runtime) (df : list Analyzer.Row)
  (cs : list string) (acc : set string) :
  NoDup acc ->
  NoDup (fold_left (fun acc m => Operations.exercices_marche rt df m acc)
           cs acc).
Proof.
  revert acc. induction cs as [|c cs IH]; intros acc Hacc; simpl; [exact Hacc|].
  apply IH. now apply exercices_marche_NoDup.
Qed.

Lemma find_key_NoDup {A : Type} (key : A -> string) (code : string)
  (l : list A) (x : A) :
  NoDup (map key l) -> In x l -> key x = code ->
  find (fun y => String.eqb (key y) code) l = Some x.
Proof.
  induction l as [|y r IH]; simpl; intros Hnd Hin Ek; [destruct Hin|].
  inversion Hnd as [|? ? Hnotin Hnd']; subst.
  destruct Hin as [-> | Hin].
  - now rewrite String.eqb_refl.
  - destruct (String.eqb (key y) (key x)) eqn:E.
    + apply String.eqb_eq in E. exfalso. apply Hnotin. rewrite E.
      now apply in_map.
    + now apply IH.
Qed.

(** The contracts listed under an operation are the contracts of the lines
    whose code belongs to it. *)
Lemma get_vision_operations_lots (rt : Runtime) (db : option Db.Database)
  (df : list Analyzer.Row) (ops : list Operations.OperationView)
  (code : string) :
  Operations.get_vision_operations rt db df = Some ops ->
  match find (fun op => String.eqb (Operations.operation op) code) ops with
  | Some o =>
      forall r, In r df ->
        (In (Analyzer.marche r) (Operations.marches o)
         <-> extract_operation (Analyzer.marche r) = code)
  | None => forall r, In r df -> extract_operation (Analyzer.marche r) <> code
  end.
Proof.
  intros H. pose proof (get_vision_operations_marches _ _ _ _ H) as Hm.
  destruct (get_vision_operations_structure _ _ _ _ H) as (Hnd & _ & Hall).
  assert (Hfiled : forall r, In r df ->
            exists o, In o ops /\ In (Analyzer.marche r) (Operations.marches o)
                      /\ Operations.operation o
                         = extract_operation (Analyzer.marche r)).
  { intros r Hr.
    assert (Hc : In (Analyzer.marche r)
                   (concat (map Operations.marches ops))).
    { apply (Permutation_in _ (Permutation_sym Hm)).
      rewrite get_vision_globale_codes.
      apply (Permutation_in _
               (Permutation_sym (stable_sort_Permutation String.leb _))).
      apply unique_string_In. now apply in_map. }
    apply in_concat in Hc. destruct Hc as [cs [Hcs Hin]].
    apply in_map_iff in Hcs. destruct Hcs as [o [<- Ho]].
    exists o. split; [exact Ho|]. split; [exact Hin|].
    symmetry. now apply (Hall o Ho). }
  destruct (find _ ops) as [o|] eqn:Ef.
  - destruct (find_some _ _ Ef) as [Ho Eo]. apply String.eqb_eq in Eo.
    intros r Hr. split.
    + intros Hin. rewrite <- Eo. now apply (Hall o Ho).
    + intros Ec. destruct (Hfiled r Hr) as (o' & Ho' & Hin & Eo').
      assert (Ef' : find (fun op => String.eqb (Operations.operation op) code)
                      ops = Some o').
      { apply find_key_NoDup; [exact Hnd | exact Ho' | congruence]. }
      congruence.
  - intros r Hr Ec. destruct (Hfiled r Hr) as (o' & Ho' & _ & Eo').
    pose proof (find_none _ _ Ef o' Ho') as Hneq. simpl in Hneq.
    apply String.eqb_neq in Hneq. congruence.
Qed.

(** X11: [get_exercices_for_operation] returns ["Tous"] followed, in
    strictly ascending order, by the exercices of the order numbers of all
    the lines whose contract belongs to the operation, and by nothing
    else; for a code that is no operation of the lines it returns
    ["Tous"] alone. *)
Theorem get_exercices_for_operation_spec (rt : Runtime)
  (db : option Db.Database) (df : list Analyzer.Row) (code : string)
  (l : list string) :
  Operations.get_exercices_for_operation rt db df code = Some l ->
  exists exercices,
    l = "Tous" :: exercices
    /\ StronglySorted (fun a b => String.ltb a b = true) exercices
    /\ forall e,
         In e exercices
         <-> exists r, In r df
               /\ extract_operation (Analyzer.marche r) = code
               /\ e = Operations.extract_exercice_from_bdc rt
                        (Operations.num_commande_of r).
Proof.
  unfold Operations.get_exercices_for_operation.
  destruct (Operations.get_vision_operations rt db df) as [ops|] eqn:Eops;
    [|discriminate].
  pose proof (get_vision_operations_lots _ _ _ _ code Eops) as Hlots.
  destruct (find _ ops) as [o|]; intros [= <-].
  - eexists. split; [reflexivity|].
    assert (Hnd : NoDup
              (fold_left
                 (fun acc m => Operations.exercices_marche rt df m acc)
                 (Operations.marches o) (empty_set string))).
    { apply exercices_fold_NoDup. constructor. }
    split.
    + apply StronglySorted_strict.
      * apply (Permutation_NoDup
                 (Permutation_sym (stable_sort_Permutation String.leb _))).
        exact Hnd.
      * apply (stable_sort_StronglySorted String.leb).
        -- apply string_leb_total_false.
        -- apply string_leb_trans.
    + intros e. split.
      * intros He.
        apply (Permutation_in _ (stable_sort_Permutation String.leb _)) in He.
        apply exercices_fold_In in He.
        destruct He as [[] | [r (Hr & Hin & Er)]].
        exists r. split; [exact Hr|]. split; [now apply Hlots | exact Er].
      * intros [r (Hr & Ec & Er)].
        apply (Permutation_in _
                 (Permutation_sym (stable_sort_Permutation String.leb _))).
        apply exercices_fold_In. right.
        exists r. split; [exact Hr|]. split; [now apply Hlots | exact Er].
  - exists []. split; [reflexivity|]. split; [constructor|].
    intros e. split; [intros []|].
    intros [r (Hr & Ec & _)]. exact (Hlots r Hr Ec).
Qed.

(** X11 on the sample of three lots: the operation 2024_17 has lines
    ordered in 2024 and in 2025. *)
Lemma get_exercices_for_operation_spec_witness :
  Operations.get_exercices_for_operation Sample.runtime None Lots.trois_lots
    "2024_17" = Some ["Tous"; "2024"; "2025"]
  /\ exists exercices,
       ["Tous"; "2024"; "2025"] = "Tous" :: exercices
       /\ StronglySorted (fun a b => String.ltb a b = true) exercices.
Proof.
  assert (E : Operations.get_exercices_for_operation Sample.runtime None
                Lots.trois_lots "2024_17" = Some ["Tous"; "2024"; "2025"])
    by reflexivity.
  split; [exact E|].
  destruct (get_exercices_for_operation_spec _ _ _ _ _ E)
    as (exercices & El & Hs & _).
  exists exercices. split; assumption.
Defined.

(** ** The outcomes of a synchronisation *)

Local Open Scope Z_scope.

Section StatsFrame.
Variable rt : Runtime.
Variable env : Sync.Env.

(** The entries of [stats] the body of the [try] never writes once past
    the test that skips. *)
Let frame (st st' : Sync.Stats) : Prop :=
  Sync.nb_updated st' = Sync.nb_updated st
  /\ Sync.status st' = Sync.status st
  /\ Sync.message st' = Sync.message st.

Let keeps {A : Type} (m : Sync.M A) : Prop :=
  forall s s' r, m s = (s', r) -> frame (Sync.stats s) (Sync.stats s').

Lemma keeps_ret {A : Type} (a : A) : keeps (Sync.ret a).
Proof. intros s s' r [= <- _]. repeat split. Qed.

Lemma keeps_lift {A : Type} (x : result A) : keeps (Sync.lift x).
Proof. intros s s' r [= <- _]. repeat split. Qed.

Lemma keeps_bind {A B : Type} (m : Sync.M A) (k : A -> Sync.M B) :
  keeps m -> (forall a, keeps (k a)) -> keeps (Sync.bind m k).
Proof.
  intros Hm Hk s s' r. unfold Sync.bind.
  destruct (m s) as [s1 [a|msg]] eqn:E.
  - intros H. destruct (Hm _ _ _ E) as (H1 & H2 & H3).
    destruct (Hk a _ _ _ H) as (H4 & H5 & H6).
    repeat split; congruence.
  - intros [= <- _]. exact (Hm _ _ _ E).
Qed.

Lemma keeps_execute {A : Type} (op : Sync.Op)
  (run : Sync.Tables -> Sync.Tables * A) : keeps (Sync.execute env op run).
Proof.
  intros s s' r. unfold Sync.execute.
  destruct (Sync.fault env op); [intros [= <- _]; repeat split|].
  destruct (run _). intros [= <- _]. repeat split.
Qed.

Lemma keeps_commit : keeps (Sync.commit env).
Proof.
  intros s s' r. unfold Sync.commit.
  destruct (Sync.fault env Sync.Commit); intros [= <- _]; repeat split.
Qed.

Lemma keeps_update_stats (g : Sync.Stats -> Sync.Stats) :
  (forall st, frame st (g st)) -> keeps (Sync.update_stats g).
Proof. intros Hg s s' r [= <- _]. apply Hg. Qed.

Lemma keeps_scan_rows (ex : set string) (df : list Sync.Series)
  (nh : set string) (rows : list Sync.Ligne) :
  keeps (Sync.scan_rows rt ex df nh rows).
Proof.
  revert nh rows. induction df as [|row rest IH]; intros nh rows; simpl.
  - apply keeps_ret.
  - apply keeps_bind; [apply keeps_lift|]. intros d.
    destruct (set_mem string_dec _ ex); [|apply IH].
    apply keeps_bind; [|intros _; apply IH].
    apply keeps_update_stats. intros st. repeat split.
Qed.

(** [sync_changes] writes the three counters and nothing else of
    [stats], whether it ends or raises. *)
Lemma sync_changes_frame (filepath : string) (df : list Sync.Series)
  (s s' : Sync.State) (r : result unit) :
  Sync.sync_changes rt env filepath df s = (s', r) ->
  Sync.nb_updated (Sync.stats s') = Sync.nb_updated (Sync.stats s)
  /\ Sync.status (Sync.stats s') = Sync.status (Sync.stats s)
  /\ Sync.message (Sync.stats s') = Sync.message (Sync.stats s).
Proof.
  assert (H : keeps (Sync.sync_changes rt env filepath df)).
  { unfold Sync.sync_changes.
    apply keeps_bind; [apply keeps_execute|]. intros ex.
    apply keeps_bind; [apply keeps_scan_rows|]. intros scanned.
    apply keeps_bind.
    { destruct (snd scanned); [apply keeps_ret|].
      apply keeps_bind; [apply keeps_execute|]. intros _.
      apply keeps_update_stats. intros st. repeat split. }
    intros _. apply keeps_bind.
    { destruct (set_diff string_dec ex (fst scanned)); [apply keeps_ret|].
      apply keeps_bind; [apply keeps_execute|]. intros _.
      apply keeps_update_stats. intros st. repeat split. }
    intros _. apply keeps_bind.
    { intros s0 s1 r0 [= <- _]. repeat split. }
    intros st. apply keeps_bind; [apply keeps_execute|]. intros _.
    apply keeps_commit. }
  exact (H s s' r).
Qed.

(** The body of the [try], when it raises, has written no status. *)
Lemma sync_body_raise_frame (filepath : string) (df : list Sync.Series)
  (force : bool) (s s' : Sync.State) (msg : string) :
  Sync.sync_body rt env filepath df force s = (s', Raise msg) ->
  Sync.nb_updated (Sync.stats s') = Sync.nb_updated (Sync.stats s).
Proof.
  assert (Hfns : keeps (Sync.file_needs_sync rt env filepath)).
  { unfold Sync.file_needs_sync.
    destruct (Sync.os_stat env filepath); [|apply keeps_ret].
    apply keeps_bind; [apply keeps_execute|]. intros x. apply keeps_ret. }
  intros H. unfold Sync.sync_body in H.
  apply bind_inv_raise in H. destruct H as [H|(s1 & skipped & H1 & H)].
  - destruct force; simpl negb in H; cbv iota in H; [discriminate|].
    apply bind_inv_raise in H. destruct H as [H|(s2 & r & H2 & H)].
    + apply (Hfns _ _ _ H).
    + destruct (negb (fst r)); discriminate H.
  - destruct skipped; [discriminate|].
    apply sync_changes_frame in H. destruct H as (Hu & _).
    rewrite Hu. clear Hu.
    destruct force; simpl negb in H1; cbv iota in H1.
    + unfold Sync.ret in H1. now injection H1 as <-.
    + apply bind_inv_ok in H1. destruct H1 as (s2 & r & H2 & H1).
      destruct (Hfns _ _ _ H2) as (Hu & _).
      destruct (negb (fst r)).
      * unfold Sync.bind, Sync.update_stats, Sync.ret in H1.
        discriminate H1.
      * unfold Sync.ret in H1. injection H1 as <-. exact Hu.
Qed.

End StatsFrame.

Lemma verdict_unchanged (rt : Runtime) (f : Sync.FileStat)
  (result : option Sync.SyncInfo) (reason : Sync.Reason) :
  Sync.verdict rt f result = (false, reason) ->
  (reason = Sync.Inchange \/ reason = Sync.InchangeContenuIdentique)
  /\ exists last, result = Some last
                  /\ Sync.file_size last = Sync.st_size f
                  /\ Sync.nb_lignes last <> 0.
Proof.
  unfold Sync.verdict. cbv zeta. destruct result as [last|]; [|discriminate].
  destruct (Z.eqb_spec (Sync.st_size f) (Sync.file_size last)) as [Es|Es];
    cbn [negb]; [|discriminate].
  destruct (Z.eqb_spec (Sync.nb_lignes last) 0) as [En|En]; [discriminate|].
  intros H.
  assert (Hr : reason = Sync.Inchange \/ reason = Sync.InchangeContenuIdentique).
  { destruct (negb (Qle_bool _ 1)).
    - destruct (negb (String.eqb _ _)); [discriminate|].
      injection H as <-. now right.
    - injection H as <-. now left. }
  split; [exact Hr|]. exists last. repeat split; congruence.
Qed.

(** X12: [sync_from_excel] ends in one of three ways, told by
    [stats['status']].  "skipped" happens only without [force] and leaves
    the connection and the counters untouched; "success" leaves no
    transaction open and accounts for every incoming row as inserted or
    unchanged; "error" leaves the tables as last committed and carries the
    text of the exception.  No outcome ever reports an updated row. *)
Theorem sync_from_excel_outcomes (rt : Runtime) (env : Sync.Env)
  (filepath : string) (df : list Sync.Series) (force : bool) (c : Sync.Conn) :
  let r := Sync.sync_from_excel rt env filepath df force c in
  let st := snd r in
  Sync.nb_updated st = 0
  /\ (Sync.status st = "success" \/ Sync.status st = "skipped"
      \/ Sync.status st = "error")
  /\ (Sync.status st = "skipped" ->
      force = false /\ fst r = c
      /\ Sync.nb_inserted st = 0 /\ Sync.nb_unchanged st = 0
      /\ Sync.nb_deleted st = 0
      /\ (Sync.message st = Some (Sync.MsgReason Sync.Inchange)
          \/ Sync.message st
             = Some (Sync.MsgReason Sync.InchangeContenuIdentique)))
  /\ (Sync.status st = "success" ->
      Sync.message st = None
      /\ Sync.disk (fst r) = Sync.work (fst r)
      /\ Sync.nb_inserted st + Sync.nb_unchanged st
         = Z.of_nat (List.length df))
  /\ (Sync.status st = "error" ->
      (exists text, Sync.message st = Some (Sync.MsgException text))
      /\ Sync.work (fst r) = Sync.disk c
      /\ Sync.disk (fst r) = Sync.disk c).
Proof.
  intros r st. unfold st, r, Sync.sync_from_excel. clear r st.
  destruct c as [w d].
  destruct (Sync.sync_body rt env filepath df force _) as [s' [u|msg]] eqn:E;
    cbn [fst snd].
  - apply sync_body_ok in E.
    destruct E as [(Hf & Hw & Hd & f & reason & _ & _ & Hv & Hs)|E].
    + apply verdict_unchanged in Hv. destruct Hv as [Hreason _].
      rewrite Hs. cbn.
      split; [reflexivity|]. split; [right; now left|].
      split; [|split; intros H; discriminate H].
      intros _. split; [exact Hf|].
      split; [destruct s' as [[w' d'] st']; simpl in *; congruence|].
      repeat split. destruct Hreason as [-> | ->]; [now left | now right].
    + pose proof (sync_changes_frame _ _ _ _ _ _ _ E) as (Hu & _ & Hm).
      simpl in Hu, Hm.
      apply sync_changes_ok in E. cbv zeta in E.
      destruct E as (rows & Hrows & _ & Hdisk & Hst & Hunch & Hins & _).
      split; [exact Hu|]. split; [now left|].
      split; [rewrite Hst; intros H; discriminate H|].
      split; [|rewrite Hst; intros H; discriminate H].
      intros _. split; [exact Hm|]. split; [exact Hdisk|].
      rewrite Hins, Hunch, <- (length_map Sync.hash_ligne), Hrows.
      rewrite <- (length_map (Sync._calculate_row_hash rt) df).
      rewrite <- (filter_length
                    (fun h => set_mem string_dec h (Sync.select_hashes w))
                    (map (Sync._calculate_row_hash rt) df)).
      lia.
  - pose proof (sync_body_raise_frame _ _ _ _ _ _ _ _ E) as Hu.
    apply sync_body_raise in E. simpl in E, Hu.
    split; [exact Hu|]. split; [right; now right|].
    split; [intros H; discriminate H|]. split; [intros H; discriminate H|].
    intros _. split; [now exists msg|]. split; exact E.
Qed.

(** ** What the table keeps *)

(** X13: [sync_from_excel] keeps the constraints of the table
    [lignes_factures], whatever its outcome: when the open transaction
    and the committed tables hold no hash twice, no id twice and no id
    past the AUTOINCREMENT counter, so do they after the call.  After a
    "success" the counter has not gone down, and every stored row is a
    row stored before or carries an id past the former counter: no id is
    used again. *)
Theorem sync_from_excel_well_formed (rt : Runtime) (env : Sync.Env)
  (filepath : string) (df : list Sync.Series) (force : bool) (c : Sync.Conn) :
  Cache.well_formed (Sync.work c) -> Cache.well_formed (Sync.disk c) ->
  let r := Sync.sync_from_excel rt env filepath df force c in
  Cache.well_formed (Sync.work (fst r))
  /\ Cache.well_formed (Sync.disk (fst r))
  /\ (Sync.status (snd r) = "success" ->
      Sync.seq_lignes (Sync.work c) <= Sync.seq_lignes (Sync.work (fst r))
      /\ forall l, In l (Sync.lignes_factures (Sync.work (fst r))) ->
           In l (Sync.lignes_factures (Sync.work c))
           \/ Sync.seq_lignes (Sync.work c) < Sync.id l).
Proof.
  intros Hw Hd r. unfold r. clear r.
  destruct (string_dec
              (Sync.status
                 (snd (Sync.sync_from_excel rt env filepath df force c)))
              "success") as [Hs | Hs].
  - destruct (sync_from_excel_success _ _ _ _ _ _ Hs)
      as (rows & _ & _ & Hwork & Hdisk & _).
    rewrite Hdisk, Hwork.
    assert (Hwf : Cache.well_formed
                    (Sync.insert_sync_info
                       (Sync.sync_info_row rt env filepath df
                          (snd (Sync.sync_from_excel rt env filepath df
                                  force c)))
                       (Sync.delete_hashes
                          (set_diff string_dec
                             (Sync.select_hashes (Sync.work c))
                             (fold_left (fun a x => set_add string_dec x a)
                                (map (Sync._calculate_row_hash rt) df)
                                (empty_set string)))
                          (fold_left Sync.insert_or_replace rows
                             (Sync.work c))))).
    { apply (delete_hashes_well_formed _ _
               (insert_many_well_formed rows _ Hw)). }
    split; [exact Hwf|]. split; [exact Hwf|]. intros _. split.
    + simpl. rewrite insert_many_seq. lia.
    + intros l Hl. simpl in Hl. apply filter_In in Hl. destruct Hl as [Hl _].
      apply insert_many_origin in Hl. tauto.
  - destruct (sync_from_excel_not_success _ _ _ _ _ _ Hs) as [Hdisk Hwork].
    rewrite Hdisk. split; [|split; [exact Hd | intros H; contradiction]].
    destruct Hwork as [-> | ->]; assumption.
Qed.

(** X13 on the cache of contracts A, B, C synchronised with the rows of
    contracts B, C, D. *)
Lemma sync_from_excel_well_formed_witness :
  Cache.well_formed (Sync.work Sample.cache_abc)
  /\ Cache.well_formed (Sync.disk Sample.cache_abc)
  /\ Cache.well_formed
       (Sync.work
          (fst (Sync.sync_from_excel Sample.runtime Sample.env_abc
                  "factures.xlsx"
                  [Sample.ligne_import "B"; Sample.ligne_import "C";
                   Sample.ligne_import "D"] true Sample.cache_abc))).
Proof.
  assert (Hw : Cache.well_formed (Sync.work Sample.cache_abc)).
  { unfold Cache.well_formed. vm_compute.
    repeat split; repeat constructor; simpl; intuition discriminate. }
  assert (Hd : Cache.well_formed (Sync.disk Sample.cache_abc)).
  { unfold Cache.well_formed. vm_compute.
    repeat split; repeat constructor; simpl; intuition discriminate. }
  split; [exact Hw|]. split; [exact Hd|].
  exact (proj1 (sync_from_excel_well_formed Sample.runtime Sample.env_abc
                  "factures.xlsx"
                  [Sample.ligne_import "B"; Sample.ligne_import "C";
                   Sample.ligne_import "D"] true Sample.cache_abc Hw Hd)).
Defined.

(** X14: what a synchronisation stores is what came in.  After a
    "success", every row of the table is either a row stored before whose
    hash came again, left as it was, or a new row that holds the data of
    an incoming row whose hash was not stored: the text of each cell
    ([None] for a missing one) and the three amounts as numbers. *)
Theorem sync_from_excel_stores_rows (rt : Runtime) (env : Sync.Env)
  (filepath : string) (df : list Sync.Series) (force : bool) (c : Sync.Conn) :
  let r := Sync.sync_from_excel rt env filepath df force c in
  Sync.status (snd r) = "success" ->
  forall l, In l (Sync.lignes_factures (Sync.work (fst r))) ->
    (In l (Sync.lignes_factures (Sync.work c))
     /\ In (Sync.hash_ligne l) (map (Sync._calculate_row_hash rt) df))
    \/ exists row,
         In row df
         /\ Stated.holds_row rt l row
         /\ Sync.hash_ligne l = Sync._calculate_row_hash rt row
         /\ ~ In (Sync.hash_ligne l) (Sync.stored_hashes (Sync.work c)).
Proof.
  intros r Hs l Hl. unfold r in *. clear r.
  destruct (sync_from_excel_success _ _ _ _ _ _ Hs)
    as (rows & Hrows & Hdata & Hwork & _).
  rewrite Hwork in Hl. simpl in Hl.
  apply filter_In in Hl. destruct Hl as [Hl Hkept].
  apply negb_true_iff in Hkept.
  apply insert_many_origin in Hl.
  destruct Hl as [Hl | (_ & d & Hd & Hsame)].
  - left. split; [exact Hl|].
    destruct (in_dec string_dec (Sync.hash_ligne l)
                (map (Sync._calculate_row_hash rt) df)) as [Hin | Hnot];
      [exact Hin|].
    exfalso.
    assert (Hdel : In (Sync.hash_ligne l)
                     (set_diff string_dec (Sync.select_hashes (Sync.work c))
                        (fold_left (fun a x => set_add string_dec x a)
                           (map (Sync._calculate_row_hash rt) df)
                           (empty_set string)))).
    { apply set_diff_iff. split.
      - apply select_hashes_In. unfold Sync.stored_hashes. now apply in_map.
      - rewrite fold_set_add_In. simpl. tauto. }
    apply set_mem_In in Hdel. congruence.
  - right. destruct (Hdata d Hd) as (row & Hrow & Erow).
    pose proof (row_data_hash rt _ _ _ Erow) as Eh.
    assert (Ehl : Sync.hash_ligne l = Sync._calculate_row_hash rt row).
    { rewrite <- Eh. apply Hsame. }
    exists row. split; [exact Hrow|].
    split; [exact (row_data_holds _ _ _ _ _ Erow Hsame)|].
    split; [exact Ehl|].
    assert (Hin : In (Sync.hash_ligne d) (map Sync.hash_ligne rows))
      by (now apply in_map).
    rewrite Hrows in Hin. apply filter_In in Hin. destruct Hin as [_ Hnew].
    apply negb_true_iff in Hnew. intros Hstored.
    apply select_hashes_In, set_mem_In in Hstored.
    rewrite Ehl, <- Eh in Hstored. congruence.
Qed.

(** X14 on the cache of contracts A, B, C synchronised with the rows of
    contracts B, C, D: the three rows of the table are accounted for. *)
Lemma sync_from_excel_stores_rows_witness :
  let r :=
    Sync.sync_from_excel Sample.runtime Sample.env_abc "factures.xlsx"
      [Sample.ligne_import "B"; Sample.ligne_import "C";
       Sample.ligne_import "D"] true Sample.cache_abc in
  Sync.status (snd r) = "success"
  /\ List.length (Sync.lignes_factures (Sync.work (fst r))) = 3%nat
  /\ Forall
       (fun l =>
          (In l (Sync.lignes_factures (Sync.work Sample.cache_abc))
           /\ In (Sync.hash_ligne l)
                (map (Sync._calculate_row_hash Sample.runtime)
                   [Sample.ligne_import "B"; Sample.ligne_import "C";
                    Sample.ligne_import "D"]))
          \/ exists row,
               In row [Sample.ligne_import "B"; Sample.ligne_import "C";
                       Sample.ligne_import "D"]
               /\ Stated.holds_row Sample.runtime l row
               /\ Sync.hash_ligne l
                  = Sync._calculate_row_hash Sample.runtime row
               /\ ~ In (Sync.hash_ligne l)
                      (Sync.stored_hashes (Sync.work Sample.cache_abc)))
       (Sync.lignes_factures (Sync.work (fst r))).
Proof.
  cbv zeta.
  assert (Hs : Sync.status
                 (snd (Sync.sync_from_excel Sample.runtime Sample.env_abc
                         "factures.xlsx"
                         [Sample.ligne_import "B"; Sample.ligne_import "C";
                          Sample.ligne_import "D"] true Sample.cache_abc))
               = "success") by (vm_compute; reflexivity).
  split; [exact Hs|]. split; [vm_compute; reflexivity|].
  apply Forall_forall. intros l Hl.
  exact (sync_from_excel_stores_rows Sample.runtime Sample.env_abc
           "factures.xlsx"
           [Sample.ligne_import "B"; Sample.ligne_import "C";
            Sample.ligne_import "D"] true Sample.cache_abc Hs l Hl).
Defined.

(** ** The history of snapshots *)

Lemma fetch_last_inserted (r : Sync.SyncInfo) (t : Sync.Tables) :
  Sync.fetch_last_sync (Sync.insert_sync_info r t) (Sync.fichier_path r)
  = Some {| Sync.si_id :=
              fold_left (fun m x => Z.max m (Sync.si_id x))
                (Sync.sync_info t) 0 + 1;
            Sync.fichier_path := Sync.fichier_path r;
            Sync.last_modified := Sync.last_modified r;
            Sync.file_size := Sync.file_size r;
            Sync.file_hash := Sync.file_hash r;
            Sync.last_sync := Sync.last_sync r;
            Sync.nb_lignes := Sync.nb_lignes r;
            Sync.sync_status := Sync.sync_status r;
            Sync.sync_message := Sync.sync_message r |}.
Proof.
  unfold Sync.fetch_last_sync, Sync.insert_sync_info. simpl.
  rewrite fold_left_app. simpl. rewrite String.eqb_refl.
  match goal with
  | |- context [match ?best with Some _ => _ | None => _ end] =>
      destruct best as [b|] eqn:E
  end; [|reflexivity].
  apply fetch_best_In in E. destruct E as [E|E]; [discriminate|].
  destruct (max_id_ge (Sync.sync_info t) 0) as [_ Hmax].
  specialize (Hmax b E).
  assert (Hlt : (Sync.si_id b
                 <? fold_left (fun m x => Z.max m (Sync.si_id x))
                      (Sync.sync_info t) 0 + 1) = true)
    by (apply Z.ltb_lt; lia).
  simpl. now rewrite Hlt.
Qed.

Lemma sync_info_row_path (rt : Runtime) (env : Sync.Env) (filepath : string)
  (df : list Sync.Series) (st : Sync.Stats) :
  Sync.fichier_path (Sync.sync_info_row rt env filepath df st) = filepath
  /\ Sync.last_sync (Sync.sync_info_row rt env filepath df st) = Sync.now env
  /\ Sync.nb_lignes (Sync.sync_info_row rt env filepath df st)
     = Z.of_nat (List.length df)
  /\ Sync.sync_status (Sync.sync_info_row rt env filepath df st) = "success"
  /\ Sync.sync_message (Sync.sync_info_row rt env filepath df st)
     = Sync.SyncOK (Sync.nb_inserted st) (Sync.nb_deleted st)
         (Sync.nb_unchanged st).
Proof.
  unfold Sync.sync_info_row.
  destruct (Sync.os_stat env filepath); repeat split.
Qed.

(** X15: a synchronisation that ends in "success" adds exactly one
    snapshot to the history, after the others and under an id greater than
    theirs, and touches no earlier one; [get_sync_status] on the path then
    returns that snapshot: the time of the call, [len(df)], "success" and
    the three counts the call returned. *)
Theorem sync_from_excel_records_snapshot (rt : Runtime) (env : Sync.Env)
  (filepath : string) (df : list Sync.Series) (force : bool) (c : Sync.Conn) :
  let r := Sync.sync_from_excel rt env filepath df force c in
  Sync.status (snd r) = "success" ->
  (exists snapshot,
     Sync.sync_info (Sync.work (fst r))
     = Sync.sync_info (Sync.work c) ++ [snapshot]
     /\ Sync.fichier_path snapshot = filepath
     /\ forall old, In old (Sync.sync_info (Sync.work c)) ->
          Sync.si_id old < Sync.si_id snapshot)
  /\ Cache.get_sync_status (fst r) filepath
     = Some {| Cache.last_sync := Sync.now env;
               Cache.nb_lignes := Z.of_nat (List.length df);
               Cache.sync_status := "success";
               Cache.sync_message :=
                 Sync.SyncOK (Sync.nb_inserted (snd r))
                   (Sync.nb_deleted (snd r)) (Sync.nb_unchanged (snd r)) |}.
Proof.
  intros r Hs. unfold r in *. clear r.
  destruct (sync_from_excel_success _ _ _ _ _ _ Hs)
    as (rows & _ & _ & Hwork & _).
  destruct (sync_info_row_path rt env filepath df
              (snd (Sync.sync_from_excel rt env filepath df force c)))
    as (Hpath & Hlast & Hnb & Hstatus & Hmsg).
  split.
  - rewrite Hwork. eexists. split; [|split].
    + simpl. rewrite insert_many_sync_info. reflexivity.
    + simpl. exact Hpath.
    + intros old Hold. simpl.
      destruct (max_id_ge (Sync.sync_info (Sync.work c)) 0) as [_ Hmax].
      specialize (Hmax old Hold). lia.
  - unfold Cache.get_sync_status. rewrite Hwork.
    match goal with
    | |- context [Sync.fetch_last_sync (Sync.insert_sync_info ?row ?t) _] =>
        pose proof (fetch_last_inserted row t) as Hf
    end.
    rewrite Hpath in Hf. rewrite Hf. simpl.
    now rewrite Hlast, Hnb, Hstatus, Hmsg.
Qed.

(** X15 on the cache of contracts A, B, C synchronised with the rows of
    contracts B, C, D at time 200. *)
Lemma sync_from_excel_records_snapshot_witness :
  let r :=
    Sync.sync_from_excel Sample.runtime Sample.env_abc "factures.xlsx"
      [Sample.ligne_import "B"; Sample.ligne_import "C";
       Sample.ligne_import "D"] true Sample.cache_abc in
  Sync.status (snd r) = "success"
  /\ Cache.get_sync_status (fst r) "factures.xlsx"
     = Some {| Cache.last_sync := 200%Q;
               Cache.nb_lignes := 3;
               Cache.sync_status := "success";
               Cache.sync_message := Sync.SyncOK 1 1 2 |}.
Proof.
  cbv zeta.
  assert (Hs : Sync.status
                 (snd (Sync.sync_from_excel Sample.runtime Sample.env_abc
                         "factures.xlsx"
                         [Sample.ligne_import "B"; Sample.ligne_import "C";
                          Sample.ligne_import "D"] true Sample.cache_abc))
               = "success") by (vm_compute; reflexivity).
  split; [exact Hs|].
  rewrite (proj2 (sync_from_excel_records_snapshot Sample.runtime
                    Sample.env_abc "factures.xlsx"
                    [Sample.ligne_import "B"; Sample.ligne_import "C";
                     Sample.ligne_import "D"] true Sample.cache_abc Hs)).
  vm_compute. reflexivity.
Defined.

(** X16: with a path that names no file (the rows come from the
    database), [sync_from_excel] never skips, forced or not; when it
    succeeds, the snapshot it records carries the size 0, the hash
    "database_sync" and the time of the call as modification time. *)
Theorem sync_from_excel_without_file (rt : Runtime) (env : Sync.Env)
  (filepath : string) (df : list Sync.Series) (force : bool) (c : Sync.Conn) :
  Sync.os_stat env filepath = None ->
  let r := Sync.sync_from_excel rt env filepath df force c in
  Sync.status (snd r) <> "skipped"
  /\ (Sync.status (snd r) = "success" ->
      exists snapshot,
        Sync.fetch_last_sync (Sync.work (fst r)) filepath = Some snapshot
        /\ Sync.file_size snapshot = 0
        /\ Sync.file_hash snapshot = "database_sync"
        /\ Sync.last_modified snapshot = Sync.now env
        /\ Sync.nb_lignes snapshot = Z.of_nat (List.length df)).
Proof.
  intros Hstat r. unfold r. clear r. split.
  - unfold Sync.sync_from_excel. destruct c as [w d].
    destruct (Sync.sync_body rt env filepath df force _) as [s' [u|msg]] eqn:E;
      cbn [snd]; [|discriminate].
    apply sync_body_ok in E.
    destruct E as [(_ & _ & _ & f & reason & Hf & _)|E]; [congruence|].
    apply sync_changes_ok in E. cbv zeta in E.
    destruct E as (rows & _ & _ & _ & Hst & _). rewrite Hst. discriminate.
  - intros Hs.
    destruct (sync_from_excel_success _ _ _ _ _ _ Hs)
      as (rows & _ & _ & Hwork & _).
    destruct (sync_info_row_path rt env filepath df
                (snd (Sync.sync_from_excel rt env filepath df force c)))
      as (Hpath & _).
    rewrite Hwork.
    match goal with
    | |- context [Sync.fetch_last_sync (Sync.insert_sync_info ?row ?t) _] =>
        pose proof (fetch_last_inserted row t) as Hf
    end.
    rewrite Hpath in Hf. rewrite Hf.
    eexists. split; [reflexivity|]. simpl.
    unfold Sync.sync_info_row. rewrite Hstat. repeat split.
Qed.

(** X16 on two rows from the database, at time 300, on a fresh cache. *)
Lemma sync_from_excel_without_file_witness :
  let r :=
    Sync.sync_from_excel Sample.runtime Sources.env_database "database_sync"
      [Sample.ligne_import "A"; Sample.ligne_import "B"] false Sample.fresh in
  Sync.os_stat Sources.env_database "database_sync" = None
  /\ Sync.status (snd r) = "success"
  /\ Sync.status (snd r) <> "skipped".
Proof.
  cbv zeta. split; [reflexivity|]. split; [vm_compute; reflexivity|].
  exact (proj1 (sync_from_excel_without_file Sample.runtime
                  Sources.env_database "database_sync"
                  [Sample.ligne_import "A"; Sample.ligne_import "B"] false
                  Sample.fresh eq_refl)).
Defined.

(** ** Reading the cache *)

Lemma compare_text_eq (a b : option string) :
  Cache.compare_text a b = Eq <-> a = b.
Proof.
  destruct a as [x|], b as [y|]; simpl; try (split; [discriminate|discriminate]).
  - split.
    + intros H. apply String.compare_eq_iff in H. congruence.
    + intros [= ->]. pose proof (String.compare_antisym y y) as H.
      destruct (String.compare y y); try discriminate H; reflexivity.
  - split; reflexivity.
Qed.

Lemma compare_text_antisym (a b : option string) :
  Cache.compare_text a b = CompOpp (Cache.compare_text b a).
Proof.
  destruct a as [x|], b as [y|]; simpl; try reflexivity.
  apply String.compare_antisym.
Qed.

Lemma compare_text_lt_trans (a b c : option string) :
  Cache.compare_text a b = Lt -> Cache.compare_text b c = Lt ->
  Cache.compare_text a c = Lt.
Proof.
  destruct a as [x|], b as [y|], c as [z|]; simpl; try discriminate;
    try reflexivity.
  apply string_compare_lt_trans.
Qed.

Lemma compare_text_le_trans (a b c : option string) :
  Cache.compare_text a b <> Gt -> Cache.compare_text b c <> Gt ->
  Cache.compare_text a c <> Gt.
Proof.
  destruct (Cache.compare_text a b) eqn:Eab; [| |congruence]; intros _.
  - apply compare_text_eq in Eab. now subst b.
  - destruct (Cache.compare_text b c) eqn:Ebc; [| |congruence]; intros _.
    + apply compare_text_eq in Ebc. subst c. congruence.
    + rewrite (compare_text_lt_trans _ _ _ Eab Ebc). discriminate.
Qed.

Lemma order_marche_date_total (x y : Sync.Ligne) :
  Cache.order_marche_date x y = false -> Cache.order_marche_date y x = true.
Proof.
  unfold Cache.order_marche_date.
  rewrite (compare_text_antisym (Sync.marche y) (Sync.marche x)).
  rewrite (compare_text_antisym (Sync.date_sf y) (Sync.date_sf x)).
  destruct (Cache.compare_text (Sync.marche x) (Sync.marche y)); simpl;
    try discriminate; try reflexivity.
  destruct (Cache.compare_text (Sync.date_sf x) (Sync.date_sf y)); simpl;
    try discriminate; reflexivity.
Qed.

Lemma order_marche_date_le (x y : Sync.Ligne) :
  Cache.order_marche_date x y = true
  <-> Cache.compare_text (Sync.marche x) (Sync.marche y) = Lt
      \/ (Sync.marche x = Sync.marche y
          /\ Cache.compare_text (Sync.date_sf x) (Sync.date_sf y) <> Gt).
Proof.
  unfold Cache.order_marche_date.
  destruct (Cache.compare_text (Sync.marche x) (Sync.marche y)) eqn:Em.
  - apply compare_text_eq in Em. split.
    + intros H. right. split; [exact Em|].
      destruct (Cache.compare_text (Sync.date_sf x) (Sync.date_sf y));
        congruence.
    + intros [H | [_ H]]; [discriminate|].
      destruct (Cache.compare_text (Sync.date_sf x) (Sync.date_sf y));
        congruence.
  - split; [now left | reflexivity].
  - split; [discriminate|]. intros [H | [H _]]; [discriminate|].
    apply compare_text_eq in H. congruence.
Qed.

Lemma order_marche_date_trans (x y z : Sync.Ligne) :
  Cache.order_marche_date x y = true -> Cache.order_marche_date y z = true ->
  Cache.order_marche_date x z = true.
Proof.
  rewrite !order_marche_date_le.
  intros [Hxy | [Exy Hxy]] [Hyz | [Eyz Hyz]].
  - left. exact (compare_text_lt_trans _ _ _ Hxy Hyz).
  - left. now rewrite <- Eyz.
  - left. now rewrite Exy.
  - right. split; [congruence|].
    exact (compare_text_le_trans _ _ _ Hxy Hyz).
Qed.

(** X17: [load_to_dataframe] returns the rows of the table, each once and
    no other, those of the contract asked for when a filter is given, all
    of them with no filter or with the empty text as filter.  They
    come by ascending contract, a missing contract first, and within a
    contract by ascending text of the date, a missing date first. *)
Theorem load_to_dataframe_sorted (c : Sync.Conn)
  (marche_filter : option string) :
  let rows := Cache.load_to_dataframe c marche_filter in
  let table := Sync.lignes_factures (Sync.work c) in
  StronglySorted
    (fun a b =>
       Cache.compare_text (Sync.marche a) (Sync.marche b) = Lt
       \/ (Sync.marche a = Sync.marche b
           /\ Cache.compare_text (Sync.date_sf a) (Sync.date_sf b) <> Gt))
    rows
  /\ (marche_filter = None \/ marche_filter = Some "" ->
      Permutation rows table)
  /\ (forall m, marche_filter = Some m -> m <> "" ->
      Permutation rows
        (filter (fun l => match Sync.marche l with
                          | Some x => String.eqb x m
                          | None => false
                          end) table)
      /\ forall l, In l rows <-> In l table /\ Sync.marche l = Some m).
Proof.
  intros rows table. unfold rows, Cache.load_to_dataframe. clear rows.
  split; [|split].
  - apply (StronglySorted_weaken
             (fun a b => Cache.order_marche_date a b = true)).
    + intros a b. apply order_marche_date_le.
    + apply (stable_sort_StronglySorted Cache.order_marche_date).
      * apply order_marche_date_total.
      * apply order_marche_date_trans.
  - intros [-> | ->]; apply stable_sort_Permutation.
  - intros m -> Hm.
    assert (Hsel : match m with
                   | "" => Sync.lignes_factures (Sync.work c)
                   | String _ _ =>
                       filter (fun l => match Sync.marche l with
                                        | Some x => String.eqb x m
                                        | None => false
                                        end)
                         (Sync.lignes_factures (Sync.work c))
                   end
                   = filter (fun l => match Sync.marche l with
                                      | Some x => String.eqb x m
                                      | None => false
                                      end) table).
    { destruct m; [contradiction | reflexivity]. }
    assert (Hperm : Permutation
              (stable_sort Cache.order_marche_date
                 match m with
                 | "" => Sync.lignes_factures (Sync.work c)
                 | String _ _ =>
                     filter (fun l => match Sync.marche l with
                                      | Some x => String.eqb x m
                                      | None => false
                                      end)
                       (Sync.lignes_factures (Sync.work c))
                 end)
              (filter (fun l => match Sync.marche l with
                                | Some x => String.eqb x m
                                | None => false
                                end) table)).
    { rewrite <- Hsel. apply stable_sort_Permutation. }
    split; [exact Hperm|].
    intros l. split.
    + intros Hl. apply (Permutation_in _ Hperm) in Hl.
      apply filter_In in Hl. destruct Hl as [Hl Hsame].
      split; [exact Hl|].
      destruct (Sync.marche l) as [x|]; [|discriminate].
      apply String.eqb_eq in Hsame. now subst.
    + intros [Hl Hsame].
      apply (Permutation_in _ (Permutation_sym Hperm)).
      apply filter_In. split; [exact Hl|].
      rewrite Hsame. apply String.eqb_refl.
Qed.

(** ** The first import *)

(** X18: the first import, as [load_data] runs it: the synchronisation of
    an empty table followed by [load_to_dataframe].  When the
    synchronisation succeeds it counts every incoming row as inserted,
    none as unchanged or deleted; the rows loaded have distinct hashes, one
    for each hash that came in, and each of them holds the data of an
    incoming row of its hash.  Rows of equal hash are counted each and
    stored once. *)
Theorem first_import_loads_rows (rt : Runtime) (env : Sync.Env)
  (filepath : string) (df : list Sync.Series) (force : bool) (c : Sync.Conn) :
  Sync.lignes_factures (Sync.work c) = [] ->
  let r := Sync.sync_from_excel rt env filepath df force c in
  let loaded := Cache.load_to_dataframe (fst r) None in
  Sync.status (snd r) = "success" ->
  Sync.nb_inserted (snd r) = Z.of_nat (List.length df)
  /\ Sync.nb_unchanged (snd r) = 0
  /\ Sync.nb_deleted (snd r) = 0
  /\ NoDup (map Sync.hash_ligne loaded)
  /\ (forall row, In row df ->
        In (Sync._calculate_row_hash rt row) (map Sync.hash_ligne loaded))
  /\ (forall l, In l loaded ->
        exists row, In row df /\ Stated.holds_row rt l row
                    /\ Sync.hash_ligne l = Sync._calculate_row_hash rt row).
Proof.
  intros Hempty r loaded Hs. unfold loaded, r in *. clear loaded r.
  assert (Hperm : Permutation
            (Cache.load_to_dataframe
               (fst (Sync.sync_from_excel rt env filepath df force c)) None)
            (Sync.lignes_factures
               (Sync.work
                  (fst (Sync.sync_from_excel rt env filepath df force c)))))
    by apply stable_sort_Permutation.
  assert (Hex : Sync.select_hashes (Sync.work c) = [])
    by (unfold Sync.select_hashes; now rewrite Hempty).
  destruct (sync_from_excel_success _ _ _ _ _ _ Hs)
    as (rows & Hrows & Hdata & Hwork & _ & Hunch & Hins & Hdel).
  rewrite Hex in Hrows, Hwork, Hunch, Hdel.
  assert (Hall : forall hs : list string,
            filter (fun h => negb (set_mem string_dec h [])) hs = hs).
  { induction hs as [|h hs IH]; [reflexivity|].
    change (h :: filter (fun h => negb (set_mem string_dec h [])) hs
            = h :: hs).
    now rewrite IH. }
  assert (Hnone : forall hs : list string,
            filter (fun h => set_mem string_dec h []) hs = []).
  { induction hs as [|h hs IH]; [reflexivity|].
    change (filter (fun h => set_mem string_dec h []) hs = []). exact IH. }
  rewrite Hall in Hrows. rewrite Hnone in Hunch.
  change (set_diff string_dec [] ?nh) with (@nil string) in Hwork, Hdel.
  rewrite delete_hashes_nil in Hwork.
  assert (Hlignes : Sync.lignes_factures
                      (Sync.work
                         (fst (Sync.sync_from_excel rt env filepath df
                                 force c)))
                    = Sync.lignes_factures
                        (fold_left Sync.insert_or_replace rows (Sync.work c)))
    by (now rewrite Hwork).
  rewrite Hlignes in Hperm.
  split.
  { rewrite Hins, <- (length_map Sync.hash_ligne), Hrows.
    now rewrite length_map. }
  split; [exact Hunch|]. split; [exact Hdel|].
  split.
  { apply (Permutation_NoDup
             (Permutation_map Sync.hash_ligne (Permutation_sym Hperm))).
    apply insert_many_NoDup. unfold Sync.stored_hashes. rewrite Hempty.
    constructor. }
  split.
  { intros row Hrow.
    apply (Permutation_in _
             (Permutation_map Sync.hash_ligne (Permutation_sym Hperm))).
    apply insert_many_hashes. right. rewrite Hrows. now apply in_map. }
  intros l Hl. apply (Permutation_in _ Hperm) in Hl.
  apply insert_many_origin in Hl.
  destruct Hl as [Hold | (_ & d & Hd & Hsame)].
  - rewrite Hempty in Hold. destruct Hold.
  - destruct (Hdata d Hd) as (row & Hrow & Erow).
    exists row. split; [exact Hrow|].
    split; [exact (row_data_holds _ _ _ _ _ Erow Hsame)|].
    rewrite <- (row_data_hash rt _ _ _ Erow). apply Hsame.
Qed.

(** X18 on a fresh cache and twice the same row: two rows counted, one
    row loaded. *)
Lemma first_import_loads_rows_witness :
  let r :=
    Sync.sync_from_excel Sample.runtime Sample.env_abc "factures.xlsx"
      [Sample.ligne_import "A"; Sample.ligne_import "A"] false Sample.fresh in
  Sync.lignes_factures (Sync.work Sample.fresh) = []
  /\ Sync.status (snd r) = "success"
  /\ Sync.nb_inserted (snd r) = 2
  /\ List.length (Cache.load_to_dataframe (fst r) None) = 1%nat.
Proof.
  cbv zeta. split; [reflexivity|].
  assert (Hs : Sync.status
                 (snd (Sync.sync_from_excel Sample.runtime Sample.env_abc
                         "factures.xlsx"
                         [Sample.ligne_import "A"; Sample.ligne_import "A"]
                         false Sample.fresh)) = "success")
    by (vm_compute; reflexivity).
  split; [exact Hs|]. split; [|vm_compute; reflexivity].
  exact (proj1 (first_import_loads_rows Sample.runtime Sample.env_abc
                  "factures.xlsx"
                  [Sample.ligne_import "A"; Sample.ligne_import "A"] false
                  Sample.fresh eq_refl Hs)).
Defined.

(** ** Clearing the cache *)

(** X19: [clear_cache] either goes through, which it does exactly when
    none of its three statements raises, or raises.  When it goes through,
    both tables are empty and committed, the AUTOINCREMENT counter is
    kept, [load_to_dataframe] returns no row, [get_sync_status] knows no
    path, and the next [sync_from_excel] is never skipped, even without
    [force].  When it raises, the committed tables are as they were, and
    nothing is rolled back: a deletion already made stays in the open
    transaction. *)
Theorem clear_cache_spec (fault : Cache.ClearOp -> option string)
  (c : Sync.Conn) :
  match Cache.clear_cache fault c with
  | (c', Ok _) =>
      (forall op, fault op = None)
      /\ Sync.disk c' = Sync.work c'
      /\ Sync.lignes_factures (Sync.work c') = []
      /\ Sync.sync_info (Sync.work c') = []
      /\ Sync.seq_lignes (Sync.work c') = Sync.seq_lignes (Sync.work c)
      /\ (forall marche_filter, Cache.load_to_dataframe c' marche_filter = [])
      /\ (forall filepath, Cache.get_sync_status c' filepath = None)
      /\ (forall rt env filepath df,
            Sync.status
              (snd (Sync.sync_from_excel rt env filepath df false c'))
            <> "skipped")
  | (c', Raise msg) =>
      (exists op, fault op = Some msg)
      /\ Sync.disk c' = Sync.disk c
      /\ (fault Cache.DeleteLignesFactures = None ->
          Sync.lignes_factures (Sync.work c') = [])
  end.
Proof.
  unfold Cache.clear_cache.
  destruct (fault Cache.DeleteLignesFactures) as [m1|] eqn:E1.
  { split; [now exists Cache.DeleteLignesFactures|].
    split; [reflexivity | discriminate]. }
  destruct (fault Cache.DeleteSyncInfo) as [m2|] eqn:E2.
  { split; [now exists Cache.DeleteSyncInfo|].
    split; reflexivity. }
  destruct (fault Cache.CommitClear) as [m3|] eqn:E3.
  { split; [now exists Cache.CommitClear|].
    split; reflexivity. }
  split; [intros []; assumption|].
  split; [reflexivity|]. split; [reflexivity|]. split; [reflexivity|].
  split; [reflexivity|].
  split; [intros [[|a s]|]; reflexivity|].
  split; [reflexivity|].
  intros rt env filepath df. unfold Sync.sync_from_excel.
  destruct (Sync.sync_body rt env filepath df false _) as [s' [u|msg]] eqn:E;
    cbn [snd]; [|discriminate].
  apply sync_body_ok in E.
  destruct E as [(_ & _ & _ & f & reason & _ & _ & Hv & _)|E].
  - discriminate Hv.
  - apply sync_changes_ok in E. cbv zeta in E.
    destruct E as (rows & _ & _ & _ & Hst & _). rewrite Hst. discriminate.
Qed.
